(** * Print-sheet layout engine of image-to-print-app

    A shallow embedding of [src/components/PrintLayout.tsx] (with the
    constants of [constants.ts]) and the properties of its layout
    calculator, sheet packer, quantity handling, page navigation and
    renderer fallback chain.

    Number model.  JavaScript numbers that hold lengths (millimetres,
    pixels, scale factors) are embedded as exact rationals [Q]: the code
    only adds, subtracts, multiplies, divides, compares and floors them.
    Rounding of IEEE-754 doubles is not part of this model; the concrete
    scenarios are run again in binary64 arithmetic (module [Binary64]).
    Counts (columns, rows, quantities, page numbers) are integers [Z]. *)

From Stdlib Require Import PrimFloat FloatOps SpecFloat.
From Stdlib Require Import ZArith QArith Qround Qminmax Lqa Lia.
From stdpp Require Import base gmap strings list sorting.

Open Scope Z_scope.

(** ** JavaScript helpers *)

(** [a <= b] and [a > b] on numbers, as booleans. *)
Definition Qleb (a b : Q) : bool := Qle_bool a b.
Definition Qgtb (a b : Q) : bool := negb (Qle_bool a b).

(** ** constants.ts *)

Definition DPI : Q := 300%Q.

Module Dimensions.
Record t := mk { width : Q; height : Q }.
End Dimensions.

Definition A4_DIMENSIONS_MM : Dimensions.t := Dimensions.mk 210 297.

(** ** Data model (types.ts, as used by PrintLayout.tsx) *)

Module PassportSize.
Record t := mk { name : string; width_mm : Q; height_mm : Q }.
End PassportSize.

(** [rotation: 0 | 90] *)
Inductive Rotation := Rot0 | Rot90.

Module ProcessedImage.
(** [width_px] and [height_px] are the natural pixel dimensions that
    random-size images carry; the source reads them with a non-null
    assertion. *)
Record t := mk {
  id : string;
  dataUrl : string;
  size : PassportSize.t;
  width_px : Q;
  height_px : Q;
  rotation : Rotation
}.
End ProcessedImage.

Module Margins.
Record t := mk { top : Q; right : Q; bottom : Q; left : Q }.
End Margins.

Module LayoutInfo.
Record t := mk { portrait : Z; landscape : Z; max : Z; rotateForMax : bool }.
End LayoutInfo.

(** [interface PositionedImage extends ProcessedImage] *)
Module PositionedImage.
Record t := mk {
  image : ProcessedImage.t;
  x : Q;
  y : Q;
  renderWidth : Q;
  renderHeight : Q
}.
End PositionedImage.

(** ** Unit converter *)

(** [const mmToPx = (mm: number) => (mm / 25.4) * DPI;] *)
Definition mmToPx (mm : Q) : Q := ((mm / 25.4) * DPI)%Q.

Definition MARK_THICKNESS_PX : Q := 1%Q.
Definition MARK_LENGTH_PX : Q := 10%Q.
Definition MARK_PADDING_PX : Q := 2%Q.

(** ** Layout calculator *)

(** The guarded quotient that the source writes out for every axis:
    [total > 0 ? Math.floor((printable + gap) / (total + gap)) : 0], in
    exact arithmetic.  [Binary64.cellsAlong] is the same expression on
    doubles; the two differ where the exact quotient is an integer that
    the rounded one falls short of. *)
Definition cellsAlong (printablePx gapPx totalPerImage : Q) : Z :=
  if Qgtb totalPerImage 0
  then Qfloor ((printablePx + gapPx) / (totalPerImage + gapPx))
  else 0.

Definition isRandomSizeName (n : string) : bool := String.eqb n "Random Size".

Definition noLayout : LayoutInfo.t := LayoutInfo.mk 0 0 0 false.

(** [const gapMm = noGap ? 0 : 2;] *)
Definition gapMm (noGap : bool) : Q := if noGap then 0%Q else 2%Q.

(** [showCutMarks && !noGap ? (MARK_PADDING_PX / DPI) * 25.4 : 0] *)
Definition markPaddingMm (showCutMarks noGap : bool) : Q :=
  if showCutMarks && negb noGap
  then ((MARK_PADDING_PX / DPI) * 25.4)%Q else 0%Q.

Definition calculateLayoutInfo
    (paperWidthMm paperHeightMm : Q)
    (photoSize : option PassportSize.t)
    (margins : Margins.t)
    (showCutMarks noGap : bool) : LayoutInfo.t :=
  match photoSize with
  | None => noLayout
  | Some photoSize =>
    if isRandomSizeName (PassportSize.name photoSize) then noLayout else
    let printableWidthMm :=
      (paperWidthMm - Margins.left margins - Margins.right margins)%Q in
    let printableHeightMm :=
      (paperHeightMm - Margins.top margins - Margins.bottom margins)%Q in
    if Qleb printableWidthMm 0 || Qleb printableHeightMm 0 then noLayout else
    let gapMm := gapMm noGap in
    let markPaddingMm := markPaddingMm showCutMarks noGap in
    let printableWidthPx := mmToPx printableWidthMm in
    let printableHeightPx := mmToPx printableHeightMm in
    let gapPx := mmToPx gapMm in
    let markPaddingPx := mmToPx markPaddingMm in
    (* Portrait photo calc *)
    let totalWidthPerImage_P :=
      (mmToPx (PassportSize.width_mm photoSize) + markPaddingPx * 2)%Q in
    let totalHeightPerImage_P :=
      (mmToPx (PassportSize.height_mm photoSize) + markPaddingPx * 2)%Q in
    let cols_P := cellsAlong printableWidthPx gapPx totalWidthPerImage_P in
    let rows_P := cellsAlong printableHeightPx gapPx totalHeightPerImage_P in
    let portraitMax := cols_P * rows_P in
    (* Landscape photo calc (photo is rotated) *)
    let totalWidthPerImage_L :=
      (mmToPx (PassportSize.height_mm photoSize) + markPaddingPx * 2)%Q in
    let totalHeightPerImage_L :=
      (mmToPx (PassportSize.width_mm photoSize) + markPaddingPx * 2)%Q in
    let cols_L := cellsAlong printableWidthPx gapPx totalWidthPerImage_L in
    let rows_L := cellsAlong printableHeightPx gapPx totalHeightPerImage_L in
    let landscapeMax := cols_L * rows_L in
    LayoutInfo.mk portraitMax landscapeMax
                  (Z.max portraitMax landscapeMax)
                  (landscapeMax >? portraitMax)
  end.

(** ** Completion records

    A computation either returns or throws an [Error] with a message.
    The layout code contains two places where JavaScript can throw a
    [TypeError]: reading a property of [null] ([passportSize!]) and
    calling [push] on a missing array slot ([pages[pageIndex]]). *)

Inductive Completion (A : Type) : Type :=
| Normal (value : A)
| Throw (message : string).
Arguments Normal {A} value.
Arguments Throw {A} message.

Definition bindC {A B} (c : Completion A) (k : A -> Completion B) : Completion B :=
  match c with
  | Normal a => k a
  | Throw m => Throw m
  end.

#[global] Instance Completion_bind : MBind Completion :=
  fun A B k c => bindC c k.
#[global] Instance Completion_ret : MRet Completion := @Normal.

(** [try { body } catch (e) { handler(e) }] *)
Definition tryCatch {A} (body : Completion A) (handler : string -> Completion A)
  : Completion A :=
  match body with
  | Normal a => Normal a
  | Throw m => handler m
  end.

Definition typeError : string := "TypeError: Cannot read properties of undefined".

(** ** Component state of [PrintLayout]

    The [images] prop and the [useState] cells that the layout reads.
    The quantity map and the current page are kept apart: they are the
    cells that the effects below write. *)

Inductive PaperType := PaperA4 | PaperCustom.
Inductive PaperOrientation := OrientPortrait | OrientLandscape.

Module Settings.
Record t := mk {
  images : list ProcessedImage.t;
  showCutMarks : bool;
  paperType : PaperType;
  customPaperSize : Dimensions.t;
  paperOrientation : PaperOrientation;
  margins : Margins.t;
  noGap : bool;
  rotatePhotos : bool;
  randomImageScale : Q
}.
End Settings.

(** Initial values of the [useState] cells, for a given [images] prop. *)
Definition initialSettings (images : list ProcessedImage.t) : Settings.t :=
  Settings.mk images false PaperA4 (Dimensions.mk 100 150) OrientPortrait
              (Margins.mk 10 10 10 10) false false 1.

(** [Record<string, number>] *)
Abbreviation Quantities := (gmap string Z).

Definition passportSize (s : Settings.t) : option PassportSize.t :=
  match Settings.images s with
  | [] => None
  | first :: _ => Some (ProcessedImage.size first)
  end.

(** [passportSize?.name === "Random Size"] *)
Definition isRandomSizeMode (s : Settings.t) : bool :=
  match passportSize s with
  | Some ps => isRandomSizeName (PassportSize.name ps)
  | None => false
  end.

Definition basePaperDimensions (s : Settings.t) : Dimensions.t :=
  match Settings.paperType s with
  | PaperA4 => A4_DIMENSIONS_MM
  | PaperCustom => Settings.customPaperSize s
  end.

Definition paperDimensions (s : Settings.t) : Dimensions.t :=
  match Settings.paperOrientation s with
  | OrientLandscape =>
      Dimensions.mk (Dimensions.height (basePaperDimensions s))
                    (Dimensions.width (basePaperDimensions s))
  | OrientPortrait => basePaperDimensions s
  end.

Definition layoutInfo (s : Settings.t) : LayoutInfo.t :=
  calculateLayoutInfo
    (Dimensions.width (paperDimensions s))
    (Dimensions.height (paperDimensions s))
    (passportSize s)
    (Settings.margins s)
    (Settings.showCutMarks s)
    (Settings.noGap s).

Definition maxPhotos (s : Settings.t) : Z := LayoutInfo.max (layoutInfo s).

(** [Object.values(quantities)] and [Object.entries(quantities)] *)
Definition objectValues (quantities : Quantities) : list Z :=
  (map_to_list quantities).*2.

Definition objectEntries (quantities : Quantities) : list (string * Z) :=
  map_to_list quantities.

(** [Object.values(quantities).reduce((sum, count) => sum + count, 0)] *)
Definition totalCount (quantities : Quantities) : Z :=
  foldl (fun sum count => sum + count) 0 (objectValues quantities).

(** ** Quantity expansion *)

(** [images.findIndex((img) => img.id === a)], [-1] when absent. *)
Fixpoint findIndexFrom (i : Z) (images : list ProcessedImage.t) (a : string) : Z :=
  match images with
  | [] => -1
  | img :: rest =>
      if String.eqb (ProcessedImage.id img) a then i
      else findIndexFrom (i + 1) rest a
  end.

Definition findIndex (images : list ProcessedImage.t) (a : string) : Z :=
  findIndexFrom 0 images a.

(** [images.find((img) => img.id === id)] *)
Fixpoint find (images : list ProcessedImage.t) (a : string)
  : option ProcessedImage.t :=
  match images with
  | [] => None
  | img :: rest =>
      if String.eqb (ProcessedImage.id img) a then Some img else find rest a
  end.

(** [Object.keys(quantities)].  A JavaScript object lists its string
    keys in insertion order; the finite map lists them in its own fixed
    order.  The keys are sorted by image position right away and keys
    without an image are skipped, so the expansion depends neither on
    that order nor on the stability of the sort
    (see [imagesToPrint_standard]). *)
Definition objectKeys (quantities : Quantities) : list string :=
  (map_to_list quantities).*1.

(** [quantities[id] || 0] *)
Definition quantityOf (quantities : Quantities) (a : string) : Z :=
  default 0 (quantities !! a).

(** [for (let i = 0; i < n; i++) flatArray.push(image)] *)
Definition pushTimes (n : Z) (image : ProcessedImage.t)
    (flatArray : list ProcessedImage.t) : list ProcessedImage.t :=
  flatArray ++ replicate (Z.to_nat n) image.

(** The order of the comparator
    [(a, b) => images.findIndex(a) - images.findIndex(b)]. *)
Definition byImageIndex (images : list ProcessedImage.t) (a b : string) : Prop :=
  findIndex images a <= findIndex images b.

#[global] Instance byImageIndex_dec images a b : Decision (byImageIndex images a b).
Proof. unfold byImageIndex. apply _. Defined.

Definition sortedImageIds (images : list ProcessedImage.t)
    (quantities : Quantities) : list string :=
  merge_sort (byImageIndex images) (objectKeys quantities).

Definition imagesToPrint (s : Settings.t) (quantities : Quantities)
  : list ProcessedImage.t :=
  if isRandomSizeMode s then Settings.images s else
  foldl (fun flatArray a =>
           match find (Settings.images s) a with
           | Some image => pushTimes (quantityOf quantities a) image flatArray
           | None => flatArray
           end)
        [] (sortedImageIds (Settings.images s) quantities).

(** ** Sheet packer *)

Abbreviation Page := (list PositionedImage.t).

(** [pages[pageIndex].push(item)]: throws when the slot is missing. *)
Definition pushToPage (pages : list Page) (pageIndex : nat)
    (item : PositionedImage.t) : Completion (list Page) :=
  match pages !! pageIndex with
  | Some page => Normal (<[pageIndex := page ++ [item]]> pages)
  | None => Throw typeError
  end.

(** The mutable locals of the random-size loop. *)
Module Packing.
Record t := mk {
  pages : list Page;
  pageIndex : nat;
  cursor_x : Q;
  cursor_y : Q;
  rowHeight : Q
}.
End Packing.

(** The footprint of one random-size image at the target height.  The
    natural dimensions of a decoded image are positive; for a zero
    [height_px] JavaScript would produce [Infinity] or [NaN], which the
    rationals do not have. *)
Definition scaledSize (TARGET_HEIGHT_PX : Q) (img : ProcessedImage.t) : Q * Q :=
  let aspect := (ProcessedImage.width_px img / ProcessedImage.height_px img)%Q in
  let scaledWidth := (TARGET_HEIGHT_PX * aspect)%Q in
  let scaledHeight := TARGET_HEIGHT_PX in
  match ProcessedImage.rotation img with
  | Rot90 => (scaledHeight, scaledWidth)
  | Rot0 => (scaledWidth, scaledHeight)
  end.

(** [if (cursor.x > 0 && cursor.x + scaledWidth > printableWidthPx)] *)
Definition wrapRow (printableWidthPx gapPx scaledWidth : Q) (st : Packing.t)
  : Packing.t :=
  if Qgtb (Packing.cursor_x st) 0
     && Qgtb (Packing.cursor_x st + scaledWidth) printableWidthPx
  then Packing.mk (Packing.pages st) (Packing.pageIndex st)
                  0 (Packing.cursor_y st + (Packing.rowHeight st + gapPx)) 0
  else st.

(** [if (cursor.y + scaledHeight > printableHeightPx)] *)
Definition breakPage (printableHeightPx scaledHeight : Q) (st : Packing.t)
  : Packing.t :=
  if Qgtb (Packing.cursor_y st + scaledHeight) printableHeightPx
  then Packing.mk (Packing.pages st ++ [[]]) (S (Packing.pageIndex st)) 0 0 0
  else st.

(** One iteration of [for (const img of imagesToPrint)]. *)
Definition placeRandom (printableWidthPx printableHeightPx gapPx TARGET_HEIGHT_PX : Q)
    (st : Packing.t) (img : ProcessedImage.t) : Completion Packing.t :=
  let '(scaledWidth, scaledHeight) := scaledSize TARGET_HEIGHT_PX img in
  let st := wrapRow printableWidthPx gapPx scaledWidth st in
  let st := breakPage printableHeightPx scaledHeight st in
  pages ← pushToPage (Packing.pages st) (Packing.pageIndex st)
          (PositionedImage.mk img (Packing.cursor_x st) (Packing.cursor_y st)
                              scaledWidth scaledHeight);
  Normal (Packing.mk pages (Packing.pageIndex st)
            (Packing.cursor_x st + (scaledWidth + gapPx))
            (Packing.cursor_y st)
            (Qmax (Packing.rowHeight st) scaledHeight)).

Fixpoint packRandom (printableWidthPx printableHeightPx gapPx TARGET_HEIGHT_PX : Q)
    (st : Packing.t) (imgs : list ProcessedImage.t) : Completion Packing.t :=
  match imgs with
  | [] => Normal st
  | img :: rest =>
      st ← placeRandom printableWidthPx printableHeightPx gapPx
                       TARGET_HEIGHT_PX st img;
      packRandom printableWidthPx printableHeightPx gapPx TARGET_HEIGHT_PX st rest
  end.

(** The grid that the standard branch computes for the sheet. *)
Module Grid.
Record t := mk { totalWidth : Q; totalHeight : Q; cols : Z; rows : Z }.
End Grid.

Definition standardGrid (s : Settings.t) (size : PassportSize.t)
    (printableWidthPx printableHeightPx gapPx : Q) : Grid.t :=
  let markPaddingPx :=
    mmToPx (if Settings.showCutMarks s && negb (Settings.noGap s)
            then MARK_PADDING_PX else 0%Q) in
  let photoW := if Settings.rotatePhotos s
                then PassportSize.height_mm size else PassportSize.width_mm size in
  let photoH := if Settings.rotatePhotos s
                then PassportSize.width_mm size else PassportSize.height_mm size in
  let totalWidth := (mmToPx photoW + markPaddingPx * 2)%Q in
  let totalHeight := (mmToPx photoH + markPaddingPx * 2)%Q in
  let cols := cellsAlong printableWidthPx gapPx totalWidth in
  let rows := cellsAlong printableHeightPx gapPx totalHeight in
  Grid.mk totalWidth totalHeight cols rows.

(** The cell of the grid for the [i]-th image of the page. *)
Definition gridCell (g : Grid.t) (gapPx : Q) (itemsPerPage i : Z)
    (img : ProcessedImage.t) : PositionedImage.t :=
  let itemOnPageIndex := Z.rem i itemsPerPage in
  let col := Z.rem itemOnPageIndex (Grid.cols g) in
  (* Math.floor(itemOnPageIndex / cols) *)
  let row := itemOnPageIndex / Grid.cols g in
  PositionedImage.mk img
    (inject_Z col * (Grid.totalWidth g + gapPx))
    (inject_Z row * (Grid.totalHeight g + gapPx))
    (Grid.totalWidth g) (Grid.totalHeight g).

(** [for (let i = 0; i < imagesForPage.length; i++)], from index [i] on. *)
Fixpoint placeGrid (g : Grid.t) (gapPx : Q) (itemsPerPage : Z) (pageIndex : nat)
    (i : Z) (imagesForPage : list ProcessedImage.t) (pages : list Page)
  : Completion (list Page) :=
  match imagesForPage with
  | [] => Normal pages
  | img :: rest =>
      pages ← pushToPage pages pageIndex (gridCell g gapPx itemsPerPage i img);
      placeGrid g gapPx itemsPerPage pageIndex (i + 1) rest pages
  end.

(** [pages.filter((p) => p.length > 0)] *)
Definition nonEmptyPages (pages : list Page) : list Page :=
  filter (fun p : Page => (0 < length p)%nat) pages.

Definition printableWidthMm (s : Settings.t) : Q :=
  (Dimensions.width (paperDimensions s)
   - Margins.left (Settings.margins s) - Margins.right (Settings.margins s))%Q.

Definition printableHeightMm (s : Settings.t) : Q :=
  (Dimensions.height (paperDimensions s)
   - Margins.top (Settings.margins s) - Margins.bottom (Settings.margins s))%Q.

Definition paginatedLayout (s : Settings.t) (quantities : Quantities)
  : Completion (list Page) :=
  let imagesToPrint := imagesToPrint s quantities in
  if (length imagesToPrint =? 0)%nat then Normal [] else
  let printableWidthPx := mmToPx (printableWidthMm s) in
  let printableHeightPx := mmToPx (printableHeightMm s) in
  if Qleb printableWidthPx 0 || Qleb printableHeightPx 0 then Normal [] else
  let gapPx := mmToPx (gapMm (Settings.noGap s)) in
  let pages : list Page := [[]] in
  let pageIndex := 0%nat in
  if isRandomSizeMode s then
    (* Simple row-based layout *)
    let baseTargetHeight := mmToPx 45 in
    let TARGET_HEIGHT_PX :=
      (Qmin baseTargetHeight printableHeightPx * Settings.randomImageScale s)%Q in
    st ← packRandom printableWidthPx printableHeightPx gapPx TARGET_HEIGHT_PX
                    (Packing.mk pages pageIndex 0 0 0) imagesToPrint;
    Normal (nonEmptyPages (Packing.pages st))
  else
    (* Single-page logic for standard sizes *)
    match passportSize s with
    | None => Throw typeError
    | Some size =>
        let g := standardGrid s size printableWidthPx printableHeightPx gapPx in
        let itemsPerPage := Grid.cols g * Grid.rows g in
        if itemsPerPage >? 0 then
          let imagesForPage := take (Z.to_nat itemsPerPage) imagesToPrint in
          pages ← placeGrid g gapPx itemsPerPage pageIndex 0 imagesForPage pages;
          Normal (nonEmptyPages pages)
        else Normal (nonEmptyPages pages)
    end.

(** ** Quantity map: the effect and the handlers *)

(** The loop shared by the effect and by [handleFillPage]:
    [newQuantities[image.id] = baseCount + (remainder-- > 0 ? 1 : 0)]
    for every image, in order. *)
Definition shareOut (baseCount : Z)
    (acc : Quantities * Z) (image : ProcessedImage.t) : Quantities * Z :=
  let '(newQuantities, remainder) := acc in
  (<[ProcessedImage.id image := baseCount + (if remainder >? 0 then 1 else 0)]>
     newQuantities,
   remainder - 1).

Definition fillEvenly (images : list ProcessedImage.t) (total : Z) : Quantities :=
  let baseCount := total / Z.of_nat (length images) in
  let remainder := Z.rem total (Z.of_nat (length images)) in
  (foldl (shareOut baseCount) (∅, remainder) images).1.

(** The [useEffect] over [[images, maxPhotos, isRandomSizeMode]]: the
    value it passes to [setQuantities], or the untouched map when it
    returns early. *)
Definition quantitiesEffect (s : Settings.t) (quantities : Quantities)
  : Quantities :=
  if isRandomSizeMode s then quantities else
  if (0 <? length (Settings.images s))%nat && (maxPhotos s >? 0)
  then fillEvenly (Settings.images s) (maxPhotos s)
  else ∅.

Definition handleQuantityChange (s : Settings.t) (quantities : Quantities)
    (id : string) (value : Z) : Quantities :=
  if isRandomSizeMode s then <[id := value]> quantities else
  let currentTotalWithoutThisImage :=
    foldl (fun sum entry => sum + entry.2) 0
          (filter (fun entry : string * Z => entry.1 <> id)
                  (objectEntries quantities)) in
  let maxForThisImage := maxPhotos s - currentTotalWithoutThisImage in
  let newValue := Z.min value maxForThisImage in
  if newValue >=? 0 then <[id := newValue]> quantities else quantities.

Inductive Side := SideTop | SideRight | SideBottom | SideLeft.

(** [if (numValue >= 0) setMargins((prev) => ({ ...prev, [side]: numValue }))] *)
Definition handleMarginChange (margins : Margins.t) (side : Side) (numValue : Q)
  : Margins.t :=
  if Qleb 0 numValue then
    match side with
    | SideTop => Margins.mk numValue (Margins.right margins)
                            (Margins.bottom margins) (Margins.left margins)
    | SideRight => Margins.mk (Margins.top margins) numValue
                              (Margins.bottom margins) (Margins.left margins)
    | SideBottom => Margins.mk (Margins.top margins) (Margins.right margins)
                               numValue (Margins.left margins)
    | SideLeft => Margins.mk (Margins.top margins) (Margins.right margins)
                             (Margins.bottom margins) numValue
    end
  else margins.

Definition toggleRotation (img : ProcessedImage.t) : ProcessedImage.t :=
  ProcessedImage.mk (ProcessedImage.id img) (ProcessedImage.dataUrl img)
    (ProcessedImage.size img) (ProcessedImage.width_px img)
    (ProcessedImage.height_px img)
    (match ProcessedImage.rotation img with Rot90 => Rot0 | Rot0 => Rot90 end).

Definition handleRotateImage (images : list ProcessedImage.t) (id : string)
  : list ProcessedImage.t :=
  map (fun img => if String.eqb (ProcessedImage.id img) id
                  then toggleRotation img else img) images.

Definition withFill (s : Settings.t) (o : PaperOrientation) (rotate : bool)
  : Settings.t :=
  Settings.mk (Settings.images s) (Settings.showCutMarks s) (Settings.paperType s)
    (Settings.customPaperSize s) o (Settings.margins s) (Settings.noGap s)
    rotate (Settings.randomImageScale s).

(** [handleFillPage]: the new settings and the new quantity map. *)
Definition handleFillPage (s : Settings.t) (quantities : Quantities)
  : Settings.t * Quantities :=
  match passportSize s with
  | None => (s, quantities)
  | Some size =>
    if (length (Settings.images s) =? 0)%nat || isRandomSizeMode s
    then (s, quantities) else
    let baseDims := basePaperDimensions s in
    let pResult :=
      calculateLayoutInfo (Dimensions.width baseDims) (Dimensions.height baseDims)
        (Some size) (Settings.margins s) (Settings.showCutMarks s)
        (Settings.noGap s) in
    let lResult :=
      calculateLayoutInfo (Dimensions.height baseDims) (Dimensions.width baseDims)
        (Some size) (Settings.margins s) (Settings.showCutMarks s)
        (Settings.noGap s) in
    let better := LayoutInfo.max lResult >? LayoutInfo.max pResult in
    let maxForFill :=
      if better then LayoutInfo.max lResult else LayoutInfo.max pResult in
    let s' :=
      withFill s (if better then OrientLandscape else OrientPortrait)
        (if better then LayoutInfo.rotateForMax lResult
         else LayoutInfo.rotateForMax pResult) in
    if maxForFill <=? 0 then
      (s', foldl (fun acc img => <[ProcessedImage.id img := 0]> acc)
                 ∅ (Settings.images s))
    else (s', fillEvenly (Settings.images s) maxForFill)
  end.

(** ** Page navigation *)

(** [paginatedLayout.length] *)
Definition pageCount (s : Settings.t) (quantities : Quantities) : Z :=
  match paginatedLayout s quantities with
  | Normal pages => Z.of_nat (length pages)
  | Throw _ => 0
  end.

(** The [useEffect] over [[currentPage, paginatedLayout.length]]. *)
Definition currentPageEffect (currentPage len : Z) : Z :=
  if (currentPage >? len) && (len >? 0) then len
  else if (len =? 0) && negb (currentPage =? 1) then 1
  else currentPage.

(** [setCurrentPage((p) => Math.max(1, p - 1))] *)
Definition prevPage (p : Z) : Z := Z.max 1 (p - 1).

(** [setCurrentPage((p) => Math.min(paginatedLayout.length, p + 1))] *)
Definition nextPage (len p : Z) : Z := Z.min len (p + 1).

(** ** The component as a state machine

    A state holds the settings, the quantity map and the current page.
    An event is one user action on a control that the component renders
    (or a new [images] prop from the parent); it runs the handler and
    then the two effects.  A control that is not rendered, or is
    disabled, in a state has no event there. *)

Module Component.
Record t := mk {
  settings : Settings.t;
  quantities : Quantities;
  currentPage : Z
}.
End Component.

Inductive Event :=
| EvImages (images : list ProcessedImage.t)
| EvRotateImage (id : string)
| EvToggleCutMarks
| EvToggleNoGap
| EvPaperType (paperType : PaperType)
| EvCustomWidth (width : Q)
| EvCustomHeight (height : Q)
| EvOrientation (orientation : PaperOrientation)
| EvMargin (side : Side) (numValue : Q)
| EvScale (scale : Q)
| EvQuantity (id : string) (value : Z)
| EvFillPage
| EvPrev
| EvNext.

Definition setImages (s : Settings.t) (images : list ProcessedImage.t) :=
  Settings.mk images (Settings.showCutMarks s) (Settings.paperType s)
    (Settings.customPaperSize s) (Settings.paperOrientation s)
    (Settings.margins s) (Settings.noGap s) (Settings.rotatePhotos s)
    (Settings.randomImageScale s).

Definition setShowCutMarks (s : Settings.t) (b : bool) :=
  Settings.mk (Settings.images s) b (Settings.paperType s)
    (Settings.customPaperSize s) (Settings.paperOrientation s)
    (Settings.margins s) (Settings.noGap s) (Settings.rotatePhotos s)
    (Settings.randomImageScale s).

Definition setPaperType (s : Settings.t) (paperType : PaperType) :=
  Settings.mk (Settings.images s) (Settings.showCutMarks s) paperType
    (Settings.customPaperSize s) (Settings.paperOrientation s)
    (Settings.margins s) (Settings.noGap s) (Settings.rotatePhotos s)
    (Settings.randomImageScale s).

Definition setCustomPaperSize (s : Settings.t) (d : Dimensions.t) :=
  Settings.mk (Settings.images s) (Settings.showCutMarks s) (Settings.paperType s)
    d (Settings.paperOrientation s)
    (Settings.margins s) (Settings.noGap s) (Settings.rotatePhotos s)
    (Settings.randomImageScale s).

Definition setPaperOrientation (s : Settings.t) (o : PaperOrientation) :=
  Settings.mk (Settings.images s) (Settings.showCutMarks s) (Settings.paperType s)
    (Settings.customPaperSize s) o
    (Settings.margins s) (Settings.noGap s) (Settings.rotatePhotos s)
    (Settings.randomImageScale s).

Definition setMargins (s : Settings.t) (m : Margins.t) :=
  Settings.mk (Settings.images s) (Settings.showCutMarks s) (Settings.paperType s)
    (Settings.customPaperSize s) (Settings.paperOrientation s)
    m (Settings.noGap s) (Settings.rotatePhotos s)
    (Settings.randomImageScale s).

Definition setNoGap (s : Settings.t) (b : bool) :=
  Settings.mk (Settings.images s) (Settings.showCutMarks s) (Settings.paperType s)
    (Settings.customPaperSize s) (Settings.paperOrientation s)
    (Settings.margins s) b (Settings.rotatePhotos s)
    (Settings.randomImageScale s).

Definition setRandomImageScale (s : Settings.t) (scale : Q) :=
  Settings.mk (Settings.images s) (Settings.showCutMarks s) (Settings.paperType s)
    (Settings.customPaperSize s) (Settings.paperOrientation s)
    (Settings.margins s) (Settings.noGap s) (Settings.rotatePhotos s)
    scale.

(** [images.map((image) => ...)] renders a slider for [id]. *)
Definition hasSlider (images : list ProcessedImage.t) (id : string) : bool :=
  existsb (fun img => String.eqb (ProcessedImage.id img) id) images.

(** The page bar is rendered when
    [isRandomSizeMode && paginatedLayout.length > 1]. *)
Definition pageBarShown (c : Component.t) : bool :=
  isRandomSizeMode (Component.settings c)
  && (pageCount (Component.settings c) (Component.quantities c) >? 1).

(** The handler of an event, before the effects run. *)
Definition handle (c : Component.t) (ev : Event) : Component.t :=
  let s := Component.settings c in
  let q := Component.quantities c in
  let p := Component.currentPage c in
  let withSettings s' := Component.mk s' q p in
  match ev with
  | EvImages images => withSettings (setImages s images)
  | EvRotateImage id =>
      if negb (isRandomSizeMode s)
      then withSettings (setImages s (handleRotateImage (Settings.images s) id))
      else c
  | EvToggleCutMarks =>
      if negb (isRandomSizeMode s)
      then withSettings (setShowCutMarks s (negb (Settings.showCutMarks s)))
      else c
  | EvToggleNoGap => withSettings (setNoGap s (negb (Settings.noGap s)))
  | EvPaperType paperType => withSettings (setPaperType s paperType)
  | EvCustomWidth width =>
      match Settings.paperType s with
      | PaperCustom =>
          withSettings (setCustomPaperSize s
            (Dimensions.mk width (Dimensions.height (Settings.customPaperSize s))))
      | PaperA4 => c
      end
  | EvCustomHeight height =>
      match Settings.paperType s with
      | PaperCustom =>
          withSettings (setCustomPaperSize s
            (Dimensions.mk (Dimensions.width (Settings.customPaperSize s)) height))
      | PaperA4 => c
      end
  | EvOrientation o => withSettings (setPaperOrientation s o)
  | EvMargin side numValue =>
      withSettings (setMargins s (handleMarginChange (Settings.margins s) side numValue))
  | EvScale scale =>
      if isRandomSizeMode s then withSettings (setRandomImageScale s scale) else c
  | EvQuantity id value =>
      if negb (isRandomSizeMode s) && hasSlider (Settings.images s) id
         && negb (maxPhotos s =? 0)
      then Component.mk s (handleQuantityChange s q id value) p
      else c
  | EvFillPage =>
      if negb (isRandomSizeMode s)
      then let '(s', q') := handleFillPage s q in Component.mk s' q' p
      else c
  | EvPrev =>
      if pageBarShown c && negb (p =? 1)
      then Component.mk s q (prevPage p) else c
  | EvNext =>
      if pageBarShown c && negb (p =? pageCount s q)
      then Component.mk s q (nextPage (pageCount s q) p) else c
  end.

(** Whether the handler hands React a new [images] array. *)
Definition replacesImages (c : Component.t) (ev : Event) : bool :=
  match ev with
  | EvImages _ => true
  | EvRotateImage _ => negb (isRandomSizeMode (Component.settings c))
  | _ => false
  end.

(** The effects after a render: the quantity effect runs when one of its
    dependencies changed, then the page effect sees the resulting
    pagination. *)
Definition settle (old : Component.t) (imagesReplaced : bool)
    (new : Component.t) : Component.t :=
  let s := Component.settings new in
  let depsChanged :=
    imagesReplaced
    || negb (maxPhotos s =? maxPhotos (Component.settings old))
    || negb (eqb (isRandomSizeMode s) (isRandomSizeMode (Component.settings old))) in
  let q := if depsChanged then quantitiesEffect s (Component.quantities new)
           else Component.quantities new in
  Component.mk s q (currentPageEffect (Component.currentPage new) (pageCount s q)).

Definition dispatch (c : Component.t) (ev : Event) : Component.t :=
  settle c (replacesImages c ev) (handle c ev).

(** First render: the [useState] initial values, then both effects. *)
Definition mount (images : list ProcessedImage.t) : Component.t :=
  let s := initialSettings images in
  let q := quantitiesEffect s ∅ in
  Component.mk s q (currentPageEffect 1 (pageCount s q)).

Inductive reachable : Component.t -> Prop :=
| reachable_mount images : reachable (mount images)
| reachable_dispatch c ev : reachable c -> reachable (dispatch c ev).

(** ** Sheet renderer *)

Module SheetProps.
Record t := mk {
  page : Page;
  showCutMarks : bool;
  paperDimensions : Dimensions.t;
  margins : Margins.t;
  noGap : bool
}.
End SheetProps.

(** What is drawn on a canvas: the background, one image per cell, and
    the four corner marks of a rectangle. *)
Inductive DrawOp :=
| FillRect (x y w h : Q)
| DrawImage (id : string) (rotated : bool) (destX destY w h : Q)
| StrokeCorners (x y w h markLength : Q).

(** [width] and [height] hold the numbers assigned to the canvas. *)
Module Canvas.
Record t := mk { width : Q; height : Q; drawn : list DrawOp }.
End Canvas.

Definition memoryError : string :=
  "Failed to render page due to memory constraints. Try reducing image count or quality.".

Definition loadError (img : PositionedImage.t) : string :=
  "Failed to load image: " +:+ ProcessedImage.id (PositionedImage.image img).

Section Renderer.

(** The browser: whether a data URL decodes ([onload] against
    [onerror]), whether the canvas hands out a 2D context, and what the
    DOM snapshot of [renderSheetWithHtml2Canvas] produces. *)
Variable decodes : string -> bool.
Variable has2dContext : bool.
Variable renderSheetWithHtml2Canvas : SheetProps.t -> Completion Canvas.t.

(** [Promise.all(page.map(load))]: rejects with the error of an image
    that failed; among several failures the first of the page is taken. *)
Fixpoint loadAll (page : Page) : Completion (list PositionedImage.t) :=
  match page with
  | [] => Normal []
  | img :: rest =>
      if decodes (ProcessedImage.dataUrl (PositionedImage.image img))
      then (loaded ← loadAll rest; Normal (img :: loaded))
      else Throw (loadError img)
  end.

Definition drawCell (props : SheetProps.t) (isRandomSizeMode : bool)
    (marginX marginY markPaddingPx : Q) (imgData : PositionedImage.t)
  : list DrawOp :=
  let imgContainerX := (marginX + PositionedImage.x imgData)%Q in
  let imgContainerY := (marginY + PositionedImage.y imgData)%Q in
  let size := ProcessedImage.size (PositionedImage.image imgData) in
  let imgWidthPx :=
    if isRandomSizeMode
    then (PositionedImage.renderWidth imgData - markPaddingPx * 2)%Q
    else mmToPx (PassportSize.width_mm size) in
  let imgHeightPx :=
    if isRandomSizeMode
    then (PositionedImage.renderHeight imgData - markPaddingPx * 2)%Q
    else mmToPx (PassportSize.height_mm size) in
  let destX :=
    (imgContainerX + (PositionedImage.renderWidth imgData - imgWidthPx) / 2)%Q in
  let destY :=
    (imgContainerY + (PositionedImage.renderHeight imgData - imgHeightPx) / 2)%Q in
  let rotated :=
    match ProcessedImage.rotation (PositionedImage.image imgData) with
    | Rot90 => true
    | Rot0 => false
    end in
  DrawImage (ProcessedImage.id (PositionedImage.image imgData)) rotated
            destX destY imgWidthPx imgHeightPx
  :: (if SheetProps.showCutMarks props && negb isRandomSizeMode then
        if SheetProps.noGap props
        then [StrokeCorners imgContainerX imgContainerY
                (PositionedImage.renderWidth imgData)
                (PositionedImage.renderHeight imgData) MARK_LENGTH_PX]
        else [StrokeCorners destX destY imgWidthPx imgHeightPx MARK_LENGTH_PX]
      else []).

Definition renderSheetDirectlyToCanvas (props : SheetProps.t)
  : Completion Canvas.t :=
  let paperWidthPx := mmToPx (Dimensions.width (SheetProps.paperDimensions props)) in
  let paperHeightPx := mmToPx (Dimensions.height (SheetProps.paperDimensions props)) in
  if negb has2dContext then Throw "Failed to get 2D context from canvas." else
  let background := FillRect 0 0 paperWidthPx paperHeightPx in
  imageElements ← loadAll (SheetProps.page props);
  let marginX := mmToPx (Margins.left (SheetProps.margins props)) in
  let marginY := mmToPx (Margins.top (SheetProps.margins props)) in
  let isRandomSizeMode :=
    match SheetProps.page props with
    | first :: _ =>
        isRandomSizeName
          (PassportSize.name (ProcessedImage.size (PositionedImage.image first)))
    | [] => false
    end in
  let markPaddingPx :=
    mmToPx (if SheetProps.showCutMarks props && negb (SheetProps.noGap props)
            then MARK_PADDING_PX else 0%Q) in
  Normal (Canvas.mk paperWidthPx paperHeightPx
            (background ::
             concat (map (drawCell props isRandomSizeMode marginX marginY
                                   markPaddingPx)
                         imageElements))).

(** Smart renderer with fallback. *)
Definition renderPageToCanvas (sheetProps : SheetProps.t) : Completion Canvas.t :=
  tryCatch (renderSheetDirectlyToCanvas sheetProps) (fun error =>
    tryCatch (renderSheetWithHtml2Canvas sheetProps) (fun fallbackError =>
      Throw memoryError)).

Definition sheetPropsOf (s : Settings.t) (page : Page) : SheetProps.t :=
  SheetProps.mk page (Settings.showCutMarks s) (paperDimensions s)
                (Settings.margins s) (Settings.noGap s).

(** [generatePdf]: the rendered pages in order, [None] for [null].  Here
    every call into jsPDF and [canvas.toDataURL] returns; module
    [Library] has the same function with those calls able to throw. *)
Fixpoint renderPages (s : Settings.t) (pages : list Page)
  : Completion (list Canvas.t) :=
  match pages with
  | [] => Normal []
  | page :: rest =>
      canvas ← renderPageToCanvas (sheetPropsOf s page);
      canvases ← renderPages s rest;
      Normal (canvas :: canvases)
  end.

Definition generatePdf (s : Settings.t) (pages : list Page)
  : Completion (option (list Canvas.t)) :=
  if (length pages =? 0)%nat then Normal None
  else (canvases ← renderPages s pages; Normal (Some canvases)).

End Renderer.

(** ** Vocabulary of the properties and sample data *)

(** The capacity that the calculator reports for one photo orientation. *)
Definition capacityFor (rotated : bool) (li : LayoutInfo.t) : Z :=
  if rotated then LayoutInfo.landscape li else LayoutInfo.portrait li.

Definition indiaPassport : PassportSize.t :=
  PassportSize.mk "India Passport (35x45 mm)" 35 45.

Definition samplePhoto (id : string) : ProcessedImage.t :=
  ProcessedImage.mk id "data:image/png;base64,AAAA" indiaPassport 413 531 Rot0.

(** A4, 10 mm margins, one 35x45 mm photo, cut marks on, 2 mm gap. *)
Definition cutMarkSheet : Settings.t :=
  setShowCutMarks (initialSettings [samplePhoto "1700000000001"]) true.

(** What the standard branch of the packer computes for the sheet. *)
Definition packerGrid (s : Settings.t) (size : PassportSize.t) : Grid.t :=
  standardGrid s size (mmToPx (printableWidthMm s)) (mmToPx (printableHeightMm s))
               (mmToPx (gapMm (Settings.noGap s))).

(** A4 with 110 mm left and right margins: printable width -10 mm. *)
Definition wideMarginSheet : Settings.t :=
  setMargins (initialSettings [samplePhoto "1700000000001"])
             (Margins.mk 10 110 10 110).

Definition ids (images : list ProcessedImage.t) : list string :=
  map ProcessedImage.id images.

(** The sum of the shares handed out by the loop. *)
Fixpoint sharesSum (base r : Z) (n : nat) : Z :=
  match n with
  | O => 0
  | S n => (base + (if r >? 0 then 1 else 0)) + sharesSum base (r - 1) n
  end.

(** The sum of the counts of all entries but the one of [id], as
    [handleQuantityChange] computes it. *)
Definition totalWithout (quantities : Quantities) (id : string) : Z :=
  foldl (fun sum entry => sum + entry.2) 0
        (filter (fun entry : string * Z => entry.1 <> id)
                (objectEntries quantities)).

(** [quantities] gives the image at position [k] exactly
    [floor(total / n)] copies, plus one when [k < total mod n], and has
    no other keys. *)
Definition evenShare (images : list ProcessedImage.t) (total : Z)
    (quantities : Quantities) : Prop :=
  let n := Z.of_nat (length images) in
  totalCount quantities = total
  /\ (forall (k : nat) img, images !! k = Some img ->
        quantities !! ProcessedImage.id img
        = Some (total / n + (if Z.of_nat k <? total mod n then 1 else 0)))
  /\ (forall id, id ∉ ids images -> quantities !! id = None).

(** All counts of the map are non-negative. *)
Definition countsNonneg (quantities : Quantities) : Prop :=
  forall id v, quantities !! id = Some v -> 0 <= v.

(** Three 35x45 mm photos on the default A4 sheet. *)
Definition threePhotoSheet : Settings.t :=
  initialSettings [samplePhoto "1700000000001"; samplePhoto "1700000000002";
                   samplePhoto "1700000000003"].

(** The quantity map fits the sheet: the counts are non-negative, sum to
    at most the capacity, and belong to images of the list. *)
Definition quantitiesFit (s : Settings.t) (quantities : Quantities) : Prop :=
  totalCount quantities <= maxPhotos s
  /\ countsNonneg quantities
  /\ (forall id v, quantities !! id = Some v -> id ∈ ids (Settings.images s)).

Definition standardInvariant (c : Component.t) : Prop :=
  isRandomSizeMode (Component.settings c) = false ->
  quantitiesFit (Component.settings c) (Component.quantities c).

Definition pageInvariant (c : Component.t) : Prop :=
  1 <= Component.currentPage c
  /\ Component.currentPage c
     <= Z.max 1 (pageCount (Component.settings c) (Component.quantities c)).

(** Six 4000x1000 px images in random-size mode: one per row, five rows
    per A4 page. *)
Definition randomSize : PassportSize.t := PassportSize.mk "Random Size" (-1) (-1).

Definition panorama (id : string) : ProcessedImage.t :=
  ProcessedImage.mk id "data:image/png;base64,BBBB" randomSize 4000 1000 Rot0.

Definition panoramas : list ProcessedImage.t :=
  [panorama "1700000000001"; panorama "1700000000002"; panorama "1700000000003";
   panorama "1700000000004"; panorama "1700000000005"; panorama "1700000000006"].

(** The number of copies that the expansion emits for a list of keys. *)
Definition copies (quantities : Quantities) (keys : list string) : nat :=
  sum_list_with (fun a => Z.to_nat (quantityOf quantities a)) keys.

(** All three sliders of [threePhotoSheet] moved to 0. *)
Definition allZero : Component.t :=
  dispatch (dispatch (dispatch (mount (Settings.images threePhotoSheet))
                               (EvQuantity "1700000000001" 0))
                     (EvQuantity "1700000000002" 0))
           (EvQuantity "1700000000003" 0).

(** The target cell height of the random-size branch. *)
Definition targetHeightPx (s : Settings.t) : Q :=
  (Qmin (mmToPx 45) (mmToPx (printableHeightMm s)) * Settings.randomImageScale s)%Q.

(** An instance carries the footprint of its image and, unless it is
    taller than the printable height itself, ends within it. *)
Definition fitsHeight (TARGET_HEIGHT_PX printableHeightPx : Q)
    (inst : PositionedImage.t) : Prop :=
  PositionedImage.renderHeight inst
  = (scaledSize TARGET_HEIGHT_PX (PositionedImage.image inst)).2
  /\ ((PositionedImage.renderHeight inst <= printableHeightPx)%Q ->
      (PositionedImage.y inst + PositionedImage.renderHeight inst
       <= printableHeightPx)%Q).

Definition squareImage (id : string) : ProcessedImage.t :=
  ProcessedImage.mk id "data:image/png;base64,CCCC" randomSize 1000 1000 Rot0.

(** One square random-size image; custom 100x150 mm paper turned to
    landscape (printable height 80 mm); images scaled by 2. *)
Definition scaledUp : Component.t :=
  dispatch (dispatch (dispatch (mount [squareImage "1700000000001"])
                               (EvPaperType PaperCustom))
                     (EvOrientation OrientLandscape))
           (EvScale 2).

(** [round(mm / 25.4 * dpi)], the contract that the specification states
    for the unit converter; [round] is [Math.round], which rounds half
    up. *)
Definition roundedPixels (mm dpi : Q) : Z :=
  Qfloor (mm / 25.4 * dpi + (1 # 2))%Q.

(** A page with one 35x45 mm photo at the origin of the printable area. *)
Definition onePhotoProps : SheetProps.t :=
  SheetProps.mk
    [PositionedImage.mk (samplePhoto "1700000000001") 0 0 (mmToPx 35) (mmToPx 45)]
    false A4_DIMENSIONS_MM (Margins.mk 10 10 10 10) false.

(** A DOM snapshot that shows the paper and none of the images. *)
Definition blankSnapshot (props : SheetProps.t) : Completion Canvas.t :=
  Normal (Canvas.mk (mmToPx (Dimensions.width (SheetProps.paperDimensions props)))
                    (mmToPx (Dimensions.height (SheetProps.paperDimensions props)))
                    []).

Definition failingSnapshot (props : SheetProps.t) : Completion Canvas.t :=
  Throw "Could not find #print-area element for capturing.".

(** The same page on A4 in landscape: the paper is 297 mm wide. *)
Definition landscapeProps : SheetProps.t :=
  SheetProps.mk (SheetProps.page onePhotoProps) false (Dimensions.mk 297 210)
                (Margins.mk 10 10 10 10) false.

(** The page that the loop pushes to exists and is the last one. *)
Definition lastPageReady (st : Packing.t) : Prop :=
  length (Packing.pages st) = S (Packing.pageIndex st).

(** What the expansion emits for one key. *)
Definition emit (images : list ProcessedImage.t) (quantities : Quantities)
    (a : string) : list ProcessedImage.t :=
  match find images a with
  | Some image => replicate (Z.to_nat (quantityOf quantities a)) image
  | None => []
  end.

(** ** Double-precision cross-check

    The unit converter and the quotient under [Math.floor], written over
    IEEE-754 binary64 numbers as JavaScript evaluates them.  They serve
    to run the concrete scenarios once more in the arithmetic of the
    browser. *)
Module Binary64.

(** 25.4 is not a binary64 number; this is the double that the literal
    denotes. *)
Definition inchMm : PrimFloat.float := 0x1.9666666666666p+4%float.

Definition DPI : PrimFloat.float := 300%float.

Definition mmToPx (mm : PrimFloat.float) : PrimFloat.float :=
  PrimFloat.mul (PrimFloat.div mm inchMm) DPI.

Definition MARK_PADDING_PX : PrimFloat.float := 2%float.

(** [(MARK_PADDING_PX / DPI) * 25.4] *)
Definition markPaddingMm : PrimFloat.float :=
  PrimFloat.mul (PrimFloat.div MARK_PADDING_PX DPI) inchMm.

(** [paper - marginA - marginB] *)
Definition printable (paper marginA marginB : PrimFloat.float) : PrimFloat.float :=
  PrimFloat.sub (PrimFloat.sub paper marginA) marginB.

(** [mmToPx(photo) + markPaddingPx * 2] *)
Definition cell (photoMm markPaddingPx : PrimFloat.float) : PrimFloat.float :=
  PrimFloat.add (mmToPx photoMm) (PrimFloat.mul markPaddingPx 2%float).

(** [(printablePx + gapPx) / (total + gapPx)], the argument of
    [Math.floor]. *)
Definition quotient (printablePx gapPx total : PrimFloat.float) : PrimFloat.float :=
  PrimFloat.div (PrimFloat.add printablePx gapPx) (PrimFloat.add total gapPx).

(** [Math.floor(q) === n], for an integer [n]: [n <= q < n + 1]. *)
Definition floorIs (q n : PrimFloat.float) : bool :=
  PrimFloat.leb n q && PrimFloat.ltb q (PrimFloat.add n 1%float).

(** [Math.floor] of a finite double as an integer; [None] for [NaN] and
    the infinities. *)
Definition floor (x : PrimFloat.float) : option Z :=
  match Prim2SF x with
  | S754_zero _ => Some 0
  | S754_finite negative m e =>
      let mantissa := if negative then Z.neg m else Z.pos m in
      Some (if 0 <=? e then mantissa * 2 ^ e else mantissa / 2 ^ (- e))
  | S754_infinity _ | S754_nan => None
  end.

(** [total > 0 ? Math.floor((printable + gap) / (total + gap)) : 0] *)
Definition cellsAlong (printablePx gapPx total : PrimFloat.float) : option Z :=
  if PrimFloat.ltb 0%float total
  then floor (quotient printablePx gapPx total)
  else Some 0.

(** [calculateLayoutInfo] for a photo of a fixed size, as the browser
    evaluates it. *)
Definition calculateLayoutInfo
    (paperWidthMm paperHeightMm width_mm height_mm : PrimFloat.float)
    (top right bottom left : PrimFloat.float)
    (showCutMarks noGap : bool) : option LayoutInfo.t :=
  let printableWidthMm := printable paperWidthMm left right in
  let printableHeightMm := printable paperHeightMm top bottom in
  if PrimFloat.leb printableWidthMm 0%float
     || PrimFloat.leb printableHeightMm 0%float
  then Some noLayout else
  let gapMm := if noGap then 0%float else 2%float in
  let markPaddingMm :=
    if showCutMarks && negb noGap then markPaddingMm else 0%float in
  let printableWidthPx := mmToPx printableWidthMm in
  let printableHeightPx := mmToPx printableHeightMm in
  let gapPx := mmToPx gapMm in
  let markPaddingPx := mmToPx markPaddingMm in
  cols_P ← cellsAlong printableWidthPx gapPx (cell width_mm markPaddingPx);
  rows_P ← cellsAlong printableHeightPx gapPx (cell height_mm markPaddingPx);
  cols_L ← cellsAlong printableWidthPx gapPx (cell height_mm markPaddingPx);
  rows_L ← cellsAlong printableHeightPx gapPx (cell width_mm markPaddingPx);
  let portraitMax := cols_P * rows_P in
  let landscapeMax := cols_L * rows_L in
  Some (LayoutInfo.mk portraitMax landscapeMax (Z.max portraitMax landscapeMax)
                      (landscapeMax >? portraitMax)).

(** [itemsPerPage] of the standard branch of [paginatedLayout], as the
    browser evaluates it. *)
Definition itemsPerPage
    (paperWidthMm paperHeightMm width_mm height_mm : PrimFloat.float)
    (top right bottom left : PrimFloat.float)
    (showCutMarks noGap rotatePhotos : bool) : option Z :=
  let printableWidthPx := mmToPx (printable paperWidthMm left right) in
  let printableHeightPx := mmToPx (printable paperHeightMm top bottom) in
  let gapPx := mmToPx (if noGap then 0%float else 2%float) in
  let markPaddingPx :=
    mmToPx (if showCutMarks && negb noGap then MARK_PADDING_PX else 0%float) in
  let photoW := if rotatePhotos then height_mm else width_mm in
  let photoH := if rotatePhotos then width_mm else height_mm in
  cols ← cellsAlong printableWidthPx gapPx (cell photoW markPaddingPx);
  rows ← cellsAlong printableHeightPx gapPx (cell photoH markPaddingPx);
  Some (cols * rows).

End Binary64.

(** ** Geometry of placed instances *)

(** Two instances are at least [gapPx] apart on one axis.  The sums are
    taken as the packer takes them when it advances the cursor,
    [cursor.x += scaledWidth + gapPx] and [cursor.y += rowHeight + gapPx]:
    the position plus the sum of size and gap. *)
Definition separated (gapPx : Q) (a b : PositionedImage.t) : Prop :=
  (PositionedImage.x a + (PositionedImage.renderWidth a + gapPx)
   <= PositionedImage.x b)%Q
  \/ (PositionedImage.x b + (PositionedImage.renderWidth b + gapPx)
      <= PositionedImage.x a)%Q
  \/ (PositionedImage.y a + (PositionedImage.renderHeight a + gapPx)
      <= PositionedImage.y b)%Q
  \/ (PositionedImage.y b + (PositionedImage.renderHeight b + gapPx)
      <= PositionedImage.y a)%Q.

Definition pairwiseSeparated (gapPx : Q) (page : Page) : Prop :=
  forall (i j : nat) a b,
    page !! i = Some a -> page !! j = Some b -> i <> j -> separated gapPx a b.

(** The images of the placed instances, page after page. *)
Definition placedImages (pages : list Page) : list ProcessedImage.t :=
  map PositionedImage.image (concat pages).

(** The natural dimensions of a decoded image. *)
Definition naturalSize (img : ProcessedImage.t) : Prop :=
  (0 < ProcessedImage.width_px img)%Q /\ (0 < ProcessedImage.height_px img)%Q.

(** The instance that the random-size loop pushes in state [st]. *)
Definition instanceAt (st : Packing.t) (img : ProcessedImage.t) (w h : Q)
  : PositionedImage.t :=
  PositionedImage.mk img (Packing.cursor_x st) (Packing.cursor_y st) w h.

(** Where an instance of the current page lies relative to the cursor:
    in a finished row above it, or in the current row to its left. *)
Definition behindCursor (gapPx : Q) (st : Packing.t) (a : PositionedImage.t)
  : Prop :=
  (PositionedImage.y a + (PositionedImage.renderHeight a + gapPx)
   <= Packing.cursor_y st)%Q
  \/ ((PositionedImage.y a == Packing.cursor_y st)%Q
      /\ (PositionedImage.x a + (PositionedImage.renderWidth a + gapPx)
          <= Packing.cursor_x st)%Q
      /\ (PositionedImage.renderHeight a <= Packing.rowHeight st)%Q).

(** An instance starts a row or ends within the printable width. *)
Definition wrapsWithin (W : Q) (a : PositionedImage.t) : Prop :=
  (0 <= PositionedImage.x a)%Q /\ (0 <= PositionedImage.y a)%Q
  /\ ((PositionedImage.x a == 0)%Q
      \/ (PositionedImage.x a + PositionedImage.renderWidth a <= W)%Q).

(** What the random-size loop keeps true between two images. *)
Definition packingInvariant (W gapPx : Q) (st : Packing.t) : Prop :=
  (0 <= Packing.cursor_x st)%Q /\ (0 <= Packing.cursor_y st)%Q
  /\ (0 <= Packing.rowHeight st)%Q
  /\ Forall (Forall (wrapsWithin W)) (Packing.pages st)
  /\ Forall (pairwiseSeparated gapPx) (Packing.pages st)
  /\ exists init cur,
       Packing.pages st = init ++ [cur]
       /\ Packing.pageIndex st = length init
       /\ Forall (behindCursor gapPx st) cur.

(** All four margins are non-negative. *)
Definition marginsNonneg (m : Margins.t) : Prop :=
  (0 <= Margins.top m)%Q /\ (0 <= Margins.right m)%Q
  /\ (0 <= Margins.bottom m)%Q /\ (0 <= Margins.left m)%Q.


(** The [max] attribute of the quantity slider of image [id]:
    [maxPhotos > 0 ? (quantities[id] || 0) + (maxPhotos - totalCount) : 0]. *)
Definition sliderMax (s : Settings.t) (quantities : Quantities) (id : string) : Z :=
  if maxPhotos s >? 0
  then quantityOf quantities id + (maxPhotos s - totalCount quantities)
  else 0.

(** ** Export and print *)

Inductive ExportFormat := FormatPdf | FormatPng.

(** What an export or print action ends with. *)
Inductive Outcome :=
| NothingDone
| SavedPdf (sheets : list Canvas.t)
| DownloadedPng (pageNumber : Z) (canvas : Canvas.t)
| OpenedForPrint (sheets : list Canvas.t)
| Alerted (message : string).

Definition exportAlert : string :=
  "Export failed due to memory constraints. Try with fewer images or lower quality settings.".

Definition printAlert : string := "Error preparing file for printing.".

(** [paginatedLayout[currentPage - 1]] *)
Definition pageAt (pages : list Page) (currentPage : Z) : option Page :=
  if currentPage - 1 <? 0 then None else pages !! Z.to_nat (currentPage - 1).


Section ExportActions.

Variable decodes : string -> bool.
Variable has2dContext : bool.
Variable renderSheetWithHtml2Canvas : SheetProps.t -> Completion Canvas.t.

(** [handleExport]: [jspdfLoaded] is [typeof jspdf !== "undefined"].
    Here every call into jsPDF and the DOM that follows a rendering
    returns; module [Library] has the same function with those calls
    able to throw. *)
Definition handleExport (isExporting jspdfLoaded : bool) (s : Settings.t)
    (pages : list Page) (currentPage : Z) (format : ExportFormat) : Outcome :=
  if isExporting
     || (match format with FormatPdf => true | FormatPng => false end
         && negb jspdfLoaded)
  then NothingDone else
  let body : Completion Outcome :=
    match format with
    | FormatPdf =>
        pdf ← generatePdf decodes has2dContext renderSheetWithHtml2Canvas s pages;
        Normal (match pdf with
                | Some sheets => SavedPdf sheets
                | None => NothingDone
                end)
    | FormatPng =>
        match pageAt pages currentPage with
        | Some page =>
            canvas ← renderPageToCanvas decodes has2dContext
                       renderSheetWithHtml2Canvas (sheetPropsOf s page);
            Normal (DownloadedPng currentPage canvas)
        | None => Normal NothingDone
        end
    end in
  match body with
  | Normal outcome => outcome
  | Throw e => Alerted exportAlert
  end.

End ExportActions.

(** The three-photo sheet after "optimize and fill page". *)
Definition filledSheet : Component.t :=
  dispatch (Component.mk threePhotoSheet ∅ 1) EvFillPage.

(** ** Calls into jsPDF and the DOM

    [generatePdf], [handlePrint] and [handleExport] call into jsPDF and
    the DOM around the rendering, and each of these calls can throw
    inside the same [try].  The libraries are not part of the
    repository: what a call does is a parameter. *)

Module Library.

Inductive Call :=
| NewJsPDF (landscape : bool) (format : Dimensions.t)
| AddPage (index : nat)
| ToDataURL (canvas : Canvas.t)
| AddImage (index : nat) (canvas : Canvas.t) (width height : Q)
| Save (fileName : string)
| AutoPrint
| OutputBlob
| OpenWindow
| ClickLink (pageNumber : Z) (canvas : Canvas.t).

Section Actions.

Variable decodes : string -> bool.
Variable has2dContext : bool.
Variable renderSheetWithHtml2Canvas : SheetProps.t -> Completion Canvas.t.

(** Whether a call returns or throws. *)
Variable call : Call -> Completion unit.

(** The loop of [generatePdf], from page index [i] on:
    [if (i > 0) pdf.addPage()], the rendering, and
    [pdf.addImage(canvas.toDataURL("image/png"), ...)]. *)
Fixpoint addPages (s : Settings.t) (i : nat) (pages : list Page)
  : Completion (list Canvas.t) :=
  match pages with
  | [] => Normal []
  | page :: rest =>
      _ ← (if (0 <? i)%nat then call (AddPage i) else Normal tt);
      canvas ← renderPageToCanvas decodes has2dContext renderSheetWithHtml2Canvas
                 (sheetPropsOf s page);
      _ ← call (ToDataURL canvas);
      _ ← call (AddImage i canvas (Dimensions.width (paperDimensions s))
                         (Dimensions.height (paperDimensions s)));
      sheets ← addPages s (S i) rest;
      Normal (canvas :: sheets)
  end.

(** [generatePdf]: the sheets added to the document, [None] for [null]. *)
Definition generatePdf (s : Settings.t) (pages : list Page)
  : Completion (option (list Canvas.t)) :=
  if (length pages =? 0)%nat then Normal None else
  _ ← call (NewJsPDF (Qgtb (Dimensions.width (paperDimensions s))
                           (Dimensions.height (paperDimensions s)))
                     (paperDimensions s));
  sheets ← addPages s 0 pages;
  Normal (Some sheets).

Definition handlePrint (isExporting jspdfLoaded : bool) (s : Settings.t)
    (pages : list Page) : Outcome :=
  if isExporting || negb jspdfLoaded then NothingDone else
  let body : Completion Outcome :=
    pdf ← generatePdf s pages;
    match pdf with
    | None => Normal NothingDone
    | Some sheets =>
        _ ← call AutoPrint;
        _ ← call OutputBlob;
        _ ← call OpenWindow;
        Normal (OpenedForPrint sheets)
    end in
  match body with
  | Normal outcome => outcome
  | Throw e => Alerted printAlert
  end.

Definition handleExport (isExporting jspdfLoaded : bool) (s : Settings.t)
    (pages : list Page) (currentPage : Z) (format : ExportFormat) : Outcome :=
  if isExporting
     || (match format with FormatPdf => true | FormatPng => false end
         && negb jspdfLoaded)
  then NothingDone else
  let body : Completion Outcome :=
    match format with
    | FormatPdf =>
        pdf ← generatePdf s pages;
        match pdf with
        | Some sheets =>
            _ ← call (Save "passport-photos.pdf");
            Normal (SavedPdf sheets)
        | None => Normal NothingDone
        end
    | FormatPng =>
        match pageAt pages currentPage with
        | Some page =>
            canvas ← renderPageToCanvas decodes has2dContext
                       renderSheetWithHtml2Canvas (sheetPropsOf s page);
            _ ← call (ToDataURL canvas);
            _ ← call (ClickLink currentPage canvas);
            Normal (DownloadedPng currentPage canvas)
        | None => Normal NothingDone
        end
    end in
  match body with
  | Normal outcome => outcome
  | Throw e => Alerted exportAlert
  end.

End Actions.

End Library.

(** ** Further sample data *)

Definition stampSize : PassportSize.t :=
  PassportSize.mk "Stamp Size (20x25 mm)" 20 25.

(** A4 with a 13 mm left margin: the printable width is 187 mm, which
    seven 25 mm cells and six 2 mm gaps fill exactly. *)
Definition exactFitMargins : Margins.t := Margins.mk 10 10 10 13.

(** * Properties *)

(** ** Comparisons *)

Lemma Qleb_true a b : Qleb a b = true <-> (a <= b)%Q.
Proof. unfold Qleb. apply Qle_bool_iff. Qed.

Lemma Qleb_false a b : Qleb a b = false <-> (b < a)%Q.
Proof.
  unfold Qleb. split; intros H.
  - apply Qnot_le_lt. intros Hle. apply Qle_bool_iff in Hle. congruence.
  - destruct (Qle_bool a b) eqn:E; [|reflexivity].
    apply Qle_bool_iff in E. exfalso. revert E. apply Qlt_not_le, H.
Qed.

Lemma Qgtb_true a b : Qgtb a b = true <-> (b < a)%Q.
Proof. unfold Qgtb. rewrite negb_true_iff. apply Qleb_false. Qed.

Lemma Qgtb_false a b : Qgtb a b = false <-> (a <= b)%Q.
Proof. unfold Qgtb. rewrite negb_false_iff. apply Qleb_true. Qed.

(** ** Unit converter *)

Lemma mmToPx_linear a : (mmToPx a == a * (1500 # 127))%Q.
Proof. unfold mmToPx, DPI. field. Qed.

Lemma mmToPx_pos a : (0 < a)%Q -> (0 < mmToPx a)%Q.
Proof. intros H. rewrite mmToPx_linear. lra. Qed.

Lemma mmToPx_nonneg a : (0 <= a)%Q -> (0 <= mmToPx a)%Q.
Proof. intros H. rewrite mmToPx_linear. lra. Qed.

Lemma mmToPx_le0 a : Qleb (mmToPx a) 0 = Qleb a 0.
Proof.
  destruct (Qleb a 0) eqn:E.
  - apply Qleb_true in E. apply Qleb_true. rewrite mmToPx_linear. lra.
  - apply Qleb_false in E. apply Qleb_false. rewrite mmToPx_linear. lra.
Qed.

Lemma mmToPx_ratio a b c d :
  (0 < c + d)%Q ->
  ((mmToPx a + mmToPx b) / (mmToPx c + mmToPx d) == (a + b) / (c + d))%Q.
Proof. intros H. rewrite !mmToPx_linear. field. lra. Qed.

Lemma gapMm_nonneg noGap : (0 <= gapMm noGap)%Q.
Proof. destruct noGap; simpl; lra. Qed.


(** ** Layout calculator *)

Lemma cellsAlong_nonneg printablePx gapPx total :
  (0 <= printablePx)%Q -> (0 <= gapPx)%Q -> 0 <= cellsAlong printablePx gapPx total.
Proof.
  intros HW Hg. unfold cellsAlong.
  destruct (Qgtb total 0) eqn:E; [|lia].
  apply Qgtb_true in E.
  change 0 with (Qfloor 0). apply Qfloor_resp_le.
  apply Qle_shift_div_l; lra.
Qed.

Lemma cellsAlong_pos printablePx gapPx total :
  (0 < total)%Q -> (total <= printablePx)%Q -> (0 <= gapPx)%Q ->
  0 < cellsAlong printablePx gapPx total.
Proof.
  intros Ht Hfit Hg. unfold cellsAlong.
  rewrite (proj2 (Qgtb_true _ _) Ht).
  apply Z.lt_le_trans with (Qfloor 1); [reflexivity|].
  apply Qfloor_resp_le. apply Qle_shift_div_l; lra.
Qed.

(** In exact arithmetic the pixel quotient is the millimetre quotient:
    the factor [DPI / 25.4] cancels. *)
Lemma cellsAlong_mm printableMm gapMm photoMm padMm :
  (0 < photoMm + padMm * 2)%Q -> (0 <= gapMm)%Q ->
  cellsAlong (mmToPx printableMm) (mmToPx gapMm) (mmToPx photoMm + mmToPx padMm * 2)
  = Qfloor ((printableMm + gapMm) / ((photoMm + padMm * 2) + gapMm)).
Proof.
  intros Hc Hg. unfold cellsAlong.
  assert (Hpx : (0 < mmToPx photoMm + mmToPx padMm * 2)%Q)
    by (rewrite !mmToPx_linear; lra).
  rewrite (proj2 (Qgtb_true _ _) Hpx).
  apply Qfloor_comp. rewrite !mmToPx_linear. field. lra.
Qed.

Lemma calculateLayoutInfo_unfold paperW paperH size m showCutMarks noGap :
  isRandomSizeName (PassportSize.name size) = false ->
  (0 < paperW - Margins.left m - Margins.right m)%Q ->
  (0 < paperH - Margins.top m - Margins.bottom m)%Q ->
  let W := mmToPx (paperW - Margins.left m - Margins.right m) in
  let H := mmToPx (paperH - Margins.top m - Margins.bottom m) in
  let g := mmToPx (gapMm noGap) in
  let pad := mmToPx (markPaddingMm showCutMarks noGap) in
  let w := (mmToPx (PassportSize.width_mm size) + pad * 2)%Q in
  let h := (mmToPx (PassportSize.height_mm size) + pad * 2)%Q in
  let portraitMax := cellsAlong W g w * cellsAlong H g h in
  let landscapeMax := cellsAlong W g h * cellsAlong H g w in
  calculateLayoutInfo paperW paperH (Some size) m showCutMarks noGap
  = LayoutInfo.mk portraitMax landscapeMax (Z.max portraitMax landscapeMax)
                  (landscapeMax >? portraitMax).
Proof.
  intros Hname HW HH. simpl. unfold calculateLayoutInfo. rewrite Hname.
  apply Qleb_false in HW as ->. apply Qleb_false in HH as ->. reflexivity.
Qed.

Lemma calculateLayoutInfo_nonneg paperW paperH photoSize m showCutMarks noGap :
  let li := calculateLayoutInfo paperW paperH photoSize m showCutMarks noGap in
  0 <= LayoutInfo.portrait li /\ 0 <= LayoutInfo.landscape li
  /\ 0 <= LayoutInfo.max li.
Proof.
  simpl. unfold calculateLayoutInfo.
  destruct photoSize as [size|]; [|simpl; lia].
  destruct (isRandomSizeName _); [simpl; lia|].
  destruct (Qleb _ 0) eqn:EW; [simpl; lia|].
  destruct (Qleb (paperH - _ - _) 0) eqn:EH; [simpl; lia|].
  apply Qleb_false in EW, EH. simpl.
  assert (HW := mmToPx_pos _ EW). assert (HH := mmToPx_pos _ EH).
  assert (Hg := mmToPx_nonneg _ (gapMm_nonneg noGap)).
  repeat split; try apply Z.max_le_iff; try left; apply Z.mul_nonneg_nonneg;
    apply cellsAlong_nonneg; lra.
Qed.
(** C3, at the failing input.  A4 with margins left 13 mm and right
    10 mm leaves a printable width of 187 mm, which seven 25 mm cells and
    six 2 mm gaps fill exactly: the claim's formula gives
    [floor((187 + 2) / (25 + 2)) = 7] columns for the turned 20x25 mm
    stamp photo, 12 rows and a capacity of 84, and so does the
    calculator in exact arithmetic.  The code divides pixel lengths that
    it has converted by [(mm / 25.4) * 300]: in binary64 the quotient is
    just below 7, [Math.floor] gives 6, and the calculator reports 72
    for the turned photo, [max = 80] and [rotateForMax = false].  On the
    spec's A4 scenario binary64 and exact arithmetic agree on
    5 x 5 = 25. *)
Theorem C3_exact_fit_loses_a_column :
  let printablePx := Binary64.mmToPx (Binary64.printable 210 13 10) in
  let gapPx := Binary64.mmToPx 2 in
  let cellPx := Binary64.cell 25 (Binary64.mmToPx 0) in
  (210 - 13 - 10 == 7 * 25 + 6 * 2)%Q
  /\ Qfloor ((210 - 13 - 10 + 2) / (25 + 2)) = 7
  /\ Qfloor ((297 - 10 - 10 + 2) / (20 + 2)) = 12
  /\ calculateLayoutInfo 210 297 (Some stampSize) exactFitMargins false false
     = LayoutInfo.mk 80 84 84 true
  /\ PrimFloat.ltb (Binary64.quotient printablePx gapPx cellPx) 7 = true
  /\ Binary64.cellsAlong printablePx gapPx cellPx = Some 6
  /\ Binary64.calculateLayoutInfo 210 297 20 25 10 10 10 13 false false
     = Some (LayoutInfo.mk 80 72 80 false)
  /\ Binary64.calculateLayoutInfo 210 297 35 45 10 10 10 10 false false
     = Some (LayoutInfo.mk 25 28 28 true)
  /\ calculateLayoutInfo 210 297 (Some indiaPassport) (Margins.mk 10 10 10 10)
       false false
     = LayoutInfo.mk 25 28 28 true.
Proof.
  cbv zeta. split; [reflexivity|].
  repeat (split; [vm_compute; reflexivity|]). vm_compute. reflexivity.
Qed.

(** ** Packer against calculator *)

(** Without cut-mark padding the grid of the packer is the grid of the
    calculator for the chosen photo orientation. *)
Lemma packerGrid_matches_calculator_without_padding s size :
  passportSize s = Some size ->
  isRandomSizeName (PassportSize.name size) = false ->
  (0 < printableWidthMm s)%Q -> (0 < printableHeightMm s)%Q ->
  Settings.showCutMarks s && negb (Settings.noGap s) = false ->
  let g := packerGrid s size in
  Grid.cols g * Grid.rows g = capacityFor (Settings.rotatePhotos s) (layoutInfo s)
  /\ Grid.totalWidth g
     = (mmToPx (if Settings.rotatePhotos s then PassportSize.height_mm size
                else PassportSize.width_mm size) + mmToPx 0 * 2)%Q
  /\ Grid.totalHeight g
     = (mmToPx (if Settings.rotatePhotos s then PassportSize.width_mm size
                else PassportSize.height_mm size) + mmToPx 0 * 2)%Q.
Proof.
  intros Hsize Hname HW HH Hpad. simpl.
  unfold layoutInfo. rewrite Hsize.
  rewrite calculateLayoutInfo_unfold by assumption.
  unfold packerGrid, standardGrid, markPaddingMm, printableWidthMm,
    printableHeightMm. rewrite Hpad. simpl.
  destruct (Settings.rotatePhotos s); simpl; auto.
Qed.

(** C1, at the failing input.  With cut marks shown and the gap kept, the
    calculator pads a cell by 2 px on each side (it converts
    [MARK_PADDING_PX] to millimetres first) while the packer pads it by
    [mmToPx(MARK_PADDING_PX)], about 23.6 px: for one 35x45 mm photo on A4
    with 10 mm margins the calculator counts 5 x 5 = 25 cells and the
    packer lays out 4 x 5 = 20 wider cells, in exact arithmetic and in
    binary64 arithmetic alike; of 25 requested copies the page holds
    20. *)
Theorem C1_packer_grid_differs_with_cut_marks :
  let s := cutMarkSheet in
  let g := packerGrid s indiaPassport in
  passportSize s = Some indiaPassport
  /\ Settings.rotatePhotos s = false
  /\ capacityFor false (layoutInfo s) = 25
  /\ Grid.cols g * Grid.rows g = 20
  /\ (mmToPx 35 + mmToPx (markPaddingMm true false) * 2 == mmToPx 35 + 4)%Q
  /\ (Grid.totalWidth g == mmToPx 35 + mmToPx 2 * 2)%Q
  /\ ~ (Grid.totalWidth g
        == mmToPx 35 + mmToPx (markPaddingMm true false) * 2)%Q
  /\ (let W := Binary64.mmToPx (Binary64.printable 210 10 10) in
      let H := Binary64.mmToPx (Binary64.printable 297 10 10) in
      let gap := Binary64.mmToPx 2 in
      let calculatorPad := Binary64.mmToPx Binary64.markPaddingMm in
      let packerPad := Binary64.mmToPx Binary64.MARK_PADDING_PX in
      Binary64.floorIs (Binary64.quotient W gap (Binary64.cell 35 calculatorPad)) 5
      && Binary64.floorIs (Binary64.quotient H gap (Binary64.cell 45 calculatorPad)) 5
      && Binary64.floorIs (Binary64.quotient W gap (Binary64.cell 35 packerPad)) 4
      && Binary64.floorIs (Binary64.quotient H gap (Binary64.cell 45 packerPad)) 5
      = true)
  /\ exists page,
       paginatedLayout s {["1700000000001" := 25]} = Normal [page]
       /\ length page = 20%nat.
Proof.
  repeat (split; [vm_compute; congruence|]).
  eexists. split; [vm_compute; reflexivity|reflexivity].
Qed.

(** ** The packer never throws *)

Lemma pushToPage_Some pages pageIndex page item :
  pages !! pageIndex = Some page ->
  pushToPage pages pageIndex item = Normal (<[pageIndex := page ++ [item]]> pages).
Proof. intros H. unfold pushToPage. rewrite H. reflexivity. Qed.

Lemma placeGrid_spec g gapPx itemsPerPage pageIndex imgs :
  forall i pages page,
    pages !! pageIndex = Some page ->
    placeGrid g gapPx itemsPerPage pageIndex i imgs pages
    = Normal (<[pageIndex :=
                 page ++ imap (fun k img =>
                                 gridCell g gapPx itemsPerPage (i + Z.of_nat k) img)
                              imgs]> pages).
Proof.
  induction imgs as [|img rest IH]; intros i pages page Hpage; simpl.
  - rewrite app_nil_r, list_insert_id by assumption. reflexivity.
  - rewrite (pushToPage_Some _ _ _ _ Hpage). simpl.
    unfold mbind, Completion_bind, bindC.
    erewrite IH by (apply list_lookup_insert_eq; eapply lookup_lt_Some; eassumption).
    rewrite list_insert_insert_eq. rewrite <- app_assoc. simpl.
    rewrite Z.add_0_r. do 4 f_equal.
    apply imap_ext. intros k x _. simpl. f_equal. lia.
Qed.

Lemma wrapRow_ready W gap w st : lastPageReady st -> lastPageReady (wrapRow W gap w st).
Proof. unfold wrapRow, lastPageReady. destruct (_ && _); simpl; auto. Qed.

Lemma breakPage_ready H h st : lastPageReady st -> lastPageReady (breakPage H h st).
Proof.
  unfold breakPage, lastPageReady. destruct (Qgtb _ _); simpl; auto.
  rewrite length_app. simpl. lia.
Qed.

Lemma placeRandom_returns W H gap T st img :
  lastPageReady st ->
  exists st', placeRandom W H gap T st img = Normal st' /\ lastPageReady st'.
Proof.
  intros Hst. unfold placeRandom.
  destruct (scaledSize T img) as [w h].
  set (st2 := breakPage H h (wrapRow W gap w st)).
  assert (H2 : lastPageReady st2) by (apply breakPage_ready, wrapRow_ready, Hst).
  destruct (lookup_lt_is_Some_2 (Packing.pages st2) (Packing.pageIndex st2))
    as [page Hpage]; [unfold lastPageReady in H2; lia|].
  rewrite (pushToPage_Some _ _ _ _ Hpage). simpl.
  eexists. split; [reflexivity|].
  unfold lastPageReady in *. simpl. rewrite length_insert. assumption.
Qed.

Lemma packRandom_returns W H gap T imgs :
  forall st, lastPageReady st ->
    exists st', packRandom W H gap T st imgs = Normal st' /\ lastPageReady st'.
Proof.
  induction imgs as [|img rest IH]; intros st Hst; simpl.
  - eauto.
  - destruct (placeRandom_returns W H gap T st img Hst) as (st1 & E1 & H1).
    rewrite E1. simpl. apply IH, H1.
Qed.

Lemma find_nil_expansion (quantities : Quantities) ids :
  foldl (fun flatArray a =>
           match find [] a with
           | Some image => pushTimes (quantityOf quantities a) image flatArray
           | None => flatArray
           end) [] ids = [].
Proof. induction ids; simpl; auto. Qed.

Lemma imagesToPrint_no_images s quantities :
  Settings.images s = [] -> imagesToPrint s quantities = [].
Proof.
  intros E. unfold imagesToPrint, isRandomSizeMode, passportSize.
  rewrite E. apply find_nil_expansion.
Qed.

Lemma paginatedLayout_returns s quantities :
  exists pages, paginatedLayout s quantities = Normal pages.
Proof.
  unfold paginatedLayout.
  destruct (length (imagesToPrint s quantities) =? 0)%nat eqn:Elen; [eauto|].
  destruct (_ || _); [eauto|].
  destruct (isRandomSizeMode s).
  - edestruct packRandom_returns as (st' & E & _); [|rewrite E; simpl; eauto].
    reflexivity.
  - destruct (passportSize s) as [size|] eqn:Esize.
    + destruct (_ >? 0); [|eauto].
      erewrite placeGrid_spec by reflexivity. simpl. eauto.
    + exfalso. unfold passportSize in Esize.
      destruct (Settings.images s) eqn:Eimg; [|discriminate].
      rewrite imagesToPrint_no_images in Elen by assumption. discriminate.
Qed.

Lemma paginatedLayout_no_printable_area s quantities :
  (printableWidthMm s <= 0)%Q \/ (printableHeightMm s <= 0)%Q ->
  paginatedLayout s quantities = Normal [].
Proof.
  intros Harea. unfold paginatedLayout.
  destruct (_ =? _)%nat; [reflexivity|].
  rewrite !mmToPx_le0.
  destruct Harea as [Hw|Hh].
  - apply Qleb_true in Hw as ->. reflexivity.
  - apply Qleb_true in Hh as ->. rewrite orb_true_r. reflexivity.
Qed.

Lemma calculateLayoutInfo_no_printable_area paperW paperH photoSize m showCutMarks noGap :
  (paperW - Margins.left m - Margins.right m <= 0)%Q
  \/ (paperH - Margins.top m - Margins.bottom m <= 0)%Q ->
  calculateLayoutInfo paperW paperH photoSize m showCutMarks noGap = noLayout.
Proof.
  intros Harea. unfold calculateLayoutInfo.
  destruct photoSize as [size|]; [|reflexivity].
  destruct (isRandomSizeName _); [reflexivity|].
  destruct Harea as [Hw|Hh].
  - apply Qleb_true in Hw as ->. reflexivity.
  - apply Qleb_true in Hh as ->. rewrite orb_true_r. reflexivity.
Qed.

(** C7. When the printable width or height is zero or negative the
    calculator reports capacity 0 for both photo orientations and the
    packer returns the empty pagination; the calculator is a total
    function and the packer returns normally on every input. *)
Theorem C7_no_printable_area_gives_zero_and_empty :
  (forall (s : Settings.t) (quantities : Quantities),
     (printableWidthMm s <= 0)%Q \/ (printableHeightMm s <= 0)%Q ->
     LayoutInfo.portrait (layoutInfo s) = 0
     /\ LayoutInfo.landscape (layoutInfo s) = 0
     /\ maxPhotos s = 0
     /\ paginatedLayout s quantities = Normal [])
  /\ (forall paperW paperH photoSize m showCutMarks noGap,
        (paperW - Margins.left m - Margins.right m <= 0)%Q
        \/ (paperH - Margins.top m - Margins.bottom m <= 0)%Q ->
        calculateLayoutInfo paperW paperH photoSize m showCutMarks noGap
        = LayoutInfo.mk 0 0 0 false)
  /\ (forall (s : Settings.t) (quantities : Quantities),
        exists pages, paginatedLayout s quantities = Normal pages).
Proof.
  split; [|split].
  - intros s quantities Harea.
    assert (E : layoutInfo s = noLayout)
      by (apply calculateLayoutInfo_no_printable_area, Harea).
    unfold maxPhotos. rewrite E. simpl.
    repeat split; try reflexivity.
    apply paginatedLayout_no_printable_area, Harea.
  - apply calculateLayoutInfo_no_printable_area.
  - apply paginatedLayout_returns.
Qed.

Lemma C7_no_printable_area_gives_zero_and_empty_witness :
  (printableWidthMm wideMarginSheet <= 0)%Q
  /\ LayoutInfo.portrait (layoutInfo wideMarginSheet) = 0
  /\ paginatedLayout wideMarginSheet {["1700000000001" := 3]} = Normal [].
Proof.
  split; [vm_compute; congruence|].
  destruct (proj1 C7_no_printable_area_gives_zero_and_empty wideMarginSheet
              {["1700000000001" := 3]}) as (Hp & _ & _ & Hpages).
  - left. vm_compute. congruence.
  - split; assumption.
Defined.

(** ** Sums over the quantity map *)

Lemma foldl_add_values (l : list Z) a :
  foldl (fun sum count => sum + count) a l = a + foldr Z.add 0 l.
Proof.
  revert a. induction l as [|x l IH]; intros a; simpl; [lia|].
  rewrite IH. lia.
Qed.

Lemma foldl_add_entries (l : list (string * Z)) a :
  foldl (fun sum entry => sum + entry.2) a l = a + foldr Z.add 0 l.*2.
Proof.
  revert a. induction l as [|x l IH]; intros a; [simpl; lia|].
  rewrite fmap_cons. cbn [foldl foldr]. rewrite IH. lia.
Qed.

Lemma sum_values_perm (l1 l2 : list Z) :
  l1 ≡ₚ l2 -> foldr Z.add 0 l1 = foldr Z.add 0 l2.
Proof. induction 1; simpl; lia. Qed.

Lemma totalCount_entries (quantities : Quantities) :
  totalCount quantities = foldr Z.add 0 (map_to_list quantities).*2.
Proof. unfold totalCount, objectValues. rewrite foldl_add_values. lia. Qed.

Lemma totalCount_empty : totalCount ∅ = 0.
Proof. reflexivity. Qed.

Lemma totalCount_insert_fresh (quantities : Quantities) id v :
  quantities !! id = None ->
  totalCount (<[id := v]> quantities) = totalCount quantities + v.
Proof.
  intros Hfresh. rewrite !totalCount_entries.
  rewrite (sum_values_perm _ (((id, v) :: map_to_list quantities).*2)).
  - rewrite fmap_cons. cbn [foldr snd]. lia.
  - apply fmap_Permutation, map_to_list_insert, Hfresh.
Qed.

Lemma filter_other_keys (l : list (string * Z)) id :
  id ∉ l.*1 -> filter (fun entry : string * Z => entry.1 <> id) l = l.
Proof.
  induction l as [|[k v] l IH]; intros Hid; [reflexivity|].
  rewrite fmap_cons, not_elem_of_cons in Hid. destruct Hid as [Hk Hl].
  rewrite filter_cons_True by (simpl in *; congruence). f_equal. apply IH, Hl.
Qed.

Lemma totalWithout_delete (quantities : Quantities) id :
  totalWithout quantities id = totalCount (delete id quantities).
Proof.
  unfold totalWithout, objectEntries.
  rewrite foldl_add_entries, totalCount_entries, Z.add_0_l.
  assert (Hno : id ∉ (map_to_list (delete id quantities)).*1).
  { intros Hin. apply list_elem_of_fmap in Hin as ([k v] & -> & Hin).
    apply elem_of_map_to_list in Hin. simpl in Hin.
    rewrite lookup_delete_eq in Hin. discriminate. }
  destruct (quantities !! id) as [x|] eqn:E.
  - apply sum_values_perm, fmap_Permutation.
    rewrite <- (map_to_list_delete quantities id x E).
    rewrite filter_cons_False by (simpl; auto).
    rewrite filter_other_keys; auto.
  - rewrite delete_id by assumption.
    rewrite delete_id in Hno by assumption.
    rewrite filter_other_keys; auto.
Qed.

Lemma totalCount_insert (quantities : Quantities) id v :
  totalCount (<[id := v]> quantities) = totalWithout quantities id + v.
Proof.
  rewrite totalWithout_delete, <- insert_delete_eq.
  apply totalCount_insert_fresh, lookup_delete_eq.
Qed.

Lemma totalCount_split (quantities : Quantities) id v :
  quantities !! id = Some v ->
  totalCount quantities = totalWithout quantities id + v.
Proof.
  intros E. rewrite <- totalCount_insert. rewrite insert_id; auto.
Qed.

Lemma totalWithout_absent (quantities : Quantities) id :
  quantities !! id = None -> totalWithout quantities id = totalCount quantities.
Proof. intros E. rewrite totalWithout_delete, delete_id; auto. Qed.

Lemma totalCount_nonneg (quantities : Quantities) :
  countsNonneg quantities -> 0 <= totalCount quantities.
Proof.
  intros H. rewrite totalCount_entries.
  assert (Hall : Forall (fun v => 0 <= v) (map_to_list quantities).*2).
  { apply Forall_forall. intros v Hv.
    apply list_elem_of_fmap in Hv as ([k v'] & -> & Hin).
    apply elem_of_map_to_list in Hin. eapply H, Hin. }
  induction Hall; simpl; lia.
Qed.

Lemma countsNonneg_delete (quantities : Quantities) id :
  countsNonneg quantities -> countsNonneg (delete id quantities).
Proof.
  intros H k v Hk. apply lookup_delete_Some in Hk as [_ Hk]. eapply H, Hk.
Qed.

Lemma countsNonneg_insert (quantities : Quantities) id v :
  countsNonneg quantities -> 0 <= v -> countsNonneg (<[id := v]> quantities).
Proof.
  intros H Hv k w Hk. apply lookup_insert_Some in Hk as [[_ <-]|[_ Hk]]; [lia|].
  eapply H, Hk.
Qed.

Lemma totalWithout_nonneg (quantities : Quantities) id :
  countsNonneg quantities -> 0 <= totalWithout quantities id.
Proof.
  intros H. rewrite totalWithout_delete.
  apply totalCount_nonneg, countsNonneg_delete, H.
Qed.

(** ** Even distribution of the capacity *)

Lemma shareOut_loop_absent base images :
  forall acc r id,
    id ∉ ids images ->
    (foldl (shareOut base) (acc, r) images).1 !! id = acc !! id.
Proof.
  induction images as [|img rest IH]; intros acc r id Hid; [reflexivity|].
  unfold ids in Hid. rewrite fmap_cons, not_elem_of_cons in Hid.
  destruct Hid as [Hne Hrest]. cbn [foldl shareOut].
  rewrite IH by exact Hrest. apply lookup_insert_ne. congruence.
Qed.

Lemma shareOut_loop_lookup base images :
  forall acc r (k : nat) img,
    NoDup (ids images) ->
    images !! k = Some img ->
    (foldl (shareOut base) (acc, r) images).1 !! ProcessedImage.id img
    = Some (base + (if r - Z.of_nat k >? 0 then 1 else 0)).
Proof.
  induction images as [|first rest IH]; intros acc r k img Hnd Hk; [discriminate|].
  unfold ids in Hnd. rewrite fmap_cons in Hnd. apply NoDup_cons in Hnd as [Hfirst Hnd].
  cbn [foldl shareOut]. destruct k as [|k]; simpl in Hk.
  - injection Hk as ->. rewrite shareOut_loop_absent by exact Hfirst.
    rewrite lookup_insert_eq. rewrite Z.sub_0_r. reflexivity.
  - rewrite (IH _ _ k img Hnd Hk).
    replace (r - 1 - Z.of_nat k) with (r - Z.of_nat (S k)) by lia. reflexivity.
Qed.

Lemma sharesSum_closed base n :
  forall r, sharesSum base r n = Z.of_nat n * base + Z.max 0 (Z.min r (Z.of_nat n)).
Proof.
  induction n as [|n IH]; intros r; [simpl; lia|].
  cbn [sharesSum]. rewrite IH. destruct (r >? 0) eqn:E; lia.
Qed.

Lemma shareOut_loop_total base images :
  forall acc r,
    NoDup (ids images) ->
    (forall id, id ∈ ids images -> acc !! id = None) ->
    totalCount (foldl (shareOut base) (acc, r) images).1
    = totalCount acc + sharesSum base r (length images).
Proof.
  induction images as [|first rest IH]; intros acc r Hnd Hfresh; [simpl; lia|].
  unfold ids in Hnd, Hfresh. rewrite fmap_cons in Hnd, Hfresh.
  apply NoDup_cons in Hnd as [Hfirst Hnd].
  cbn [foldl shareOut length sharesSum]. rewrite IH; [|exact Hnd|].
  - rewrite totalCount_insert_fresh by (apply Hfresh; left). lia.
  - intros id Hid. rewrite lookup_insert_ne.
    + apply Hfresh. right. exact Hid.
    + intros E. apply Hfirst. rewrite E. exact Hid.
Qed.

Lemma fillEvenly_evenShare images total :
  NoDup (ids images) -> images <> [] -> 0 < total ->
  evenShare images total (fillEvenly images total).
Proof.
  intros Hnd Hne Htotal.
  assert (Hn : 0 < Z.of_nat (length images)) by (destruct images; simpl; [congruence|lia]).
  assert (Hrem : Z.rem total (Z.of_nat (length images))
                 = total mod Z.of_nat (length images))
    by (apply Z.rem_mod_nonneg; lia).
  assert (Hmod := Z.mod_pos_bound total _ Hn).
  unfold evenShare, fillEvenly. rewrite Hrem. split; [|split].
  - rewrite shareOut_loop_total; [|exact Hnd|intros; apply lookup_empty].
    rewrite totalCount_empty, sharesSum_closed.
    rewrite (Z.div_mod total (Z.of_nat (length images))) at 3 by lia. lia.
  - intros k img Hk. rewrite (shareOut_loop_lookup _ _ _ _ k img Hnd Hk).
    do 2 f_equal.
    destruct (_ >? 0) eqn:E1, (_ <? _) eqn:E2; lia.
  - intros id Hid. rewrite shareOut_loop_absent by exact Hid. apply lookup_empty.
Qed.

Lemma fillEvenly_keys images total id v :
  fillEvenly images total !! id = Some v -> id ∈ ids images.
Proof.
  intros E. destruct (decide (id ∈ ids images)) as [|Hno]; [assumption|].
  unfold fillEvenly in E. rewrite shareOut_loop_absent in E by exact Hno.
  rewrite lookup_empty in E. discriminate.
Qed.

Lemma quantitiesEffect_standard s quantities :
  isRandomSizeMode s = false ->
  quantitiesEffect s quantities
  = if (0 <? length (Settings.images s))%nat && (maxPhotos s >? 0)
    then fillEvenly (Settings.images s) (maxPhotos s) else ∅.
Proof. intros E. unfold quantitiesEffect. rewrite E. reflexivity. Qed.

(** C10. In standard mode the effect that runs when the image list or
    the capacity changes ignores the previous quantity map.  With a
    positive capacity and at least one image (ids unique) the new
    quantities sum to the capacity; the image at position [k] gets
    [floor(capacity / n)] copies plus one more exactly when
    [k < capacity mod n], so all counts are the quotient or the quotient
    plus one and the extra copies go to the first images.  Otherwise the
    map is empty and every quantity reads as 0. *)
Theorem C10_quantities_recomputed_as_even_share (s : Settings.t) :
  isRandomSizeMode s = false ->
  NoDup (ids (Settings.images s)) ->
  let images := Settings.images s in
  let n := Z.of_nat (length images) in
  let capacity := maxPhotos s in
  (forall previous1 previous2,
     quantitiesEffect s previous1 = quantitiesEffect s previous2)
  /\ (forall old new replaced,
        Component.settings new = s ->
        replaced = true \/ maxPhotos (Component.settings old) <> capacity ->
        Component.quantities (settle old replaced new)
        = quantitiesEffect s ∅)
  /\ (forall previous, images <> [] -> 0 < capacity ->
        let quantities := quantitiesEffect s previous in
        totalCount quantities = capacity
        /\ (forall (k : nat) img, images !! k = Some img ->
              quantities !! ProcessedImage.id img
              = Some (capacity / n
                      + (if Z.of_nat k <? capacity mod n then 1 else 0)))
        /\ (forall img, img ∈ images ->
              quantityOf quantities (ProcessedImage.id img) = capacity / n
              \/ quantityOf quantities (ProcessedImage.id img) = capacity / n + 1))
  /\ (forall previous, images = [] \/ capacity <= 0 ->
        forall id, quantityOf (quantitiesEffect s previous) id = 0).
Proof.
  intros Hstd Hnd images n capacity.
  split; [|split; [|split]].
  - intros q1 q2. rewrite !quantitiesEffect_standard by assumption. reflexivity.
  - intros old new replaced Hs Hchanged. unfold settle. rewrite Hs. simpl.
    assert (Hdeps : replaced || negb (maxPhotos s =? maxPhotos (Component.settings old))
                    || negb (eqb (isRandomSizeMode s)
                                 (isRandomSizeMode (Component.settings old))) = true).
    { destruct Hchanged as [->|Hne]; [reflexivity|].
      apply orb_true_iff. left. apply orb_true_iff. right.
      apply negb_true_iff, Z.eqb_neq. fold capacity. congruence. }
    rewrite Hdeps. rewrite !quantitiesEffect_standard by assumption. reflexivity.
  - intros previous Hne Hcap quantities.
    assert (E : quantities = fillEvenly images capacity).
    { subst quantities. rewrite quantitiesEffect_standard by assumption.
      fold images capacity.
      destruct images; [congruence|]. simpl.
      apply Z.gtb_lt in Hcap as ->. reflexivity. }
    destruct (fillEvenly_evenShare images capacity Hnd Hne Hcap) as (Hsum & Hat & _).
    rewrite E. repeat split; [exact Hsum|exact Hat|].
    intros img Himg. apply list_elem_of_lookup in Himg as [k Hk].
    unfold quantityOf. rewrite (Hat k img Hk). simpl. fold n.
    destruct (_ <? _); lia.
  - intros previous Hnone id.
    rewrite quantitiesEffect_standard by assumption. fold images capacity.
    assert (E : (0 <? length images)%nat && (capacity >? 0) = false).
    { destruct Hnone as [->|Hcap]; [reflexivity|].
      apply andb_false_iff. right. rewrite Z.gtb_ltb. apply Z.ltb_ge. exact Hcap. }
    rewrite E. reflexivity.
Qed.

Lemma C10_quantities_recomputed_as_even_share_witness :
  totalCount (quantitiesEffect threePhotoSheet {["1700000000002" := 7]}) = 28
  /\ quantitiesEffect threePhotoSheet ∅ !! "1700000000001" = Some 10
  /\ quantitiesEffect threePhotoSheet ∅ !! "1700000000002" = Some 9
  /\ quantitiesEffect threePhotoSheet ∅ !! "1700000000003" = Some 9.
Proof.
  assert (Hstd : isRandomSizeMode threePhotoSheet = false) by reflexivity.
  assert (Hnd : NoDup (ids (Settings.images threePhotoSheet)))
    by (apply (bool_decide_unpack _); vm_compute; reflexivity).
  destruct (C10_quantities_recomputed_as_even_share threePhotoSheet Hstd Hnd)
    as (_ & _ & Hshare & _).
  assert (Hne : Settings.images threePhotoSheet <> []) by discriminate.
  assert (Hcap : 0 < maxPhotos threePhotoSheet) by (vm_compute; reflexivity).
  split.
  - exact (proj1 (Hshare {["1700000000002" := 7]} Hne Hcap)).
  - destruct (Hshare ∅ Hne Hcap) as (_ & Hat & _).
    split; [|split].
    + exact (Hat 0%nat _ eq_refl).
    + exact (Hat 1%nat _ eq_refl).
    + exact (Hat 2%nat _ eq_refl).
Defined.

(** ** The quantity map stays within the capacity *)

Lemma maxPhotos_nonneg s : 0 <= maxPhotos s.
Proof. apply calculateLayoutInfo_nonneg. Qed.

Lemma totalWithout_le (quantities : Quantities) id :
  countsNonneg quantities -> totalWithout quantities id <= totalCount quantities.
Proof.
  intros H. destruct (quantities !! id) as [v|] eqn:E.
  - rewrite (totalCount_split _ _ _ E). specialize (H _ _ E). lia.
  - rewrite totalWithout_absent by assumption. lia.
Qed.

Lemma sharesSum_nonneg base r n : 0 <= base -> 0 <= sharesSum base r n.
Proof. intros H. rewrite sharesSum_closed. nia. Qed.

Lemma shareOut_loop_bound base images :
  0 <= base ->
  forall acc r,
    countsNonneg acc ->
    countsNonneg (foldl (shareOut base) (acc, r) images).1
    /\ totalCount (foldl (shareOut base) (acc, r) images).1
       <= totalCount acc + sharesSum base r (length images).
Proof.
  intros Hbase. induction images as [|first rest IH]; intros acc r Hacc.
  - simpl. split; [assumption|lia].
  - cbn [foldl shareOut length sharesSum].
    set (v := base + (if r >? 0 then 1 else 0)).
    assert (Hv : 0 <= v) by (subst v; destruct (r >? 0); lia).
    destruct (IH (<[ProcessedImage.id first := v]> acc) (r - 1)) as [Hnn Hle].
    { apply countsNonneg_insert; assumption. }
    split; [exact Hnn|].
    rewrite totalCount_insert in Hle.
    assert (Hw := totalWithout_le acc (ProcessedImage.id first) Hacc). lia.
Qed.

Lemma fillEvenly_fits images total :
  0 <= total -> images <> [] ->
  totalCount (fillEvenly images total) <= total
  /\ countsNonneg (fillEvenly images total).
Proof.
  intros Htotal Hne.
  assert (Hn : 0 < Z.of_nat (length images))
    by (destruct images; simpl; [congruence|lia]).
  unfold fillEvenly.
  destruct (shareOut_loop_bound (total / Z.of_nat (length images)) images
              (Z.div_pos _ _ Htotal Hn) ∅
              (Z.rem total (Z.of_nat (length images)))) as [Hnn Hle].
  { intros id v E. rewrite lookup_empty in E. discriminate. }
  split; [|exact Hnn].
  rewrite totalCount_empty, sharesSum_closed in Hle.
  rewrite Z.rem_mod_nonneg in Hle by lia.
  assert (Hmod := Z.mod_pos_bound total _ Hn).
  assert (Hdm := Z.div_mod total (Z.of_nat (length images)) ltac:(lia)).
  rewrite Z.rem_mod_nonneg by lia. lia.
Qed.

Lemma quantitiesFit_empty s : quantitiesFit s ∅.
Proof.
  split; [|split].
  - rewrite totalCount_empty. apply maxPhotos_nonneg.
  - intros id v E. rewrite lookup_empty in E. discriminate.
  - intros id v E. rewrite lookup_empty in E. discriminate.
Qed.

Lemma quantitiesEffect_fits s previous :
  isRandomSizeMode s = false -> quantitiesFit s (quantitiesEffect s previous).
Proof.
  intros Hstd. rewrite quantitiesEffect_standard by assumption.
  destruct (_ && _) eqn:E; [|apply quantitiesFit_empty].
  apply andb_true_iff in E as [Hlen Hcap].
  assert (Hne : Settings.images s <> [])
    by (destruct (Settings.images s); [discriminate|congruence]).
  destruct (fillEvenly_fits (Settings.images s) (maxPhotos s)
              (maxPhotos_nonneg s) Hne) as [Hle Hnn].
  split; [exact Hle|split; [exact Hnn|]].
  intros id v. apply fillEvenly_keys.
Qed.

Lemma hasSlider_ids images id : hasSlider images id = true -> id ∈ ids images.
Proof.
  unfold hasSlider, ids. intros H. apply existsb_exists in H as (img & Hin & E).
  apply String.eqb_eq in E as <-.
  apply list_elem_of_fmap. exists img. split; [reflexivity|].
  apply list_elem_of_In, Hin.
Qed.

Lemma handleQuantityChange_standard s quantities id value :
  isRandomSizeMode s = false ->
  handleQuantityChange s quantities id value
  = if Z.min value (maxPhotos s - totalWithout quantities id) >=? 0
    then <[id := Z.min value (maxPhotos s - totalWithout quantities id)]> quantities
    else quantities.
Proof. intros E. unfold handleQuantityChange. rewrite E. reflexivity. Qed.

Lemma handleQuantityChange_fits s quantities id value :
  isRandomSizeMode s = false ->
  id ∈ ids (Settings.images s) ->
  quantitiesFit s quantities ->
  quantitiesFit s (handleQuantityChange s quantities id value).
Proof.
  intros Hstd Hid (Hle & Hnn & Hkeys).
  rewrite handleQuantityChange_standard by assumption.
  destruct (_ >=? 0) eqn:E; [|repeat split; assumption].
  apply Z.geb_le in E. split; [|split].
  - rewrite totalCount_insert. lia.
  - apply countsNonneg_insert; assumption.
  - intros k v Hk. apply lookup_insert_Some in Hk as [[<- _]|[_ Hk]]; [exact Hid|].
    eapply Hkeys, Hk.
Qed.

Lemma isRandomSizeMode_images s s' :
  Settings.images s' = Settings.images s ->
  isRandomSizeMode s' = isRandomSizeMode s.
Proof. intros E. unfold isRandomSizeMode, passportSize. rewrite E. reflexivity. Qed.

Lemma quantitiesFit_transfer s s' quantities :
  Settings.images s' = Settings.images s ->
  maxPhotos s' = maxPhotos s ->
  quantitiesFit s quantities -> quantitiesFit s' quantities.
Proof. intros Ei Em (H1 & H2 & H3). unfold quantitiesFit. rewrite Ei, Em. auto. Qed.

Lemma zeros_lookup images :
  forall (acc : Quantities) id v,
    foldl (fun acc img => <[ProcessedImage.id img := 0]> acc) acc images !! id
    = Some v ->
    (v = 0 /\ id ∈ ids images) \/ acc !! id = Some v.
Proof.
  induction images as [|first rest IH]; intros acc id v E; [right; exact E|].
  cbn [foldl] in E. apply IH in E as [[-> Hin]|E].
  - left. split; [reflexivity|]. unfold ids. rewrite fmap_cons. right. exact Hin.
  - apply lookup_insert_Some in E as [[<- <-]|[_ E]]; [|right; exact E].
    left. split; [reflexivity|]. unfold ids. rewrite fmap_cons. left.
Qed.

Lemma totalCount_zeros (quantities : Quantities) :
  (forall id v, quantities !! id = Some v -> v = 0) -> totalCount quantities = 0.
Proof.
  intros H. rewrite totalCount_entries.
  assert (Hall : Forall (fun v => v = 0) (map_to_list quantities).*2).
  { apply Forall_forall. intros v Hv.
    apply list_elem_of_fmap in Hv as ([k v'] & -> & Hin).
    apply elem_of_map_to_list in Hin. eapply H, Hin. }
  induction Hall; simpl; lia.
Qed.

Lemma handleFillPage_spec s quantities :
  isRandomSizeMode s = false ->
  let s' := (handleFillPage s quantities).1 in
  let quantities' := (handleFillPage s quantities).2 in
  Settings.images s' = Settings.images s
  /\ (quantitiesFit s' quantities' \/ (s' = s /\ quantities' = quantities)).
Proof.
  intros Hstd. unfold handleFillPage.
  destruct (passportSize s) as [size|] eqn:Esize; [|simpl; auto].
  rewrite Hstd, orb_false_r.
  destruct (length (Settings.images s) =? 0)%nat eqn:Elen; [simpl; auto|].
  apply Nat.eqb_neq in Elen.
  assert (Hne : Settings.images s <> []) by (intros E; rewrite E in Elen; auto).
  set (base := basePaperDimensions s).
  set (pResult := calculateLayoutInfo (Dimensions.width base) _ _ _ _ _).
  set (lResult := calculateLayoutInfo (Dimensions.height base) _ _ _ _ _).
  set (better := LayoutInfo.max lResult >? LayoutInfo.max pResult).
  set (maxForFill := if better then _ else _).
  set (s' := withFill s _ _).
  assert (Hmax : maxPhotos s' = maxForFill).
  { unfold maxPhotos, layoutInfo, paperDimensions, passportSize in *.
    subst s' maxForFill. simpl. rewrite Esize. fold base.
    destruct better; reflexivity. }
  assert (Hnonneg : 0 <= maxForFill) by (rewrite <- Hmax; apply maxPhotos_nonneg).
  destruct (maxForFill <=? 0) eqn:E; simpl; (split; [reflexivity|left]).
  - split; [|split].
    + rewrite totalCount_zeros, Hmax; [assumption|].
      intros id v Hv. apply zeros_lookup in Hv as [[-> _]|Hv]; [reflexivity|].
      rewrite lookup_empty in Hv. discriminate.
    + intros id v Hv. apply zeros_lookup in Hv as [[-> _]|Hv]; [lia|].
      rewrite lookup_empty in Hv. discriminate.
    + intros id v Hv. apply zeros_lookup in Hv as [[_ Hin]|Hv]; [exact Hin|].
      rewrite lookup_empty in Hv. discriminate.
  - destruct (fillEvenly_fits (Settings.images s) maxForFill Hnonneg Hne)
      as [Hle Hnn].
    split; [rewrite Hmax; exact Hle|split; [exact Hnn|]].
    intros id v. apply fillEvenly_keys.
Qed.

Lemma pageCount_nonneg s quantities : 0 <= pageCount s quantities.
Proof. unfold pageCount. destruct (paginatedLayout s quantities); lia. Qed.

Lemma currentPageEffect_range p len :
  1 <= p -> 0 <= len ->
  1 <= currentPageEffect p len /\ currentPageEffect p len <= Z.max 1 len.
Proof.
  intros Hp Hlen. unfold currentPageEffect.
  destruct (p >? len) eqn:E1, (len >? 0) eqn:E2, (len =? 0) eqn:E3,
           (p =? 1) eqn:E4; simpl; lia.
Qed.

Lemma settle_pageInvariant old replaced new :
  1 <= Component.currentPage new -> pageInvariant (settle old replaced new).
Proof.
  intros Hp. unfold pageInvariant, settle. simpl.
  apply currentPageEffect_range; [assumption|apply pageCount_nonneg].
Qed.

Lemma settle_standardInvariant old replaced new :
  (isRandomSizeMode (Component.settings new) = false ->
   replaced = false ->
   maxPhotos (Component.settings new) = maxPhotos (Component.settings old) ->
   isRandomSizeMode (Component.settings old) = false ->
   quantitiesFit (Component.settings new) (Component.quantities new)) ->
  standardInvariant (settle old replaced new).
Proof.
  intros Hnew Hstd. unfold settle in *. simpl in *.
  destruct (_ || _) eqn:Edeps.
  - apply quantitiesEffect_fits, Hstd.
  - apply orb_false_iff in Edeps as [Edeps Emode].
    apply orb_false_iff in Edeps as [-> Emax].
    apply negb_false_iff, Z.eqb_eq in Emax.
    apply negb_false_iff, eqb_prop in Emode.
    apply Hnew; congruence.
Qed.

Lemma handle_currentPage c ev :
  pageInvariant c -> 1 <= Component.currentPage (handle c ev).
Proof.
  intros [Hp _]. destruct c as [s q p]. simpl in Hp.
  destruct ev; cbn [handle Component.settings Component.quantities
                    Component.currentPage];
    try assumption;
    try (destruct (negb (isRandomSizeMode s)); simpl; assumption);
    try (destruct (isRandomSizeMode s); simpl; assumption);
    try (destruct (Settings.paperType s); simpl; assumption).
  - destruct (_ && _); simpl; assumption.
  - destruct (negb (isRandomSizeMode s)); [|assumption].
    destruct (handleFillPage s q). simpl. assumption.
  - destruct (_ && _); simpl; [unfold prevPage; lia|assumption].
  - destruct (pageBarShown _) eqn:Ebar; simpl; [|assumption].
    destruct (negb _); simpl; [|assumption].
    unfold pageBarShown in Ebar. simpl in Ebar.
    apply andb_true_iff in Ebar as [_ Hlen]. unfold nextPage. lia.
Qed.

Lemma handle_quantitiesFit c ev :
  standardInvariant c ->
  isRandomSizeMode (Component.settings (handle c ev)) = false ->
  replacesImages c ev = false ->
  maxPhotos (Component.settings (handle c ev)) = maxPhotos (Component.settings c) ->
  isRandomSizeMode (Component.settings c) = false ->
  quantitiesFit (Component.settings (handle c ev)) (Component.quantities (handle c ev)).
Proof.
  intros Hinv Hnew Hrepl Hmax Hold.
  specialize (Hinv Hold). destruct c as [s q p]. simpl in *.
  destruct ev; simpl in *; try discriminate; rewrite ?Hold in *; simpl in *;
    try discriminate;
    try (eapply quantitiesFit_transfer; [| |exact Hinv]; [reflexivity|exact Hmax]);
    try exact Hinv;
    try (destruct (Settings.paperType s); simpl in *;
         [exact Hinv
         |eapply quantitiesFit_transfer; [| |exact Hinv]; [reflexivity|exact Hmax]]).
  - destruct (hasSlider _ _ && _) eqn:E; simpl; [|exact Hinv].
    apply andb_true_iff in E as [Hslider _].
    apply handleQuantityChange_fits; auto using hasSlider_ids.
  - destruct (handleFillPage_spec s q Hold) as [Himg [Hfit|[Es Eq]]];
      destruct (handleFillPage s q) as [s' q']; simpl in *.
    + exact Hfit.
    + subst. exact Hinv.
  - destruct (_ && _); simpl; exact Hinv.
  - destruct (_ && _); simpl; exact Hinv.
Qed.

Lemma mount_invariants images :
  standardInvariant (mount images) /\ pageInvariant (mount images).
Proof.
  split.
  - intros Hstd. unfold mount in *. simpl in *.
    apply quantitiesEffect_fits, Hstd.
  - unfold pageInvariant, mount. simpl.
    apply currentPageEffect_range; [lia|apply pageCount_nonneg].
Qed.

Lemma reachable_invariants c :
  reachable c -> standardInvariant c /\ pageInvariant c.
Proof.
  induction 1 as [images|c ev Hreach [Hstd Hpage]].
  - apply mount_invariants.
  - split.
    + apply settle_standardInvariant. intros. apply handle_quantitiesFit; assumption.
    + apply settle_pageInvariant, handle_currentPage, Hpage.
Qed.
(** C5, at the failing input.  On the first render with one 35x45 mm
    photo (A4, 10 mm margins, 2 mm gap, no cut marks) the quantity effect
    hands out [maxPhotos = 28], the calculator's maximum over both photo
    orientations, and the clamping handler accepts requests up to that
    number; but [rotatePhotos] is off, so the capacity of the sheet as it
    is laid out is the calculator's portrait count 25, the packer places
    25 instances, and three accepted copies are on no sheet.  "Optimize
    and fill page" is the path that brings the two together: it turns
    the photos, and 28 are placed.  The figures are the same in binary64
    arithmetic. *)
Theorem C5_accepted_quantities_exceed_the_sheet :
  let id := "1700000000001" in
  let c := mount [samplePhoto id] in
  let s := Component.settings c in
  let filled := dispatch c EvFillPage in
  reachable c
  /\ isRandomSizeMode s = false
  /\ Settings.rotatePhotos s = false
  /\ capacityFor (Settings.rotatePhotos s) (layoutInfo s) = 25
  /\ maxPhotos s = 28
  /\ Component.quantities c = {[id := 28]}
  /\ totalCount (Component.quantities c) = 28
  /\ Component.quantities (dispatch (dispatch c (EvQuantity id 0)) (EvQuantity id 40))
     = {[id := 28]}
  /\ (exists page,
        paginatedLayout s (Component.quantities c) = Normal [page]
        /\ length page = 25%nat)
  /\ Binary64.calculateLayoutInfo 210 297 35 45 10 10 10 10 false false
     = Some (LayoutInfo.mk 25 28 28 true)
  /\ Binary64.itemsPerPage 210 297 35 45 10 10 10 10 false false false = Some 25
  /\ Settings.rotatePhotos (Component.settings filled) = true
  /\ totalCount (Component.quantities filled) = 28
  /\ exists page,
       paginatedLayout (Component.settings filled) (Component.quantities filled)
       = Normal [page]
       /\ length page = 28%nat.
Proof.
  cbv zeta. split; [apply reachable_mount|].
  split; [reflexivity|]. split; [reflexivity|].
  split; [vm_compute; reflexivity|]. split; [vm_compute; reflexivity|].
  split; [apply (bool_decide_unpack _); vm_compute; reflexivity|].
  split; [vm_compute; reflexivity|].
  split; [apply (bool_decide_unpack _); vm_compute; reflexivity|].
  split; [eexists; split; [vm_compute; reflexivity|reflexivity]|].
  split; [vm_compute; reflexivity|]. split; [vm_compute; reflexivity|].
  split; [vm_compute; reflexivity|]. split; [vm_compute; reflexivity|].
  eexists. split; [vm_compute; reflexivity|reflexivity].
Qed.

(** C8. In every reachable state the current page lies in
    [[1, pageCount]], or is 1 when there are no pages.  The Prev and Next
    buttons keep it there; when the effects run after a change and the
    page count has dropped below the current page, the current page
    becomes the new page count, and with no pages left it becomes 1. *)
Theorem C8_current_page_within_page_count (c : Component.t) :
  reachable c ->
  let inRange (c : Component.t) :=
    let n := pageCount (Component.settings c) (Component.quantities c) in
    (0 < n -> 1 <= Component.currentPage c <= n)
    /\ (n = 0 -> Component.currentPage c = 1) in
  inRange c
  /\ inRange (dispatch c EvPrev)
  /\ inRange (dispatch c EvNext)
  /\ (forall ev, inRange (dispatch c ev))
  /\ (forall replaced new,
        let c' := settle c replaced new in
        let n' := pageCount (Component.settings c') (Component.quantities c') in
        (0 < n' < Component.currentPage new -> Component.currentPage c' = n')
        /\ (n' = 0 -> Component.currentPage c' = 1)).
Proof.
  intros Hreach inRange.
  assert (Hall : forall c, reachable c -> inRange c).
  { intros c0 H0. destruct (reachable_invariants c0 H0) as [_ [H1 H2]].
    assert (Hn := pageCount_nonneg (Component.settings c0) (Component.quantities c0)).
    unfold inRange. lia. }
  split; [apply Hall, Hreach|].
  split; [apply Hall, reachable_dispatch, Hreach|].
  split; [apply Hall, reachable_dispatch, Hreach|].
  split; [intros ev; apply Hall, reachable_dispatch, Hreach|].
  intros replaced new c' n'. split.
  - subst n' c'. intros [Hpos Hover]. unfold settle. simpl. unfold currentPageEffect.
    set (n := pageCount _ _) in *.
    assert (E1 : (Component.currentPage new >? n) = true) by lia.
    assert (E2 : (n >? 0) = true) by lia.
    rewrite E1, E2. reflexivity.
  - subst n' c'. intros Hzero. unfold settle in *. simpl in *. unfold currentPageEffect.
    set (n := pageCount _ _) in *. rewrite Hzero. simpl.
    destruct (Component.currentPage new >? 0), (Component.currentPage new =? 1) eqn:E;
      simpl; lia.
Qed.

Lemma C8_current_page_within_page_count_witness :
  let c := dispatch (mount panoramas) EvNext in
  pageCount (Component.settings c) (Component.quantities c) = 2
  /\ 1 <= Component.currentPage c
     <= pageCount (Component.settings c) (Component.quantities c).
Proof.
  intros c. split; [vm_compute; reflexivity|].
  refine (proj1 (proj1 (C8_current_page_within_page_count c _)) _).
  - apply reachable_dispatch, reachable_mount.
  - vm_compute. reflexivity.
Defined.

(** ** Quantity expansion and the standard page *)

Lemma find_Some_ids images a :
  a ∈ ids images -> exists img, find images a = Some img.
Proof.
  induction images as [|first rest IH]; intros Hin.
  - inversion Hin.
  - simpl. destruct (String.eqb (ProcessedImage.id first) a) eqn:E; [eauto|].
    apply String.eqb_neq in E. unfold ids in Hin. rewrite fmap_cons in Hin.
    apply elem_of_cons in Hin as [Heq|Hin]; [congruence|]. apply IH, Hin.
Qed.

Lemma expansion_length images (quantities : Quantities) keys :
  (forall a, a ∈ keys -> a ∈ ids images) ->
  forall flatArray,
    length (foldl (fun flatArray a =>
                     match find images a with
                     | Some image => pushTimes (quantityOf quantities a) image flatArray
                     | None => flatArray
                     end) flatArray keys)
    = (length flatArray + copies quantities keys)%nat.
Proof.
  induction keys as [|a keys IH]; intros Hkeys flatArray; [simpl; lia|].
  cbn [foldl]. destruct (find_Some_ids images a) as [img ->].
  { apply Hkeys. left. }
  rewrite IH by (intros b Hb; apply Hkeys; right; exact Hb).
  unfold pushTimes, copies. rewrite length_app, length_replicate. simpl. lia.
Qed.

Lemma copies_perm (quantities : Quantities) keys1 keys2 :
  keys1 ≡ₚ keys2 -> copies quantities keys1 = copies quantities keys2.
Proof. unfold copies. induction 1; simpl; lia. Qed.

Lemma copies_entries (quantities : Quantities) (entries : list (string * Z)) :
  (forall k v, (k, v) ∈ entries -> quantities !! k = Some v /\ 0 <= v) ->
  Z.of_nat (copies quantities entries.*1) = foldr Z.add 0 entries.*2.
Proof.
  induction entries as [|[k v] entries IH]; intros H; [reflexivity|].
  rewrite !fmap_cons. unfold copies in *. cbn [sum_list_with foldr fst snd].
  destruct (H k v) as [Hk Hv]; [left|].
  rewrite Nat2Z.inj_add, IH by (intros k' v' Hin; apply H; right; exact Hin).
  unfold quantityOf. rewrite Hk. simpl. lia.
Qed.

Lemma imagesToPrint_length s quantities :
  isRandomSizeMode s = false ->
  countsNonneg quantities ->
  (forall id v, quantities !! id = Some v -> id ∈ ids (Settings.images s)) ->
  Z.of_nat (length (imagesToPrint s quantities)) = totalCount quantities.
Proof.
  intros Hstd Hnn Hkeys. unfold imagesToPrint. rewrite Hstd.
  rewrite expansion_length.
  - simpl. unfold sortedImageIds, objectKeys.
    rewrite (copies_perm _ _ _ (merge_sort_Permutation _ _)).
    rewrite totalCount_entries. apply copies_entries.
    intros k v Hin. apply elem_of_map_to_list in Hin. split; [exact Hin|].
    eapply Hnn, Hin.
  - intros a Ha. unfold sortedImageIds, objectKeys in Ha.
    rewrite merge_sort_Permutation in Ha.
    apply list_elem_of_fmap in Ha as ([k v] & -> & Hin).
    apply elem_of_map_to_list in Hin. eapply Hkeys, Hin.
Qed.

Lemma gridCell_row_major g gapPx itemsPerPage i img :
  0 <= i < itemsPerPage -> 0 < Grid.cols g ->
  gridCell g gapPx itemsPerPage i img
  = PositionedImage.mk img
      (inject_Z (i mod Grid.cols g) * (Grid.totalWidth g + gapPx))
      (inject_Z (i / Grid.cols g) * (Grid.totalHeight g + gapPx))
      (Grid.totalWidth g) (Grid.totalHeight g).
Proof.
  intros Hi Hcols. unfold gridCell.
  rewrite (Z.rem_small i itemsPerPage) by lia.
  rewrite Z.rem_mod_nonneg by lia. reflexivity.
Qed.

Lemma grid_position_unique cols i j :
  0 < cols -> i mod cols = j mod cols -> i / cols = j / cols -> i = j.
Proof.
  intros Hcols Hm Hd.
  rewrite (Z.div_mod i cols), (Z.div_mod j cols) by lia. congruence.
Qed.

Lemma packerGrid_nonneg s size :
  (0 < printableWidthMm s)%Q -> (0 < printableHeightMm s)%Q ->
  0 <= Grid.cols (packerGrid s size) /\ 0 <= Grid.rows (packerGrid s size).
Proof.
  intros HW HH. unfold packerGrid, standardGrid. simpl.
  assert (Hg := mmToPx_nonneg _ (gapMm_nonneg (Settings.noGap s))).
  apply mmToPx_pos in HW, HH.
  split; apply cellsAlong_nonneg; lra.
Qed.

Lemma paginatedLayout_standard s quantities size :
  isRandomSizeMode s = false -> passportSize s = Some size ->
  (0 < printableWidthMm s)%Q -> (0 < printableHeightMm s)%Q ->
  let g := packerGrid s size in
  let itemsPerPage := Grid.cols g * Grid.rows g in
  let gapPx := mmToPx (gapMm (Settings.noGap s)) in
  paginatedLayout s quantities
  = Normal (nonEmptyPages
      [if itemsPerPage >? 0
       then imap (fun k img => gridCell g gapPx itemsPerPage (Z.of_nat k) img)
                 (take (Z.to_nat itemsPerPage) (imagesToPrint s quantities))
       else []]).
Proof.
  intros Hstd Hsize HW HH g itemsPerPage gapPx. unfold paginatedLayout.
  destruct (length (imagesToPrint s quantities) =? 0)%nat eqn:Elen.
  - apply Nat.eqb_eq, nil_length_inv in Elen. rewrite Elen.
    rewrite take_nil. destruct (itemsPerPage >? 0); reflexivity.
  - rewrite !mmToPx_le0.
    rewrite (proj2 (Qleb_false _ _) HW), (proj2 (Qleb_false _ _) HH).
    rewrite Hstd, Hsize. simpl orb. cbv iota.
    fold (packerGrid s size). fold g. fold itemsPerPage. fold gapPx.
    destruct (itemsPerPage >? 0); [|reflexivity].
    erewrite placeGrid_spec by reflexivity. reflexivity.
Qed.

(** C4, as the code has it.  In standard mode, with a positive printable
    area, a quantity map of non-negative counts for images of the list,
    and no cut-mark padding (cut marks off, or no gap), the packer's
    grid is the calculator's for the photo orientation chosen by
    [rotatePhotos]: [cols * rows] is that capacity.  Let
    [placed = min(sum of quantities, capacity)].  When [placed] is 0 the
    packer returns no page; otherwise it returns exactly one page with
    [placed] instances, where the instance at index [i] is the [i]-th
    expanded image, at column [i mod cols] and row [floor(i / cols)], at
    [x = col * (cellWidth + gap)] and [y = row * (cellHeight + gap)];
    the (column, row) pairs lie in [[0, cols) x [0, rows)] and are
    pairwise distinct. *)
Theorem C4_standard_page_is_row_major_grid s quantities size :
  isRandomSizeMode s = false -> passportSize s = Some size ->
  (0 < printableWidthMm s)%Q -> (0 < printableHeightMm s)%Q ->
  countsNonneg quantities ->
  (forall id v, quantities !! id = Some v -> id ∈ ids (Settings.images s)) ->
  Settings.showCutMarks s && negb (Settings.noGap s) = false ->
  let g := packerGrid s size in
  let cols := Grid.cols g in
  let rows := Grid.rows g in
  let gapPx := mmToPx (gapMm (Settings.noGap s)) in
  let capacity := capacityFor (Settings.rotatePhotos s) (layoutInfo s) in
  let placed := Z.min (totalCount quantities) capacity in
  cols * rows = capacity
  /\ (placed <= 0 -> paginatedLayout s quantities = Normal [])
  /\ (0 < placed ->
      exists page,
        paginatedLayout s quantities = Normal [page]
        /\ Z.of_nat (length page) = placed
        /\ (forall (i : nat) inst, page !! i = Some inst ->
              let col := Z.of_nat i mod cols in
              let row := Z.of_nat i / cols in
              imagesToPrint s quantities !! i = Some (PositionedImage.image inst)
              /\ PositionedImage.x inst
                 = (inject_Z col * (Grid.totalWidth g + gapPx))%Q
              /\ PositionedImage.y inst
                 = (inject_Z row * (Grid.totalHeight g + gapPx))%Q
              /\ PositionedImage.renderWidth inst = Grid.totalWidth g
              /\ PositionedImage.renderHeight inst = Grid.totalHeight g
              /\ 0 <= col < cols /\ 0 <= row < rows)
        /\ (forall i j : nat,
              (i < length page)%nat -> (j < length page)%nat ->
              Z.of_nat i mod cols = Z.of_nat j mod cols ->
              Z.of_nat i / cols = Z.of_nat j / cols -> i = j)).
Proof.
  intros Hstd Hsize HW HH Hnn Hkeys Hpad g cols rows gapPx capacity placed.
  assert (Hname : isRandomSizeName (PassportSize.name size) = false).
  { unfold isRandomSizeMode in Hstd. rewrite Hsize in Hstd. exact Hstd. }
  destruct (packerGrid_matches_calculator_without_padding s size Hsize Hname
              HW HH Hpad) as (Hcap & _).
  fold g in Hcap. fold cols in Hcap. fold rows in Hcap. fold capacity in Hcap.
  split; [exact Hcap|].
  subst placed. rewrite <- Hcap. clear Hcap capacity.
  set (placed := Z.min (totalCount quantities) (cols * rows)).
  assert (Hlen := imagesToPrint_length s quantities Hstd Hnn Hkeys).
  destruct (packerGrid_nonneg s size HW HH) as [Hcols Hrows].
  fold g in Hcols, Hrows. fold cols in Hcols. fold rows in Hrows.
  rewrite (paginatedLayout_standard s quantities size) by assumption.
  fold g. fold cols. fold rows. fold gapPx.
  set (imgs := imagesToPrint s quantities) in *.
  split.
  - intros Hnone. destruct (cols * rows >? 0) eqn:Ecap; [|reflexivity].
    assert (Himgs : imgs = []) by (apply nil_length_inv; lia).
    rewrite Himgs, take_nil. reflexivity.
  - intros Hsome.
    assert (Ecap : (cols * rows >? 0) = true) by lia. rewrite Ecap.
    assert (Hcols' : 0 < cols) by nia.
    set (page := imap _ _).
    assert (Hpagelen : Z.of_nat (length page) = placed).
    { subst page. rewrite length_imap, length_take. lia. }
    exists page. split; [|split; [exact Hpagelen|split]].
    + unfold nonEmptyPages. rewrite filter_cons_True by lia. reflexivity.
    + intros i inst Hi col row.
      assert (Hilt : (i < length page)%nat) by (eapply lookup_lt_Some, Hi).
      subst page. rewrite list_lookup_imap in Hi.
      destruct (take _ imgs !! i) as [img|] eqn:Eimg; [|discriminate].
      simpl in Hi. injection Hi as <-.
      assert (Hirange : 0 <= Z.of_nat i < cols * rows) by lia.
      rewrite gridCell_row_major by assumption. simpl.
      rewrite lookup_take_Some in Eimg. destruct Eimg as [Eimg _].
      assert (Hm := Z.mod_pos_bound (Z.of_nat i) cols Hcols').
      repeat split; try assumption; try reflexivity; try lia.
      * apply Z.div_pos; lia.
      * apply Z.div_lt_upper_bound; lia.
    + intros i j _ _ Hm Hd.
      apply Nat2Z.inj. eapply grid_position_unique; eassumption.
Qed.

Lemma C4_standard_page_is_row_major_grid_witness :
  exists page,
    paginatedLayout threePhotoSheet
      {["1700000000001" := 2; "1700000000003" := 30]} = Normal [page]
    /\ Z.of_nat (length page) = 25.
Proof.
  destruct (C4_standard_page_is_row_major_grid threePhotoSheet
              {["1700000000001" := 2; "1700000000003" := 30]} indiaPassport)
    as (_ & _ & Hpage).
  - reflexivity.
  - reflexivity.
  - vm_compute. reflexivity.
  - vm_compute. reflexivity.
  - intros id v Hv. apply lookup_insert_Some in Hv as [[_ <-]|[_ Hv]]; [lia|].
    apply lookup_singleton_Some in Hv as [_ <-]. lia.
  - intros id v Hv. apply lookup_insert_Some in Hv as [[<- _]|[_ Hv]].
    + vm_compute. set_solver.
    + apply lookup_singleton_Some in Hv as [<- _]. vm_compute. set_solver.
  - reflexivity.
  - destruct Hpage as (page & Hlayout & Hlen & _); [vm_compute; reflexivity|].
    exists page. split; [exact Hlayout|exact Hlen].
Defined.

(** C4 as stated fails when nothing is to be placed: with all quantities
    at 0 (a state the sliders reach) the packer returns no page at all,
    not one page with [min(0, capacity) = 0] instances; the capacity of
    that sheet is 25. *)
Lemma C4_no_page_when_nothing_placed :
  reachable allZero
  /\ isRandomSizeMode (Component.settings allZero) = false
  /\ totalCount (Component.quantities allZero) = 0
  /\ capacityFor (Settings.rotatePhotos (Component.settings allZero))
                 (layoutInfo (Component.settings allZero)) = 25
  /\ paginatedLayout (Component.settings allZero) (Component.quantities allZero)
     = Normal []
  /\ ~ (exists page,
          paginatedLayout (Component.settings allZero)
                          (Component.quantities allZero) = Normal [page]).
Proof.
  split; [repeat apply reachable_dispatch; apply reachable_mount|].
  assert (E : paginatedLayout (Component.settings allZero)
                              (Component.quantities allZero) = Normal [])
    by (vm_compute; reflexivity).
  split; [reflexivity|]. split; [vm_compute; reflexivity|].
  split; [vm_compute; reflexivity|].
  split; [exact E|].
  intros [page Hpage]. rewrite E in Hpage. discriminate.
Qed.

(** *** The expansion follows the order of the image list *)

Lemma expansion_concat images (quantities : Quantities) keys :
  forall flatArray,
    foldl (fun flatArray a =>
             match find images a with
             | Some image => pushTimes (quantityOf quantities a) image flatArray
             | None => flatArray
             end) flatArray keys
    = flatArray ++ concat (map (emit images quantities) keys).
Proof.
  induction keys as [|a keys IH]; intros flatArray; simpl.
  - rewrite app_nil_r. reflexivity.
  - rewrite IH. unfold emit at 2, pushTimes.
    destruct (find images a); [rewrite <- app_assoc|]; reflexivity.
Qed.

Lemma findIndexFrom_lookup images :
  forall k a,
    a ∈ ids images ->
    exists (i : nat) img,
      images !! i = Some img /\ ProcessedImage.id img = a
      /\ find images a = Some img
      /\ findIndexFrom k images a = k + Z.of_nat i.
Proof.
  induction images as [|first rest IH]; intros k a Hin; [inversion Hin|].
  simpl. destruct (String.eqb (ProcessedImage.id first) a) eqn:E.
  - apply String.eqb_eq in E. exists 0%nat, first. simpl.
    repeat split; try assumption; try reflexivity. lia.
  - apply String.eqb_neq in E. unfold ids in Hin. rewrite fmap_cons in Hin.
    apply elem_of_cons in Hin as [Heq|Hin]; [congruence|].
    destruct (IH (k + 1) a Hin) as (i & img & Hi & Hid & Hfind & Hidx).
    exists (S i), img. simpl. repeat split; try assumption. lia.
Qed.

Lemma find_absent images a : a ∉ ids images -> find images a = None.
Proof.
  induction images as [|first rest IH]; intros Hno; [reflexivity|].
  unfold ids in Hno. rewrite fmap_cons, not_elem_of_cons in Hno.
  destruct Hno as [Hne Hno]. simpl.
  destruct (String.eqb (ProcessedImage.id first) a) eqn:E.
  - apply String.eqb_eq in E. congruence.
  - apply IH, Hno.
Qed.

Lemma find_unique images :
  NoDup (ids images) ->
  forall img, img ∈ images -> find images (ProcessedImage.id img) = Some img.
Proof.
  induction images as [|first rest IH]; intros Hnd img Hin; [inversion Hin|].
  unfold ids in Hnd. rewrite fmap_cons in Hnd. apply NoDup_cons in Hnd as [Hfirst Hnd].
  simpl. apply elem_of_cons in Hin as [->|Hin].
  - rewrite String.eqb_refl. reflexivity.
  - destruct (String.eqb (ProcessedImage.id first) (ProcessedImage.id img)) eqn:E.
    + apply String.eqb_eq in E. exfalso. apply Hfirst. rewrite E.
      apply list_elem_of_fmap. eauto.
    + apply IH; assumption.
Qed.

Lemma findIndex_injective images a b :
  a ∈ ids images -> b ∈ ids images ->
  findIndex images a = findIndex images b -> a = b.
Proof.
  intros Ha Hb E. unfold findIndex in E.
  destruct (findIndexFrom_lookup images 0 a Ha) as (i & img & Hi & <- & _ & Ei).
  destruct (findIndexFrom_lookup images 0 b Hb) as (j & img' & Hj & <- & _ & Ej).
  assert (i = j) by lia. subst j. congruence.
Qed.

Lemma findIndexFrom_tail first rest k a :
  ProcessedImage.id first <> a ->
  findIndexFrom k (first :: rest) a = findIndexFrom (k + 1) rest a.
Proof. intros Hne. simpl. apply String.eqb_neq in Hne as ->. reflexivity. Qed.

Lemma StronglySorted_within {A} (R R' : relation A) (l : list A) :
  (forall a b, a ∈ l -> b ∈ l -> R a b -> R' a b) ->
  StronglySorted R l -> StronglySorted R' l.
Proof.
  intros Himp Hs. induction Hs as [|a l Hl IH Hall]; [constructor|].
  constructor.
  - apply IH. intros x y Hx Hy. apply Himp; right; assumption.
  - apply Forall_forall. intros b Hb. apply Himp; [left|right; exact Hb|].
    eapply Forall_forall in Hall; eassumption.
Qed.

Lemma ids_sorted images :
  NoDup (ids images) ->
  forall k,
    StronglySorted (fun a b => findIndexFrom k images a <= findIndexFrom k images b)
                   (ids images).
Proof.
  induction images as [|first rest IH]; intros Hnd k; [constructor|].
  unfold ids in *. rewrite fmap_cons in *. apply NoDup_cons in Hnd as [Hfirst Hnd].
  assert (Hother : forall b, b ∈ ProcessedImage.id <$> rest ->
                             ProcessedImage.id first <> b).
  { intros b Hb E. apply Hfirst. rewrite E. exact Hb. }
  constructor.
  - eapply StronglySorted_within; [|apply (IH Hnd (k + 1))].
    intros a b Ha Hb Hab. simpl in Hab.
    rewrite !findIndexFrom_tail by (apply Hother; assumption). exact Hab.
  - apply Forall_forall. intros b Hb.
    rewrite (findIndexFrom_tail _ _ _ _ (Hother b Hb)). simpl.
    rewrite String.eqb_refl.
    destruct (findIndexFrom_lookup rest (k + 1) b Hb) as (i & _ & _ & _ & _ & ->).
    lia.
Qed.

Lemma StronglySorted_filter {A} (R : relation A) (P : A -> Prop)
    `{forall x, Decision (P x)} (l : list A) :
  StronglySorted R l -> StronglySorted R (filter P l).
Proof.
  induction 1 as [|a l Hl IH Hall]; [constructor|].
  rewrite filter_cons. destruct (decide (P a)); [|exact IH].
  constructor; [exact IH|].
  apply Forall_forall. intros b Hb. apply list_elem_of_filter in Hb as [_ Hb].
  eapply Forall_forall in Hall; eassumption.
Qed.

Lemma concat_map_filter {A B} (f : A -> list B) (P : A -> Prop)
    `{forall x, Decision (P x)} (l : list A) :
  (forall a, a ∈ l -> ~ P a -> f a = []) ->
  concat (map f l) = concat (map f (filter P l)).
Proof.
  induction l as [|a l IH]; intros Hempty; [reflexivity|].
  rewrite filter_cons. simpl. destruct (decide (P a)); simpl.
  - f_equal. apply IH. intros b Hb. apply Hempty. right. exact Hb.
  - rewrite (Hempty a) by (assumption || left). simpl.
    apply IH. intros b Hb. apply Hempty. right. exact Hb.
Qed.

#[global] Instance byImageIndex_transitive images : Transitive (byImageIndex images).
Proof. unfold byImageIndex. intros a b c. lia. Qed.

#[global] Instance byImageIndex_total images : Total (byImageIndex images).
Proof. unfold byImageIndex. intros a b. lia. Qed.

Lemma objectKeys_lookup (quantities : Quantities) a :
  a ∈ objectKeys quantities <-> exists v, quantities !! a = Some v.
Proof.
  unfold objectKeys. split.
  - intros Hin. apply list_elem_of_fmap in Hin as ([k v] & -> & Hin).
    apply elem_of_map_to_list in Hin. eauto.
  - intros [v Hv]. apply list_elem_of_fmap. exists (a, v).
    split; [reflexivity|]. apply elem_of_map_to_list, Hv.
Qed.

Lemma sortedImageIds_present images (quantities : Quantities) :
  NoDup (ids images) ->
  filter (fun a => a ∈ ids images) (sortedImageIds images quantities)
  = filter (fun a => a ∈ objectKeys quantities) (ids images).
Proof.
  intros Hnd. apply (StronglySorted_unique_strong (byImageIndex images)).
  - intros a b Ha Hb Hab Hba.
    apply list_elem_of_filter in Ha as [Ha _].
    apply list_elem_of_filter in Hb as [_ Hb].
    apply (findIndex_injective images); [assumption..|].
    unfold byImageIndex in *. lia.
  - apply StronglySorted_filter. unfold sortedImageIds.
    apply StronglySorted_merge_sort; apply _.
  - apply StronglySorted_filter. apply (ids_sorted images Hnd 0).
  - apply NoDup_Permutation.
    + apply NoDup_filter. unfold sortedImageIds.
      rewrite merge_sort_Permutation. unfold objectKeys.
      apply NoDup_fst_map_to_list.
    + apply NoDup_filter, Hnd.
    + intros a. rewrite !list_elem_of_filter. unfold sortedImageIds.
      rewrite merge_sort_Permutation. tauto.
Qed.

(** In standard mode, with unique ids, the expansion walks the images in
    list order and emits each one [quantities[id] || 0] times. *)
Lemma imagesToPrint_standard s quantities :
  isRandomSizeMode s = false ->
  NoDup (ids (Settings.images s)) ->
  imagesToPrint s quantities
  = concat (map (fun img =>
                   replicate (Z.to_nat (quantityOf quantities (ProcessedImage.id img)))
                             img)
                (Settings.images s)).
Proof.
  intros Hstd Hnd. unfold imagesToPrint. rewrite Hstd.
  set (images := Settings.images s) in *.
  rewrite expansion_concat. simpl.
  rewrite (concat_map_filter _ (fun a => a ∈ ids images)).
  2:{ intros a _ Hno. unfold emit. rewrite find_absent by assumption. reflexivity. }
  rewrite sortedImageIds_present by assumption.
  rewrite <- (concat_map_filter _ (fun a => a ∈ objectKeys quantities)).
  2:{ intros a _ Hno. unfold emit, quantityOf.
      destruct (quantities !! a) as [v|] eqn:E.
      - exfalso. apply Hno, objectKeys_lookup. eauto.
      - simpl. destruct (find images a); reflexivity. }
  unfold ids. rewrite <- list_fmap_compose. f_equal.
  apply list_fmap_ext. intros i img Hi. simpl. unfold emit.
  rewrite (find_unique images Hnd) by (eapply list_elem_of_lookup_2, Hi).
  reflexivity.
Qed.

(** ** Random-size packing *)

Lemma pushToPage_Forall (P : PositionedImage.t -> Prop) pages pageIndex item pages' :
  Forall (Forall P) pages -> P item ->
  pushToPage pages pageIndex item = Normal pages' ->
  Forall (Forall P) pages'.
Proof.
  intros Hall Hitem. unfold pushToPage.
  destruct (pages !! pageIndex) as [page|] eqn:E; [|discriminate].
  intros [= <-]. apply Forall_insert; [exact Hall|].
  apply Forall_app. split; [|repeat constructor; exact Hitem].
  eapply Forall_lookup_1; eassumption.
Qed.

Lemma placeRandom_fits W H gap T st img :
  lastPageReady st ->
  Forall (Forall (fitsHeight T H)) (Packing.pages st) ->
  exists st', placeRandom W H gap T st img = Normal st'
              /\ lastPageReady st'
              /\ Forall (Forall (fitsHeight T H)) (Packing.pages st').
Proof.
  intros Hready Hall.
  destruct (placeRandom_returns W H gap T st img Hready) as (st' & E & Hready').
  exists st'. split; [exact E|split; [exact Hready'|]].
  unfold placeRandom in E.
  destruct (scaledSize T img) as [w h] eqn:Esize.
  set (st1 := wrapRow W gap w st) in *.
  set (st2 := breakPage H h st1) in *.
  destruct (pushToPage _ _ _) as [pages'|] eqn:Epush; [|discriminate].
  injection E as <-. simpl.
  eapply pushToPage_Forall; [| |exact Epush].
  - subst st2. unfold breakPage. destruct (Qgtb _ _); simpl.
    + apply Forall_app. split; [|repeat constructor].
      subst st1. unfold wrapRow. destruct (_ && _); exact Hall.
    + subst st1. unfold wrapRow. destruct (_ && _); exact Hall.
  - unfold fitsHeight. simpl. rewrite Esize. split; [reflexivity|].
    intros Hh. subst st2. unfold breakPage.
    destruct (Qgtb _ _) eqn:Ebreak; simpl.
    + lra.
    + apply Qgtb_false in Ebreak. exact Ebreak.
Qed.

Lemma packRandom_fits W H gap T imgs :
  forall st,
    lastPageReady st ->
    Forall (Forall (fitsHeight T H)) (Packing.pages st) ->
    exists st', packRandom W H gap T st imgs = Normal st'
                /\ Forall (Forall (fitsHeight T H)) (Packing.pages st').
Proof.
  induction imgs as [|img rest IH]; intros st Hready Hall; simpl.
  - eauto.
  - destruct (placeRandom_fits W H gap T st img Hready Hall) as (st1 & E & H1 & H2).
    rewrite E. simpl. apply IH; assumption.
Qed.

Lemma placeRandom_page_break W H gap T st img :
  lastPageReady st ->
  let w := (scaledSize T img).1 in
  let h := (scaledSize T img).2 in
  (H < Packing.cursor_y (wrapRow W gap w st) + h)%Q ->
  placeRandom W H gap T st img
  = Normal (Packing.mk (Packing.pages st ++ [[PositionedImage.mk img 0 0 w h]])
                       (S (Packing.pageIndex st))
                       (0 + (w + gap)) 0 (Qmax 0 h)).
Proof.
  intros Hready w h Hover. unfold placeRandom.
  destruct (scaledSize T img) as [w' h'] eqn:Esize. simpl in w, h. subst w h.
  unfold breakPage. rewrite (proj2 (Qgtb_true _ _) Hover). simpl.
  assert (Epages : Packing.pages (wrapRow W gap w' st) = Packing.pages st)
    by (unfold wrapRow; destruct (_ && _); reflexivity).
  assert (Eidx : Packing.pageIndex (wrapRow W gap w' st) = Packing.pageIndex st)
    by (unfold wrapRow; destruct (_ && _); reflexivity).
  rewrite Epages, Eidx. unfold lastPageReady in Hready.
  unfold pushToPage. rewrite <- Hready.
  rewrite lookup_app_r by lia. rewrite Nat.sub_diag. simpl.
  rewrite insert_app_r_alt by lia. rewrite Nat.sub_diag. reflexivity.
Qed.

Lemma paginatedLayout_random_fits s quantities :
  isRandomSizeMode s = true ->
  exists pages,
    paginatedLayout s quantities = Normal pages
    /\ Forall (Forall (fitsHeight (targetHeightPx s) (mmToPx (printableHeightMm s))))
              pages.
Proof.
  intros Hrandom. unfold paginatedLayout.
  destruct (_ =? _)%nat; [exists []; split; [reflexivity|constructor]|].
  destruct (_ || _); [exists []; split; [reflexivity|constructor]|].
  rewrite Hrandom. fold (targetHeightPx s).
  edestruct packRandom_fits as (st' & E & Hall); [| |rewrite E].
  - reflexivity.
  - simpl. repeat constructor.
  - simpl. eexists. split; [reflexivity|].
    unfold nonEmptyPages. apply Forall_forall. intros page Hin.
    apply list_elem_of_filter in Hin as [_ Hin].
    revert page Hin. apply Forall_forall, Hall.
Qed.
Lemma panoramas_naturalSize : Forall naturalSize panoramas.
Proof. repeat constructor. Qed.

(** C6, as the code has it.  In random mode, for images of positive
    natural size: whenever the next image (after a possible row wrap)
    would end below the printable height, the packer appends a new page,
    resets the cursor and the row height and places the image at the top
    left of that page.  Every placed instance has the footprint height
    of its image, and unless that height alone exceeds the printable
    height the instance ends within the printable height; in particular
    every unrotated instance does when the scale factor is between 0
    and 1. *)
Theorem C6_random_pages_fit_unless_image_too_tall
    (s : Settings.t) (quantities : Quantities) :
  isRandomSizeMode s = true ->
  let W := mmToPx (printableWidthMm s) in
  let H := mmToPx (printableHeightMm s) in
  let gapPx := mmToPx (gapMm (Settings.noGap s)) in
  let T := targetHeightPx s in
  Forall naturalSize (Settings.images s) ->
  (forall st img,
     naturalSize img ->
     lastPageReady st ->
     let w := (scaledSize T img).1 in
     let h := (scaledSize T img).2 in
     (H < Packing.cursor_y (wrapRow W gapPx w st) + h)%Q ->
     placeRandom W H gapPx T st img
     = Normal (Packing.mk
                 (Packing.pages st ++ [[PositionedImage.mk img 0 0 w h]])
                 (S (Packing.pageIndex st)) (0 + (w + gapPx)) 0 (Qmax 0 h)))
  /\ exists pages,
       paginatedLayout s quantities = Normal pages
       /\ forall page inst, page ∈ pages -> inst ∈ page ->
            PositionedImage.renderHeight inst
            = (scaledSize T (PositionedImage.image inst)).2
            /\ ((PositionedImage.renderHeight inst <= H)%Q ->
                (PositionedImage.y inst + PositionedImage.renderHeight inst <= H)%Q)
            /\ (ProcessedImage.rotation (PositionedImage.image inst) = Rot0 ->
                (0 <= Settings.randomImageScale s <= 1)%Q ->
                (PositionedImage.y inst + PositionedImage.renderHeight inst <= H)%Q).
Proof.
  intros Hrandom W H gapPx T Hnat. split.
  - intros st img _ Hready w h Hover. apply placeRandom_page_break; assumption.
  - destruct (paginatedLayout_random_fits s quantities Hrandom) as (pages & E & Hall).
    exists pages. split; [exact E|].
    intros page inst Hpage Hinst.
    assert (Hfit : fitsHeight T H inst).
    { eapply Forall_forall in Hall; [|exact Hpage].
      eapply Forall_forall in Hall; [exact Hall|exact Hinst]. }
    destruct Hfit as [Eh Hfit]. split; [exact Eh|split; [exact Hfit|]].
    intros Hrot [Hs0 Hs1]. apply Hfit. rewrite Eh.
    unfold scaledSize. rewrite Hrot. simpl.
    destruct (Qlt_le_dec 0 (printableHeightMm s)) as [Hpos|Hneg].
    + assert (HH : (0 < H)%Q) by (apply mmToPx_pos, Hpos).
      subst T. unfold targetHeightPx. fold H.
      assert (Hb : (0 < mmToPx 45)%Q) by (apply mmToPx_pos; lra).
      destruct (Q.min_spec (mmToPx 45) H) as [[Hlt ->]|[Hle ->]]; nra.
    + rewrite paginatedLayout_no_printable_area in E by (right; exact Hneg).
      injection E as <-. inversion Hpage.
Qed.

Lemma C6_random_pages_fit_unless_image_too_tall_witness :
  exists pages,
    paginatedLayout (initialSettings panoramas) ∅ = Normal pages
    /\ forall page inst, page ∈ pages -> inst ∈ page ->
         ProcessedImage.rotation (PositionedImage.image inst) = Rot0 ->
         (PositionedImage.y inst + PositionedImage.renderHeight inst
          <= mmToPx (printableHeightMm (initialSettings panoramas)))%Q.
Proof.
  destruct (C6_random_pages_fit_unless_image_too_tall (initialSettings panoramas) ∅)
    as [_ (pages & E & Hall)]; [reflexivity|exact panoramas_naturalSize|].
  exists pages. split; [exact E|].
  intros page inst Hpage Hinst Hrot.
  destruct (Hall page inst Hpage Hinst) as (_ & _ & Hfit).
  apply Hfit; [exact Hrot|]. vm_compute. split; congruence.
Defined.

(** C6 as stated fails for an image whose scaled height exceeds the
    printable height: on custom 100x150 mm paper in landscape (printable
    height 80 mm) with the scale factor 2 the target height is
    [min(45 mm, 80 mm) * 2 = 90 mm]; the packer starts a new page for
    the image, places it at [y = 0], and the page content ends below
    the printable height. *)
Lemma C6_scaled_image_exceeds_printable_height :
  reachable scaledUp
  /\ isRandomSizeMode (Component.settings scaledUp) = true
  /\ exists inst,
       paginatedLayout (Component.settings scaledUp) (Component.quantities scaledUp)
       = Normal [[inst]]
       /\ (PositionedImage.y inst == 0)%Q
       /\ (PositionedImage.renderHeight inst == mmToPx 90)%Q
       /\ (mmToPx (printableHeightMm (Component.settings scaledUp)) == mmToPx 80)%Q
       /\ (mmToPx (printableHeightMm (Component.settings scaledUp))
           < PositionedImage.y inst + PositionedImage.renderHeight inst)%Q.
Proof.
  split; [repeat apply reachable_dispatch; apply reachable_mount|].
  split; [reflexivity|].
  eexists. split; [vm_compute; reflexivity|].
  vm_compute. repeat split; congruence.
Qed.

(** ** Renderer *)

Lemma loadAll_failure decodes page :
  (exists img, img ∈ page
               /\ decodes (ProcessedImage.dataUrl (PositionedImage.image img)) = false) ->
  exists img, img ∈ page
              /\ decodes (ProcessedImage.dataUrl (PositionedImage.image img)) = false
              /\ loadAll decodes page = Throw (loadError img).
Proof.
  induction page as [|first rest IH]; intros (img & Hin & Hfail).
  - inversion Hin.
  - simpl.
    destruct (decodes (ProcessedImage.dataUrl (PositionedImage.image first))) eqn:E.
    + apply elem_of_cons in Hin as [->|Hin]; [congruence|].
      destruct IH as (img' & Hin' & Hfail' & Eload); [eauto|].
      exists img'. rewrite Eload. simpl.
      split; [right; assumption|split; [assumption|reflexivity]].
    + exists first. split; [left|split; [assumption|reflexivity]].
Qed.

Lemma loadAll_success decodes page :
  (forall img, img ∈ page ->
               decodes (ProcessedImage.dataUrl (PositionedImage.image img)) = true) ->
  loadAll decodes page = Normal page.
Proof.
  induction page as [|first rest IH]; intros Hall; [reflexivity|].
  simpl. rewrite Hall by left. rewrite IH by (intros img Hin; apply Hall; right; exact Hin).
  reflexivity.
Qed.

Lemma memoryError_not_loadError img : memoryError <> loadError img.
Proof. unfold memoryError, loadError. simpl. discriminate. Qed.

(** C9, as the code has it.  When an image of the page fails to load,
    the direct renderer aborts with the error "Failed to load image:
    <id>" of a failing image of the page, but [renderPageToCanvas]
    catches that error and runs the DOM-snapshot fallback: its caller
    gets the fallback's canvas, or, when the fallback throws too, the
    generic memory error; the error naming the image never reaches the
    caller. *)
Theorem C9_load_failure_falls_back
    (decodes : string -> bool) (has2dContext : bool)
    (renderSheetWithHtml2Canvas : SheetProps.t -> Completion Canvas.t)
    (props : SheetProps.t) :
  (exists img, img ∈ SheetProps.page props
               /\ decodes (ProcessedImage.dataUrl (PositionedImage.image img)) = false) ->
  (exists img, img ∈ SheetProps.page props
               /\ decodes (ProcessedImage.dataUrl (PositionedImage.image img)) = false
               /\ renderSheetDirectlyToCanvas decodes true props
                  = Throw (loadError img))
  /\ renderPageToCanvas decodes has2dContext renderSheetWithHtml2Canvas props
     = match renderSheetWithHtml2Canvas props with
       | Normal canvas => Normal canvas
       | Throw _ => Throw memoryError
       end
  /\ (forall img,
        renderPageToCanvas decodes has2dContext renderSheetWithHtml2Canvas props
        <> Throw (loadError img)).
Proof.
  intros Hfail.
  destruct (loadAll_failure decodes _ Hfail) as (img & Hin & Hbad & Eload).
  assert (Edirect : exists m, renderSheetDirectlyToCanvas decodes has2dContext props
                              = Throw m).
  { unfold renderSheetDirectlyToCanvas. destruct has2dContext; simpl; [|eauto].
    rewrite Eload. simpl. eauto. }
  destruct Edirect as [m Edirect].
  assert (Epage : renderPageToCanvas decodes has2dContext renderSheetWithHtml2Canvas props
                  = match renderSheetWithHtml2Canvas props with
                    | Normal canvas => Normal canvas
                    | Throw _ => Throw memoryError
                    end).
  { unfold renderPageToCanvas. rewrite Edirect. reflexivity. }
  split; [|split].
  - exists img. repeat split; try assumption.
    unfold renderSheetDirectlyToCanvas. simpl. rewrite Eload. reflexivity.
  - exact Epage.
  - intros img'. rewrite Epage.
    destruct (renderSheetWithHtml2Canvas props); [discriminate|].
    intros E. apply (memoryError_not_loadError img'). congruence.
Qed.

Lemma C9_load_failure_falls_back_witness :
  renderPageToCanvas (fun _ => false) true failingSnapshot onePhotoProps
  = Throw memoryError.
Proof.
  refine (proj1 (proj2 (C9_load_failure_falls_back (fun _ => false) true
                          failingSnapshot onePhotoProps _))).
  eexists. split; [left|reflexivity].
Defined.

(** C9 as stated fails: with an image that does not decode, the page is
    still rendered when the DOM snapshot succeeds (here to a canvas that
    shows none of the images) and a PDF export completes; when the
    snapshot fails as well, the error that reaches the caller is the
    generic memory error and does not name the image. *)
Lemma C9_broken_image_is_not_reported :
  renderSheetDirectlyToCanvas (fun _ => false) true onePhotoProps
  = Throw "Failed to load image: 1700000000001"
  /\ renderPageToCanvas (fun _ => false) true blankSnapshot onePhotoProps
     = blankSnapshot onePhotoProps
  /\ (exists canvas,
        generatePdf (fun _ => false) true blankSnapshot
                    (initialSettings [samplePhoto "1700000000001"])
                    [SheetProps.page onePhotoProps]
        = Normal (Some [canvas]) /\ Canvas.drawn canvas = [])
  /\ renderPageToCanvas (fun _ => false) true failingSnapshot onePhotoProps
     = Throw "Failed to render page due to memory constraints. Try reducing image count or quality.".
Proof.
  repeat split; try reflexivity.
  eexists. split; reflexivity.
Qed.

Lemma renderSheetDirectlyToCanvas_size decodes props :
  (forall img, img ∈ SheetProps.page props ->
               decodes (ProcessedImage.dataUrl (PositionedImage.image img)) = true) ->
  exists canvas,
    renderSheetDirectlyToCanvas decodes true props = Normal canvas
    /\ Canvas.width canvas
       = mmToPx (Dimensions.width (SheetProps.paperDimensions props))
    /\ Canvas.height canvas
       = mmToPx (Dimensions.height (SheetProps.paperDimensions props)).
Proof.
  intros Hall. unfold renderSheetDirectlyToCanvas. simpl.
  rewrite (loadAll_success _ _ Hall). simpl. eexists. repeat split.
Qed.

(** C2, as the code has it.  The unit converter takes no DPI argument
    and does not round: [mmToPx(mm) = mm / 25.4 * 300] exactly, which is
    within half a pixel of [round(mm / 25.4 * 300)].  The direct
    renderer assigns the unrounded [mmToPx] of the paper width and
    height to the canvas. *)
Theorem C2_mmToPx_scales_without_rounding :
  (forall mm : Q, (mmToPx mm == mm / 25.4 * 300)%Q)
  /\ (forall mm : Q,
        roundedPixels mm DPI = Qfloor (mmToPx mm + (1 # 2))
        /\ (inject_Z (roundedPixels mm DPI) - (1 # 2) <= mmToPx mm)%Q
        /\ (mmToPx mm < inject_Z (roundedPixels mm DPI) + (1 # 2))%Q)
  /\ (forall (decodes : string -> bool) (props : SheetProps.t),
        (forall img, img ∈ SheetProps.page props ->
           decodes (ProcessedImage.dataUrl (PositionedImage.image img)) = true) ->
        exists canvas,
          renderSheetDirectlyToCanvas decodes true props = Normal canvas
          /\ Canvas.width canvas
             = mmToPx (Dimensions.width (SheetProps.paperDimensions props))
          /\ Canvas.height canvas
             = mmToPx (Dimensions.height (SheetProps.paperDimensions props))).
Proof.
  split; [|split].
  - intros mm. unfold mmToPx, DPI. reflexivity.
  - intros mm. unfold roundedPixels.
    change (mm / 25.4 * DPI)%Q with (mmToPx mm).
    split; [reflexivity|].
    assert (Hlo := Qfloor_le (mmToPx mm + (1 # 2))).
    assert (Hhi := Qlt_floor (mmToPx mm + (1 # 2))).
    rewrite inject_Z_plus in Hhi. change (inject_Z 1) with 1%Q in Hhi.
    set (r := inject_Z (Qfloor (mmToPx mm + (1 # 2)))) in *.
    split; lra.
  - apply renderSheetDirectlyToCanvas_size.
Qed.

Lemma C2_mmToPx_scales_without_rounding_witness :
  exists canvas,
    renderSheetDirectlyToCanvas (fun _ => true) true onePhotoProps = Normal canvas
    /\ Canvas.width canvas = mmToPx 210
    /\ Canvas.height canvas = mmToPx 297.
Proof.
  refine (proj2 (proj2 C2_mmToPx_scales_without_rounding) (fun _ => true)
                onePhotoProps _).
  intros img _. reflexivity.
Defined.

(** C2 as stated fails: the converter does not round.  One millimetre is
    1500/127 (about 11.81) pixels, not 12 (in binary64 arithmetic, a
    double between 11.75 and 11.875), and for paper 297 mm wide the
    renderer asks for a canvas of 445500/127 (about 3507.87) pixels,
    which lies below [round(297 / 25.4 * 300) = 3508]. *)
Lemma C2_mmToPx_is_not_rounded :
  (mmToPx 1 == 1500 # 127)%Q
  /\ roundedPixels 1 DPI = 12
  /\ ~ (mmToPx 1 == inject_Z (roundedPixels 1 DPI))%Q
  /\ PrimFloat.ltb 11.75 (Binary64.mmToPx 1)
     && PrimFloat.ltb (Binary64.mmToPx 1) 11.875 = true
  /\ exists canvas,
       renderSheetDirectlyToCanvas (fun _ => true) true landscapeProps
       = Normal canvas
       /\ (Canvas.width canvas == 445500 # 127)%Q
       /\ Qfloor (Canvas.width canvas) = 3507
       /\ roundedPixels 297 DPI = 3508
       /\ ~ (Canvas.width canvas == inject_Z (roundedPixels 297 DPI))%Q.
Proof.
  split; [vm_compute; reflexivity|].
  split; [vm_compute; reflexivity|].
  split; [vm_compute; congruence|].
  split; [vm_compute; reflexivity|].
  eexists. split; [reflexivity|].
  vm_compute. repeat split; congruence.
Qed.

(** * Further properties of the layout code *)

(** ** The standard page *)

(** What a page of the standard branch looks like, for every input. *)
Lemma standard_page_cells s quantities pages page :
  isRandomSizeMode s = false ->
  paginatedLayout s quantities = Normal pages -> page ∈ pages ->
  exists size,
    passportSize s = Some size
    /\ (0 < printableWidthMm s)%Q /\ (0 < printableHeightMm s)%Q
    /\ 0 < Grid.cols (packerGrid s size) * Grid.rows (packerGrid s size)
    /\ pages = [page]
    /\ page = imap (fun k img =>
                      gridCell (packerGrid s size)
                        (mmToPx (gapMm (Settings.noGap s)))
                        (Grid.cols (packerGrid s size) * Grid.rows (packerGrid s size))
                        (Z.of_nat k) img)
                   (take (Z.to_nat (Grid.cols (packerGrid s size)
                                    * Grid.rows (packerGrid s size)))
                         (imagesToPrint s quantities)).
Proof.
  intros Hstd Hlayout Hpage.
  destruct (passportSize s) as [size|] eqn:Esize.
  2:{ unfold passportSize in Esize.
      destruct (Settings.images s) eqn:Eimg; [|discriminate].
      unfold paginatedLayout in Hlayout.
      rewrite imagesToPrint_no_images in Hlayout by assumption.
      simpl in Hlayout. injection Hlayout as <-. inversion Hpage. }
  destruct (Qlt_le_dec 0 (printableWidthMm s)) as [HW|HW].
  2:{ rewrite paginatedLayout_no_printable_area in Hlayout by (left; exact HW).
      injection Hlayout as <-. inversion Hpage. }
  destruct (Qlt_le_dec 0 (printableHeightMm s)) as [HH|HH].
  2:{ rewrite paginatedLayout_no_printable_area in Hlayout by (right; exact HH).
      injection Hlayout as <-. inversion Hpage. }
  assert (E := paginatedLayout_standard s quantities size Hstd Esize HW HH).
  cbv zeta in E.
  set (cap := Grid.cols (packerGrid s size) * Grid.rows (packerGrid s size)) in *.
  assert (Epages : pages = nonEmptyPages
            [if cap >? 0
             then imap (fun k img =>
                          gridCell (packerGrid s size)
                            (mmToPx (gapMm (Settings.noGap s))) cap (Z.of_nat k) img)
                       (take (Z.to_nat cap) (imagesToPrint s quantities))
             else []]) by congruence.
  clear E Hlayout. subst pages.
  exists size. split; [reflexivity|split; [exact HW|split; [exact HH|]]].
  unfold nonEmptyPages in *.
  destruct (cap >? 0) eqn:Ecap.
  - apply list_elem_of_filter in Hpage as [Hlen Hpage].
    apply list_elem_of_singleton in Hpage. subst page.
    split; [lia|]. split; [|reflexivity].
    rewrite filter_cons_True by exact Hlen. reflexivity.
  - apply list_elem_of_filter in Hpage as [Hlen Hpage].
    apply list_elem_of_singleton in Hpage. subst page. simpl in Hlen. lia.
Qed.

Lemma standard_cell_at s quantities size (i : nat) inst :
  let g := packerGrid s size in
  let gapPx := mmToPx (gapMm (Settings.noGap s)) in
  (0 < printableWidthMm s)%Q -> (0 < printableHeightMm s)%Q ->
  0 < Grid.cols g * Grid.rows g ->
  imap (fun k img => gridCell g gapPx (Grid.cols g * Grid.rows g) (Z.of_nat k) img)
       (take (Z.to_nat (Grid.cols g * Grid.rows g)) (imagesToPrint s quantities))
    !! i = Some inst ->
  0 < Grid.cols g /\ 0 < Grid.rows g
  /\ 0 <= Z.of_nat i mod Grid.cols g < Grid.cols g
  /\ 0 <= Z.of_nat i / Grid.cols g < Grid.rows g
  /\ PositionedImage.x inst
     = (inject_Z (Z.of_nat i mod Grid.cols g) * (Grid.totalWidth g + gapPx))%Q
  /\ PositionedImage.y inst
     = (inject_Z (Z.of_nat i / Grid.cols g) * (Grid.totalHeight g + gapPx))%Q
  /\ PositionedImage.renderWidth inst = Grid.totalWidth g
  /\ PositionedImage.renderHeight inst = Grid.totalHeight g.
Proof.
  intros g gapPx HW HH Hcap Hi.
  destruct (packerGrid_nonneg s size HW HH) as [Hcols Hrows].
  fold g in Hcols, Hrows.
  assert (Hcols' : 0 < Grid.cols g) by nia.
  assert (Hrows' : 0 < Grid.rows g) by nia.
  assert (Hlt : (i < length (take (Z.to_nat (Grid.cols g * Grid.rows g))
                                  (imagesToPrint s quantities)))%nat).
  { apply lookup_lt_Some in Hi. rewrite length_imap in Hi. exact Hi. }
  rewrite length_take in Hlt.
  rewrite list_lookup_imap in Hi.
  destruct (take _ _ !! i) as [img|]; [|discriminate].
  assert (Einst : inst = gridCell g gapPx (Grid.cols g * Grid.rows g)
                                  (Z.of_nat i) img)
    by (simpl in Hi; injection Hi as <-; reflexivity).
  rewrite gridCell_row_major in Einst by lia. subst inst.
  cbn [PositionedImage.x PositionedImage.y PositionedImage.renderWidth
       PositionedImage.renderHeight].
  assert (Hm := Z.mod_pos_bound (Z.of_nat i) (Grid.cols g) Hcols').
  split; [lia|]. split; [lia|]. split; [lia|].
  split; [split; [apply Z.div_pos; lia|apply Z.div_lt_upper_bound; lia]|].
  split; [reflexivity|]. split; [reflexivity|]. split; reflexivity.
Qed.

(** ** The random-size packer *)

(** One iteration appends the instance to the last page, after a
    possible wrap and page break. *)
Lemma placeRandom_shape W H gap T st img :
  lastPageReady st ->
  let w := (scaledSize T img).1 in
  let h := (scaledSize T img).2 in
  let st2 := breakPage H h (wrapRow W gap w st) in
  exists init cur,
    Packing.pages st2 = init ++ [cur]
    /\ Packing.pageIndex st2 = length init
    /\ placeRandom W H gap T st img
       = Normal (Packing.mk (init ++ [cur ++ [instanceAt st2 img w h]])
                            (Packing.pageIndex st2)
                            (Packing.cursor_x st2 + (w + gap))
                            (Packing.cursor_y st2)
                            (Qmax (Packing.rowHeight st2) h)).
Proof.
  intros Hready w h st2.
  assert (H2 : lastPageReady st2) by (apply breakPage_ready, wrapRow_ready, Hready).
  unfold lastPageReady in H2.
  destruct (Packing.pages st2) as [|p l] eqn:Epages using rev_ind; [simpl in H2; lia|].
  rewrite length_app in H2. simpl in H2.
  exists l, p. split; [reflexivity|]. split; [lia|].
  unfold placeRandom. destruct (scaledSize T img) as [w' h'] eqn:Esize.
  simpl in w, h. subst w h. fold st2. rewrite Epages.
  assert (Eidx : Packing.pageIndex st2 = length l) by lia.
  unfold pushToPage. rewrite Eidx.
  rewrite lookup_app_r by lia. rewrite Nat.sub_diag. simpl.
  rewrite insert_app_r_alt by lia. rewrite Nat.sub_diag. reflexivity.
Qed.

Lemma wrapRow_pages W gap w st :
  Packing.pages (wrapRow W gap w st) = Packing.pages st.
Proof. unfold wrapRow. destruct (_ && _); reflexivity. Qed.

Lemma breakPage_concat H h st :
  concat (Packing.pages (breakPage H h st)) = concat (Packing.pages st).
Proof.
  unfold breakPage. destruct (Qgtb _ _); [|reflexivity].
  simpl. rewrite concat_app. simpl. apply app_nil_r.
Qed.

Lemma packRandom_placedImages W H gap T imgs :
  forall st,
    lastPageReady st ->
    exists st',
      packRandom W H gap T st imgs = Normal st'
      /\ placedImages (Packing.pages st') = placedImages (Packing.pages st) ++ imgs.
Proof.
  induction imgs as [|img rest IH]; intros st Hready; simpl.
  - exists st. rewrite app_nil_r. auto.
  - destruct (placeRandom_shape W H gap T st img Hready) as (init & cur & Ep & Ei & E).
    rewrite E. simpl.
    destruct (IH (Packing.mk (init ++ [cur ++ [instanceAt
                   (breakPage H (scaledSize T img).2
                      (wrapRow W gap (scaledSize T img).1 st)) img
                   (scaledSize T img).1 (scaledSize T img).2]])
                 (Packing.pageIndex (breakPage H (scaledSize T img).2
                      (wrapRow W gap (scaledSize T img).1 st)))
                 (Packing.cursor_x (breakPage H (scaledSize T img).2
                      (wrapRow W gap (scaledSize T img).1 st))
                  + ((scaledSize T img).1 + gap))
                 (Packing.cursor_y (breakPage H (scaledSize T img).2
                      (wrapRow W gap (scaledSize T img).1 st)))
                 (Qmax (Packing.rowHeight (breakPage H (scaledSize T img).2
                      (wrapRow W gap (scaledSize T img).1 st)))
                       (scaledSize T img).2)))
      as (st' & E' & Hplaced).
    { unfold lastPageReady. simpl. rewrite Ei, length_app. simpl. lia. }
    exists st'. split; [exact E'|]. rewrite Hplaced.
    assert (Hc : concat (Packing.pages st) = concat (init ++ [cur]))
      by (rewrite <- Ep, breakPage_concat, wrapRow_pages; reflexivity).
    unfold placedImages. cbn [Packing.pages]. rewrite Hc.
    rewrite !concat_app. simpl. rewrite !app_nil_r.
    rewrite !map_app. simpl. rewrite <- !app_assoc. reflexivity.
Qed.

Lemma nonEmptyPages_concat pages : concat (nonEmptyPages pages) = concat pages.
Proof.
  unfold nonEmptyPages. induction pages as [|p ps IH]; [reflexivity|].
  rewrite filter_cons. destruct (decide _) as [Hlen|Hlen]; simpl.
  - rewrite IH. reflexivity.
  - destruct p; [simpl; exact IH|simpl in Hlen; lia].
Qed.

Lemma nonEmptyPages_nonempty pages page :
  page ∈ nonEmptyPages pages -> page <> [].
Proof.
  unfold nonEmptyPages. intros Hin ->.
  apply list_elem_of_filter in Hin as [Hlen _]. simpl in Hlen. lia.
Qed.

Lemma paginatedLayout_nonempty_pages s quantities pages page :
  paginatedLayout s quantities = Normal pages -> page ∈ pages -> page <> [].
Proof.
  unfold paginatedLayout. intros E Hin.
  destruct (_ =? _)%nat; [injection E as <-; inversion Hin|].
  destruct (_ || _); [injection E as <-; inversion Hin|].
  destruct (isRandomSizeMode s).
  - destruct (packRandom _ _ _ _ _ _); [|discriminate]. simpl in E.
    injection E as <-. eapply nonEmptyPages_nonempty, Hin.
  - destruct (passportSize s); [|discriminate].
    destruct (_ >? 0).
    + destruct (placeGrid _ _ _ _ _ _ _); [|discriminate]. simpl in E.
      injection E as <-. eapply nonEmptyPages_nonempty, Hin.
    + injection E as <-. eapply nonEmptyPages_nonempty, Hin.
Qed.

(** X3. In random mode with a positive printable area every image is
    placed exactly once: the images of the instances, read page after
    page, are the image list in its order, whatever the quantity map
    holds.  No page is empty, so there are at most as many pages as
    images. *)
Theorem X3_random_mode_places_every_image_once s quantities :
  isRandomSizeMode s = true ->
  (0 < printableWidthMm s)%Q -> (0 < printableHeightMm s)%Q ->
  exists pages,
    paginatedLayout s quantities = Normal pages
    /\ placedImages pages = Settings.images s
    /\ (forall page, page ∈ pages -> page <> [])
    /\ (length pages <= length (Settings.images s))%nat.
Proof.
  intros Hrandom HW HH.
  assert (Himgs : imagesToPrint s quantities = Settings.images s)
    by (unfold imagesToPrint; rewrite Hrandom; reflexivity).
  assert (Hshape : exists pages,
            paginatedLayout s quantities = Normal pages
            /\ placedImages pages = Settings.images s).
  { unfold paginatedLayout. rewrite Himgs.
    destruct (length (Settings.images s) =? 0)%nat eqn:Elen.
    - apply Nat.eqb_eq, nil_length_inv in Elen. rewrite Elen.
      exists []. split; reflexivity.
    - rewrite !mmToPx_le0.
      rewrite (proj2 (Qleb_false _ _) HW), (proj2 (Qleb_false _ _) HH).
      rewrite Hrandom. simpl orb. cbv iota.
      edestruct packRandom_placedImages as (st' & E & Hplaced); [|rewrite E].
      + reflexivity.
      + simpl. eexists. split; [reflexivity|].
        unfold placedImages in *. rewrite nonEmptyPages_concat.
        rewrite Hplaced. reflexivity. }
  destruct Hshape as (pages & E & Hplaced).
  exists pages. split; [exact E|]. split; [exact Hplaced|].
  assert (Hne : forall page, page ∈ pages -> page <> [])
    by (intros page; apply (paginatedLayout_nonempty_pages s quantities pages page E)).
  split; [exact Hne|].
  rewrite <- Hplaced. unfold placedImages. rewrite length_map.
  clear E Hplaced. induction pages as [|p ps IH]; [simpl; lia|].
  simpl. rewrite length_app.
  assert (Hp : p <> []) by (apply Hne; left).
  assert (Hps : (length ps <= length (concat ps))%nat)
    by (apply IH; intros page Hin; apply Hne; right; exact Hin).
  destruct p; [congruence|simpl; lia].
Qed.

Lemma X3_random_mode_places_every_image_once_witness :
  exists pages,
    paginatedLayout (initialSettings panoramas) {["1700000000001" := 0]}
    = Normal pages
    /\ placedImages pages = panoramas.
Proof.
  destruct (X3_random_mode_places_every_image_once (initialSettings panoramas)
              {["1700000000001" := 0]}) as (pages & E & Hplaced & _).
  - reflexivity.
  - vm_compute. reflexivity.
  - vm_compute. reflexivity.
  - exists pages. split; [exact E|exact Hplaced].
Defined.

Lemma separated_sym gap a b : separated gap a b -> separated gap b a.
Proof. unfold separated. tauto. Qed.

Lemma scaledSize_nonneg T img :
  (0 <= T)%Q -> naturalSize img ->
  (0 <= (scaledSize T img).1)%Q /\ (0 <= (scaledSize T img).2)%Q.
Proof.
  intros HT [Hw Hh]. unfold scaledSize.
  assert (Haspect : (0 <= ProcessedImage.width_px img / ProcessedImage.height_px img)%Q).
  { apply Qle_shift_div_l; [exact Hh|]. lra. }
  assert (Hscaled : (0 <= T * (ProcessedImage.width_px img
                               / ProcessedImage.height_px img))%Q)
    by (apply Qmult_le_0_compat; assumption).
  destruct (ProcessedImage.rotation img); simpl; split; assumption.
Qed.

Lemma packingInvariant_ready W gap st : packingInvariant W gap st -> lastPageReady st.
Proof.
  intros (_ & _ & _ & _ & _ & init & cur & Ep & Ei & _).
  unfold lastPageReady. rewrite Ep, Ei, length_app. simpl. lia.
Qed.

Lemma wrapRow_invariant W gap w st :
  (0 <= gap)%Q ->
  packingInvariant W gap st ->
  packingInvariant W gap (wrapRow W gap w st)
  /\ ((Packing.cursor_x (wrapRow W gap w st) == 0)%Q
      \/ (Packing.cursor_x (wrapRow W gap w st) + w <= W)%Q).
Proof.
  intros Hgap (Hx & Hy & Hr & Hwrap & Hsep & init & cur & Ep & Ei & Hcur).
  unfold wrapRow.
  destruct (Qgtb (Packing.cursor_x st) 0) eqn:E1; simpl.
  - destruct (Qgtb (Packing.cursor_x st + w) W) eqn:E2; simpl.
    + split; [|left; reflexivity].
      unfold packingInvariant. simpl.
      split; [lra|]. split; [lra|]. split; [lra|].
      split; [exact Hwrap|]. split; [exact Hsep|].
      exists init, cur. split; [exact Ep|]. split; [exact Ei|].
      eapply Forall_impl; [exact Hcur|].
      intros a [Ha|(Hay & Hax & Hah)]; left; simpl; lra.
    + apply Qgtb_false in E2. split; [|right; exact E2].
      repeat split; try assumption. exists init, cur. auto.
  - apply Qgtb_false in E1. split; [|left; lra].
    repeat split; try assumption. exists init, cur. auto.
Qed.

Lemma breakPage_invariant W H gap h st :
  packingInvariant W gap st ->
  packingInvariant W gap (breakPage H h st)
  /\ ((Packing.cursor_x (breakPage H h st) == 0)%Q
      \/ Packing.cursor_x (breakPage H h st) = Packing.cursor_x st).
Proof.
  intros Hinv. unfold breakPage.
  destruct (Qgtb _ _); [|split; [exact Hinv|right; reflexivity]].
  destruct Hinv as (Hx & Hy & Hr & Hwrap & Hsep & init & cur & Ep & Ei & Hcur).
  split; [|left; reflexivity].
  unfold packingInvariant. simpl.
  split; [lra|]. split; [lra|]. split; [lra|].
  split; [apply Forall_app; split; [exact Hwrap|repeat constructor]|].
  split.
  - apply Forall_app. split; [exact Hsep|]. constructor; [|constructor].
    intros i j a b Ha. rewrite lookup_nil in Ha. discriminate.
  - exists (Packing.pages st), []. split; [reflexivity|]. split; [|constructor].
    rewrite Ep, Ei, length_app. simpl. lia.
Qed.

Lemma pairwiseSeparated_snoc gap cur n :
  pairwiseSeparated gap cur ->
  Forall (fun a => separated gap a n) cur ->
  pairwiseSeparated gap (cur ++ [n]).
Proof.
  intros Hcur Hn i j a b Ha Hb Hne.
  apply lookup_app_Some in Ha as [Ha|[Hi Ha]];
    apply lookup_app_Some in Hb as [Hb|[Hj Hb]].
  - eapply Hcur; eassumption.
  - apply list_lookup_singleton_Some in Hb as [_ <-].
    eapply Forall_lookup_1 in Hn; eassumption.
  - apply list_lookup_singleton_Some in Ha as [_ <-].
    apply separated_sym. eapply Forall_lookup_1 in Hn; eassumption.
  - apply list_lookup_singleton_Some in Ha as [Ha _].
    apply list_lookup_singleton_Some in Hb as [Hb _]. lia.
Qed.

Lemma placeRandom_invariant W H gap T st img :
  (0 <= gap)%Q -> (0 <= T)%Q -> naturalSize img ->
  packingInvariant W gap st ->
  exists st', placeRandom W H gap T st img = Normal st'
              /\ packingInvariant W gap st'.
Proof.
  intros Hgap HT Hnat Hinv.
  destruct (scaledSize_nonneg T img HT Hnat) as [Hw Hh].
  destruct (placeRandom_shape W H gap T st img (packingInvariant_ready _ _ _ Hinv))
    as (init & cur & Ep & Ei & E).
  set (w := (scaledSize T img).1) in *. set (h := (scaledSize T img).2) in *.
  destruct (wrapRow_invariant W gap w st Hgap Hinv) as [Hinv1 Hfit1].
  destruct (breakPage_invariant W H gap h _ Hinv1) as [Hinv2 Hfit2].
  set (st2 := breakPage H h (wrapRow W gap w st)) in *.
  assert (Hfit : (Packing.cursor_x st2 == 0)%Q \/ (Packing.cursor_x st2 + w <= W)%Q).
  { destruct Hfit2 as [Hz|Heq]; [left; exact Hz|]. rewrite Heq. exact Hfit1. }
  destruct Hinv2 as (Hx & Hy & Hr & Hwrap & Hsep & init' & cur' & Ep' & Ei' & Hcur).
  rewrite Ep in Ep'. apply app_inj_tail in Ep' as [<- <-].
  rewrite Ep in Hwrap, Hsep.
  apply Forall_app in Hwrap as [Hwrap_init Hwrap_cur].
  apply Forall_app in Hsep as [Hsep_init Hsep_cur].
  rewrite Forall_singleton in Hwrap_cur. rewrite Forall_singleton in Hsep_cur.
  eexists. split; [exact E|].
  unfold packingInvariant. simpl.
  split; [lra|]. split; [lra|].
  split; [eapply Qle_trans; [exact Hr|apply Q.le_max_l]|].
  split.
  { apply Forall_app. split; [exact Hwrap_init|]. rewrite Forall_singleton.
    apply Forall_app. split; [exact Hwrap_cur|]. rewrite Forall_singleton.
    unfold wrapsWithin, instanceAt. simpl. auto. }
  split.
  { apply Forall_app. split; [exact Hsep_init|]. rewrite Forall_singleton.
    apply pairwiseSeparated_snoc; [exact Hsep_cur|].
    eapply Forall_impl; [exact Hcur|].
    intros a [Ha|(Hay & Hax & Hah)]; unfold separated, instanceAt; simpl.
    - right. right. left. exact Ha.
    - left. exact Hax. }
  exists init, (cur ++ [instanceAt st2 img w h]).
  split; [reflexivity|]. split; [exact Ei|].
  apply Forall_app. split.
  - eapply Forall_impl; [exact Hcur|].
    intros a [Ha|(Hay & Hax & Hah)]; [left; exact Ha|right]. simpl.
    split; [exact Hay|]. split; [lra|].
    eapply Qle_trans; [exact Hah|apply Q.le_max_l].
  - rewrite Forall_singleton. right. unfold instanceAt. simpl.
    split; [reflexivity|]. split; [lra|apply Q.le_max_r].
Qed.

Lemma packRandom_invariant W H gap T imgs :
  (0 <= gap)%Q -> (0 <= T)%Q -> Forall naturalSize imgs ->
  forall st,
    packingInvariant W gap st ->
    exists st', packRandom W H gap T st imgs = Normal st'
                /\ packingInvariant W gap st'.
Proof.
  intros Hgap HT Hall. induction Hall as [|img rest Himg Hrest IH]; intros st Hinv.
  - exists st. split; [reflexivity|exact Hinv].
  - simpl.
    destruct (placeRandom_invariant W H gap T st img Hgap HT Himg Hinv)
      as (st1 & E & Hinv1).
    rewrite E. simpl. apply IH, Hinv1.
Qed.

Lemma paginatedLayout_random_geometry s quantities :
  isRandomSizeMode s = true ->
  (0 <= Settings.randomImageScale s)%Q ->
  Forall naturalSize (Settings.images s) ->
  exists pages,
    paginatedLayout s quantities = Normal pages
    /\ Forall (Forall (wrapsWithin (mmToPx (printableWidthMm s)))) pages
    /\ Forall (pairwiseSeparated (mmToPx (gapMm (Settings.noGap s)))) pages.
Proof.
  intros Hrandom Hscale Hnat. unfold paginatedLayout.
  assert (Himgs : imagesToPrint s quantities = Settings.images s)
    by (unfold imagesToPrint; rewrite Hrandom; reflexivity).
  rewrite Himgs.
  destruct (_ =? _)%nat; [exists []; repeat split; constructor|].
  destruct (Qleb (mmToPx (printableWidthMm s)) 0) eqn:EW;
    [exists []; repeat split; constructor|].
  destruct (Qleb (mmToPx (printableHeightMm s)) 0) eqn:EH;
    [exists []; repeat split; constructor|].
  apply Qleb_false in EH. simpl orb. cbv iota. rewrite Hrandom.
  assert (Hgap := mmToPx_nonneg _ (gapMm_nonneg (Settings.noGap s))).
  assert (HT : (0 <= Qmin (mmToPx 45) (mmToPx (printableHeightMm s))
                     * Settings.randomImageScale s)%Q).
  { apply Qmult_le_0_compat; [|exact Hscale].
    assert (Hb : (0 < mmToPx 45)%Q) by (apply mmToPx_pos; lra).
    destruct (Q.min_spec (mmToPx 45) (mmToPx (printableHeightMm s)))
      as [[_ ->]|[_ ->]]; lra. }
  edestruct (packRandom_invariant (mmToPx (printableWidthMm s))
               (mmToPx (printableHeightMm s))
               (mmToPx (gapMm (Settings.noGap s))) _ (Settings.images s)
               Hgap HT Hnat (Packing.mk [[]] 0 0 0 0))
    as (st' & E & Hinv).
  { unfold packingInvariant. simpl.
    split; [lra|]. split; [lra|]. split; [lra|].
    split; [repeat constructor|]. split.
    - constructor; [|constructor]. intros i j a b Ha.
      rewrite lookup_nil in Ha. discriminate.
    - exists [], []. repeat split. constructor. }
  rewrite E. simpl. eexists. split; [reflexivity|].
  destruct Hinv as (_ & _ & _ & Hwrap & Hsep & _).
  unfold nonEmptyPages. split.
  - apply Forall_forall. intros page Hin.
    apply list_elem_of_filter in Hin as [_ Hin].
    revert page Hin. apply Forall_forall, Hwrap.
  - apply Forall_forall. intros page Hin.
    apply list_elem_of_filter in Hin as [_ Hin].
    revert page Hin. apply Forall_forall, Hsep.
Qed.

(** X4. In random mode, with a non-negative scale factor and images of
    positive natural size, every instance lies at a non-negative
    position and either starts its row at x = 0 or ends within the
    printable width: only the first image of a row can be wider than the
    page. *)
Theorem X4_random_rows_wrap_at_printable_width s quantities pages page inst :
  isRandomSizeMode s = true ->
  (0 <= Settings.randomImageScale s)%Q ->
  Forall naturalSize (Settings.images s) ->
  paginatedLayout s quantities = Normal pages ->
  page ∈ pages -> inst ∈ page ->
  (0 <= PositionedImage.x inst)%Q /\ (0 <= PositionedImage.y inst)%Q
  /\ ((PositionedImage.x inst == 0)%Q
      \/ (PositionedImage.x inst + PositionedImage.renderWidth inst
          <= mmToPx (printableWidthMm s))%Q).
Proof.
  intros Hrandom Hscale Hnat Hlayout Hpage Hinst.
  destruct (paginatedLayout_random_geometry s quantities Hrandom Hscale Hnat)
    as (pages' & E & Hwrap & _).
  rewrite E in Hlayout. injection Hlayout as <-.
  eapply Forall_forall in Hwrap; [|exact Hpage].
  eapply Forall_forall in Hwrap; [|exact Hinst]. exact Hwrap.
Qed.

(** X5. In random mode, with a non-negative scale factor and images of
    positive natural size, two different instances of a page never
    overlap: on one of the two axes the second lies at or beyond the
    position of the first plus its size and the gap, that sum taken as
    the packer takes it when it advances the cursor. *)
Theorem X5_random_instances_do_not_overlap s quantities pages page (i j : nat) a b :
  isRandomSizeMode s = true ->
  (0 <= Settings.randomImageScale s)%Q ->
  Forall naturalSize (Settings.images s) ->
  paginatedLayout s quantities = Normal pages ->
  page ∈ pages -> page !! i = Some a -> page !! j = Some b -> i <> j ->
  separated (mmToPx (gapMm (Settings.noGap s))) a b.
Proof.
  intros Hrandom Hscale Hnat Hlayout Hpage Ha Hb Hne.
  destruct (paginatedLayout_random_geometry s quantities Hrandom Hscale Hnat)
    as (pages' & E & _ & Hsep).
  rewrite E in Hlayout. injection Hlayout as <-.
  eapply Forall_forall in Hsep; [|exact Hpage].
  eapply Hsep; eassumption.
Qed.

Lemma X4_random_rows_wrap_at_printable_width_witness :
  exists pages page inst,
    paginatedLayout (initialSettings panoramas) ∅ = Normal pages
    /\ page ∈ pages /\ inst ∈ page
    /\ (0 <= PositionedImage.x inst)%Q.
Proof.
  destruct (paginatedLayout (initialSettings panoramas) ∅)
    as [pages|] eqn:E; [|vm_compute in E; discriminate].
  destruct pages as [|page rest]; [vm_compute in E; discriminate|].
  destruct page as [|inst page]; [vm_compute in E; discriminate|].
  exists ((inst :: page) :: rest), (inst :: page), inst.
  split; [reflexivity|]. split; [left|]. split; [left|].
  refine (proj1 (X4_random_rows_wrap_at_printable_width (initialSettings panoramas)
                   ∅ _ _ inst _ _ _ E _ _)).
  - reflexivity.
  - vm_compute. discriminate.
  - exact panoramas_naturalSize.
  - left.
  - left.
Defined.

Lemma X5_random_instances_do_not_overlap_witness :
  exists pages page a b,
    paginatedLayout (initialSettings panoramas) ∅ = Normal pages
    /\ page ∈ pages /\ page !! 0%nat = Some a /\ page !! 3%nat = Some b
    /\ separated (mmToPx (gapMm false)) a b.
Proof.
  destruct (paginatedLayout (initialSettings panoramas) ∅)
    as [pages|] eqn:E; [|vm_compute in E; discriminate].
  destruct pages as [|page rest]; [vm_compute in E; discriminate|].
  destruct (page !! 0%nat) as [a|] eqn:Ea;
    [|vm_compute in E; injection E as <- _; discriminate].
  destruct (page !! 3%nat) as [b|] eqn:Eb;
    [|vm_compute in E; injection E as <- _; discriminate].
  exists (page :: rest), page, a, b.
  split; [reflexivity|]. split; [left|]. split; [exact Ea|]. split; [exact Eb|].
  refine (X5_random_instances_do_not_overlap (initialSettings panoramas)
            ∅ _ page 0%nat 3%nat a b _ _ _ E _ Ea Eb _).
  - reflexivity.
  - vm_compute. discriminate.
  - exact panoramas_naturalSize.
  - left.
  - lia.
Defined.

(** ** Quantity expansion and the calculator's grid *)

(** X6. In standard mode, with unique image ids, the list of images to
    print walks the image list in its order and repeats each image as
    often as its quantity says; an image without an entry, or with a
    negative one, is left out.  The order of the keys in the quantity
    map plays no role. *)
Theorem X6_expansion_follows_image_order s quantities :
  isRandomSizeMode s = false ->
  NoDup (ids (Settings.images s)) ->
  imagesToPrint s quantities
  = concat (map (fun img =>
                   replicate (Z.to_nat (quantityOf quantities (ProcessedImage.id img)))
                             img)
                (Settings.images s)).
Proof. apply imagesToPrint_standard. Qed.

Lemma threePhotoSheet_NoDup : NoDup (ids (Settings.images threePhotoSheet)).
Proof. apply (bool_decide_unpack _). vm_compute. reflexivity. Qed.

Lemma X6_expansion_follows_image_order_witness :
  imagesToPrint threePhotoSheet
    {["1700000000003" := 2; "1700000000001" := 1; "1700000000002" := -4]}
  = [samplePhoto "1700000000001"; samplePhoto "1700000000003";
     samplePhoto "1700000000003"].
Proof.
  rewrite (X6_expansion_follows_image_order threePhotoSheet _ eq_refl
             threePhotoSheet_NoDup).
  reflexivity.
Defined.

(** X7. In standard mode with a positive printable area and no cut-mark
    padding (cut marks off, or no gap), the packer's grid is the
    calculator's: its capacity [cols * rows] is the calculator's
    capacity for the photo orientation given by [rotatePhotos], and its
    cell is the bare photo. *)
Theorem X7_packer_grid_is_calculator_grid_without_padding s size :
  passportSize s = Some size ->
  isRandomSizeName (PassportSize.name size) = false ->
  (0 < printableWidthMm s)%Q -> (0 < printableHeightMm s)%Q ->
  Settings.showCutMarks s && negb (Settings.noGap s) = false ->
  let g := packerGrid s size in
  Grid.cols g * Grid.rows g = capacityFor (Settings.rotatePhotos s) (layoutInfo s)
  /\ (Grid.totalWidth g
      == mmToPx (if Settings.rotatePhotos s then PassportSize.height_mm size
                 else PassportSize.width_mm size))%Q
  /\ (Grid.totalHeight g
      == mmToPx (if Settings.rotatePhotos s then PassportSize.width_mm size
                 else PassportSize.height_mm size))%Q.
Proof.
  intros Hsize Hname HW HH Hpad g.
  destruct (packerGrid_matches_calculator_without_padding s size Hsize Hname HW HH Hpad)
    as (Hcap & Ew & Eh).
  fold g in Hcap, Ew, Eh. split; [exact Hcap|].
  rewrite Ew, Eh. unfold mmToPx. split; field.
Qed.

Lemma X7_packer_grid_is_calculator_grid_without_padding_witness :
  Grid.cols (packerGrid threePhotoSheet indiaPassport)
  * Grid.rows (packerGrid threePhotoSheet indiaPassport)
  = capacityFor false (layoutInfo threePhotoSheet).
Proof.
  refine (proj1 (X7_packer_grid_is_calculator_grid_without_padding
                   threePhotoSheet indiaPassport _ _ _ _ _)).
  - reflexivity.
  - reflexivity.
  - vm_compute. reflexivity.
  - vm_compute. reflexivity.
  - reflexivity.
Defined.

(** ** Optimize and fill page *)

Lemma calculateLayoutInfo_rotateForMax paperW paperH photoSize m showCutMarks noGap :
  let li := calculateLayoutInfo paperW paperH photoSize m showCutMarks noGap in
  capacityFor (LayoutInfo.rotateForMax li) li = LayoutInfo.max li
  /\ LayoutInfo.max li = Z.max (LayoutInfo.portrait li) (LayoutInfo.landscape li).
Proof.
  simpl. unfold calculateLayoutInfo.
  destruct photoSize as [size|]; [|split; reflexivity].
  destruct (isRandomSizeName _); [split; reflexivity|].
  destruct (_ || _); [split; reflexivity|].
  simpl. split; [|reflexivity].
  destruct (_ >? _) eqn:E; simpl; lia.
Qed.

Lemma maxPhotos_positive_area s :
  0 < maxPhotos s ->
  (0 < printableWidthMm s)%Q /\ (0 < printableHeightMm s)%Q
  /\ exists size, passportSize s = Some size
                  /\ isRandomSizeName (PassportSize.name size) = false.
Proof.
  unfold maxPhotos, layoutInfo, printableWidthMm, printableHeightMm.
  intros Hpos.
  destruct (passportSize s) as [size|]; [|simpl in Hpos; lia].
  unfold calculateLayoutInfo in Hpos.
  destruct (isRandomSizeName (PassportSize.name size)) eqn:En; [simpl in Hpos; lia|].
  destruct (Qleb _ 0) eqn:EW; [simpl in Hpos; lia|].
  destruct (Qleb (Dimensions.height _ - _ - _) 0) eqn:EH; [simpl in Hpos; lia|].
  apply Qleb_false in EW, EH. eauto.
Qed.

Lemma standard_single_page s quantities size :
  isRandomSizeMode s = false -> passportSize s = Some size ->
  (0 < printableWidthMm s)%Q -> (0 < printableHeightMm s)%Q ->
  countsNonneg quantities ->
  (forall id v, quantities !! id = Some v -> id ∈ ids (Settings.images s)) ->
  let cap := Grid.cols (packerGrid s size) * Grid.rows (packerGrid s size) in
  0 < Z.min (totalCount quantities) cap ->
  exists page,
    paginatedLayout s quantities = Normal [page]
    /\ Z.of_nat (length page) = Z.min (totalCount quantities) cap.
Proof.
  intros Hstd Hsize HW HH Hnn Hkeys cap Hplaced.
  assert (Hlen := imagesToPrint_length s quantities Hstd Hnn Hkeys).
  rewrite (paginatedLayout_standard s quantities size) by assumption.
  fold cap. assert (Ecap : (cap >? 0) = true) by lia. rewrite Ecap.
  set (page := imap _ _).
  assert (Hpagelen : Z.of_nat (length page) = Z.min (totalCount quantities) cap).
  { subst page. rewrite length_imap, length_take. lia. }
  exists page. split; [|exact Hpagelen].
  unfold nonEmptyPages. rewrite filter_cons_True by lia. reflexivity.
Qed.

Lemma handleFillPage_filled s quantities size :
  isRandomSizeMode s = false -> passportSize s = Some size ->
  let s' := (handleFillPage s quantities).1 in
  let quantities' := (handleFillPage s quantities).2 in
  Settings.images s' = Settings.images s
  /\ Settings.showCutMarks s' = Settings.showCutMarks s
  /\ Settings.noGap s' = Settings.noGap s
  /\ (forall o, maxPhotos (setPaperOrientation s o) <= maxPhotos s')
  /\ capacityFor (Settings.rotatePhotos s') (layoutInfo s') = maxPhotos s'
  /\ (if maxPhotos s' <=? 0
      then forall id v, quantities' !! id = Some v -> v = 0
      else quantities' = fillEvenly (Settings.images s) (maxPhotos s')).
Proof.
  intros Hstd Hsize. unfold handleFillPage. rewrite Hsize, Hstd, orb_false_r.
  assert (Hne : (length (Settings.images s) =? 0)%nat = false).
  { unfold passportSize in Hsize. destruct (Settings.images s); [discriminate|].
    reflexivity. }
  rewrite Hne.
  set (base := basePaperDimensions s).
  set (pResult := calculateLayoutInfo (Dimensions.width base) _ _ _ _ _).
  set (lResult := calculateLayoutInfo (Dimensions.height base) _ _ _ _ _).
  set (better := LayoutInfo.max lResult >? LayoutInfo.max pResult).
  set (maxForFill := if better then _ else _).
  set (s1 := withFill s _ _).
  assert (Hlayout : layoutInfo s1 = if better then lResult else pResult).
  { unfold layoutInfo, paperDimensions, passportSize in *.
    subst s1. simpl. rewrite Hsize. fold base. destruct better; reflexivity. }
  assert (Hmax : maxPhotos s1 = maxForFill).
  { unfold maxPhotos. rewrite Hlayout. subst maxForFill. destruct better; reflexivity. }
  assert (Hrot : Settings.rotatePhotos s1
                 = LayoutInfo.rotateForMax (if better then lResult else pResult)).
  { subst s1. simpl. destruct better; reflexivity. }
  assert (Hgoal : Settings.images s1 = Settings.images s
          /\ Settings.showCutMarks s1 = Settings.showCutMarks s
          /\ Settings.noGap s1 = Settings.noGap s
          /\ (forall o, maxPhotos (setPaperOrientation s o) <= maxPhotos s1)
          /\ capacityFor (Settings.rotatePhotos s1) (layoutInfo s1) = maxPhotos s1).
  { split; [reflexivity|]. split; [reflexivity|]. split; [reflexivity|]. split.
    - intros o. rewrite Hmax.
      assert (Eo : maxPhotos (setPaperOrientation s o)
                   = match o with
                     | OrientLandscape => LayoutInfo.max lResult
                     | OrientPortrait => LayoutInfo.max pResult
                     end).
      { unfold maxPhotos, layoutInfo, paperDimensions, passportSize in *.
        simpl. rewrite Hsize. fold base. destruct o; reflexivity. }
      rewrite Eo. subst maxForFill better.
      destruct (_ >? _) eqn:E, o; lia.
    - rewrite Hrot, Hlayout. unfold maxPhotos. rewrite Hlayout.
      destruct better; [subst lResult|subst pResult];
        apply calculateLayoutInfo_rotateForMax. }
  destruct Hgoal as (H1 & H2 & H3 & H4 & H5).
  destruct (maxForFill <=? 0) eqn:E; simpl;
    (split; [exact H1|split; [exact H2|split; [exact H3|split; [exact H4|split;
       [exact H5|]]]]]); rewrite Hmax, E.
  - intros id v Hv. apply zeros_lookup in Hv as [[-> _]|Hv]; [reflexivity|].
    rewrite lookup_empty in Hv. discriminate.
  - reflexivity.
Qed.

(** X8. Pressing "optimize and fill page" in standard mode with at least
    one image (ids unique): the images are kept; the paper orientation
    chosen holds at least as many photos as either orientation of the
    previous settings; the photo orientation is the one the capacity was
    computed for; after the effects the quantities sum to the new
    capacity; and, when no cut-mark padding applies and the capacity is
    positive, the layout is a single page with exactly that many photos. *)
Theorem X8_fill_page_fills_the_sheet c :
  let s := Component.settings c in
  let c' := dispatch c EvFillPage in
  let s' := Component.settings c' in
  isRandomSizeMode s = false -> Settings.images s <> [] ->
  NoDup (ids (Settings.images s)) ->
  Settings.images s' = Settings.images s
  /\ (forall o, maxPhotos (setPaperOrientation s o) <= maxPhotos s')
  /\ capacityFor (Settings.rotatePhotos s') (layoutInfo s') = maxPhotos s'
  /\ totalCount (Component.quantities c') = maxPhotos s'
  /\ (Settings.showCutMarks s && negb (Settings.noGap s) = false ->
      0 < maxPhotos s' ->
      exists page,
        paginatedLayout s' (Component.quantities c') = Normal [page]
        /\ Z.of_nat (length page) = maxPhotos s').
Proof.
  destruct c as [s q p]. cbn [Component.settings]. intros Hstd Hne Hnd.
  assert (Hsize : exists size, passportSize s = Some size).
  { unfold passportSize. destruct (Settings.images s); [congruence|eauto]. }
  destruct Hsize as [size Hsize].
  destruct (handleFillPage_filled s q size Hstd Hsize)
    as (Himg & Hmarks & Hgap & Hbest & Hrot & Hq).
  unfold dispatch, handle. cbn [Component.settings Component.quantities
    Component.currentPage replacesImages]. rewrite Hstd. cbn [negb].
  destruct (handleFillPage s q) as [s1 q1]. cbn [fst snd] in *.
  unfold settle. cbn [Component.settings Component.quantities Component.currentPage].
  assert (Hstd1 : isRandomSizeMode s1 = false)
    by (rewrite (isRandomSizeMode_images s s1 Himg); exact Hstd).
  match goal with
  | |- context [if ?deps then quantitiesEffect s1 q1 else q1] =>
      set (q' := if deps then quantitiesEffect s1 q1 else q1)
  end.
  assert (Hne1 : Settings.images s1 <> []) by (rewrite Himg; exact Hne).
  assert (Hq' : if maxPhotos s1 <=? 0
                then forall id v, q' !! id = Some v -> v = 0
                else q' = fillEvenly (Settings.images s) (maxPhotos s1)).
  { subst q'. destruct (_ || _); [|exact Hq].
    rewrite quantitiesEffect_standard by exact Hstd1.
    destruct (maxPhotos s1 <=? 0) eqn:E.
    - assert (Egt : (maxPhotos s1 >? 0) = false) by lia.
      rewrite Egt, andb_false_r. intros id v Hv.
      rewrite lookup_empty in Hv. discriminate.
    - assert (Egt : (maxPhotos s1 >? 0) = true) by lia.
      assert (Elen : (0 <? length (Settings.images s1))%nat = true).
      { destruct (Settings.images s1); [congruence|reflexivity]. }
      rewrite Egt, Elen, Himg. reflexivity. }
  assert (Htotal : totalCount q' = maxPhotos s1).
  { destruct (maxPhotos s1 <=? 0) eqn:E.
    - rewrite totalCount_zeros by exact Hq'.
      pose proof (maxPhotos_nonneg s1). lia.
    - rewrite Hq'. apply fillEvenly_evenShare; [exact Hnd|exact Hne|lia]. }
  split; [exact Himg|]. split; [exact Hbest|]. split; [exact Hrot|].
  split; [exact Htotal|].
  intros Hpad Hpos.
  assert (E : (maxPhotos s1 <=? 0) = false) by lia. rewrite E in Hq'.
  destruct (maxPhotos_positive_area s1 Hpos) as (HW & HH & size1 & Hsize1 & Hname).
  assert (Hpad1 : Settings.showCutMarks s1 && negb (Settings.noGap s1) = false)
    by (rewrite Hmarks, Hgap; exact Hpad).
  destruct (packerGrid_matches_calculator_without_padding s1 size1 Hsize1 Hname
              HW HH Hpad1) as (Hcap & _).
  destruct (fillEvenly_fits (Settings.images s) (maxPhotos s1) (maxPhotos_nonneg s1) Hne)
    as [_ Hnn].
  destruct (standard_single_page s1 q' size1 Hstd1 Hsize1 HW HH) as (page & Epage & Hlen).
  - rewrite Hq'. exact Hnn.
  - intros id v. rewrite Hq', Himg. apply fillEvenly_keys.
  - rewrite Hcap, Hrot, Htotal. lia.
  - exists page. split; [exact Epage|]. rewrite Hlen, Hcap, Hrot, Htotal. lia.
Qed.

Lemma X8_fill_page_fills_the_sheet_witness :
  let c' := dispatch (Component.mk threePhotoSheet ∅ 1) EvFillPage in
  totalCount (Component.quantities c') = maxPhotos (Component.settings c')
  /\ exists page,
       paginatedLayout (Component.settings c') (Component.quantities c')
       = Normal [page]
       /\ Z.of_nat (length page) = maxPhotos (Component.settings c').
Proof.
  destruct (X8_fill_page_fills_the_sheet (Component.mk threePhotoSheet ∅ 1))
    as (_ & _ & _ & Htotal & Hpage).
  - reflexivity.
  - discriminate.
  - exact threePhotoSheet_NoDup.
  - split; [exact Htotal|]. apply Hpage; [reflexivity|vm_compute; reflexivity].
Defined.

(** ** Rotating a photo, and the margins *)

Lemma handleRotateImage_ids images id :
  ids (handleRotateImage images id) = ids images.
Proof.
  unfold ids, handleRotateImage. rewrite map_map. apply map_ext.
  intros img. destruct (String.eqb _ _); reflexivity.
Qed.

Lemma handleRotateImage_sizes images id :
  map ProcessedImage.size (handleRotateImage images id)
  = map ProcessedImage.size images.
Proof.
  unfold handleRotateImage. rewrite map_map. apply map_ext.
  intros img. destruct (String.eqb _ _); reflexivity.
Qed.

Lemma handleRotateImage_involutive images id :
  handleRotateImage (handleRotateImage images id) id = images.
Proof.
  unfold handleRotateImage. rewrite map_map. rewrite <- (map_id images) at 2.
  apply map_ext. intros img.
  destruct (String.eqb (ProcessedImage.id img) id) eqn:E.
  - cbn [toggleRotation ProcessedImage.id]. rewrite E.
    destruct img as [i d sz w h []]; reflexivity.
  - rewrite E. reflexivity.
Qed.

Lemma passportSize_sizes s s' :
  map ProcessedImage.size (Settings.images s')
  = map ProcessedImage.size (Settings.images s) ->
  passportSize s' = passportSize s.
Proof.
  unfold passportSize. intros E.
  destruct (Settings.images s'), (Settings.images s); try discriminate;
    [reflexivity|]. injection E as -> _. reflexivity.
Qed.

Lemma shareOut_loop_ids base images images' :
  ids images' = ids images ->
  forall acc, foldl (shareOut base) acc images' = foldl (shareOut base) acc images.
Proof.
  revert images'. induction images as [|img rest IH]; intros [|img' rest'] E acc;
    try discriminate; [reflexivity|].
  unfold ids in E. cbn [map] in E. injection E as E1 E2.
  cbn [foldl]. rewrite (IH rest' E2).
  destruct acc as [q r]. unfold shareOut at 2 4. rewrite E1. reflexivity.
Qed.

Lemma fillEvenly_ids images images' total :
  ids images' = ids images -> fillEvenly images' total = fillEvenly images total.
Proof.
  intros E. unfold fillEvenly.
  assert (Elen : length images' = length images).
  { unfold ids in E. apply (f_equal length) in E. rewrite !length_map in E. exact E. }
  rewrite Elen, (shareOut_loop_ids _ images images' E). reflexivity.
Qed.

(** X9. Rotating a photo in standard mode toggles only that photo's
    rotation: ids, sizes and the capacity stay, and a second press
    restores the settings.  Because the handler installs a new image
    array, the quantity effect runs: whatever quantities were set before
    are replaced by the even share of the capacity among the images. *)
Theorem X9_rotating_a_photo_resets_quantities c id :
  let s := Component.settings c in
  let c' := dispatch c (EvRotateImage id) in
  let s' := Component.settings c' in
  isRandomSizeMode s = false ->
  ids (Settings.images s') = ids (Settings.images s)
  /\ map ProcessedImage.size (Settings.images s')
     = map ProcessedImage.size (Settings.images s)
  /\ maxPhotos s' = maxPhotos s
  /\ Component.quantities c' = quantitiesEffect s ∅
  /\ Component.settings (dispatch c' (EvRotateImage id)) = s.
Proof.
  destruct c as [s q p]. cbn [Component.settings]. intros Hstd.
  assert (Hd : dispatch (Component.mk s q p) (EvRotateImage id)
               = let s1 := setImages s (handleRotateImage (Settings.images s) id) in
                 let q1 := quantitiesEffect s1 q in
                 Component.mk s1 q1 (currentPageEffect p (pageCount s1 q1))).
  { unfold dispatch, handle, replacesImages, settle.
    cbn [Component.settings Component.quantities Component.currentPage].
    rewrite Hstd. reflexivity. }
  rewrite Hd. clear Hd. cbv zeta.
  cbn [Component.settings Component.quantities Component.currentPage].
  set (s1 := setImages s (handleRotateImage (Settings.images s) id)).
  assert (Hids : ids (Settings.images s1) = ids (Settings.images s))
    by apply handleRotateImage_ids.
  assert (Hsizes : map ProcessedImage.size (Settings.images s1)
                   = map ProcessedImage.size (Settings.images s))
    by apply handleRotateImage_sizes.
  assert (Hps : passportSize s1 = passportSize s)
    by (apply passportSize_sizes; exact Hsizes).
  assert (Hstd1 : isRandomSizeMode s1 = false)
    by (unfold isRandomSizeMode in *; rewrite Hps; exact Hstd).
  assert (Hmax : maxPhotos s1 = maxPhotos s).
  { unfold maxPhotos, layoutInfo. rewrite Hps. reflexivity. }
  split; [exact Hids|]. split; [exact Hsizes|]. split; [exact Hmax|]. split.
  - rewrite !quantitiesEffect_standard by assumption.
    rewrite Hmax, (fillEvenly_ids _ _ _ Hids).
    assert (Elen : length (Settings.images s1) = length (Settings.images s)).
    { unfold ids in Hids. apply (f_equal length) in Hids.
      rewrite !length_map in Hids. exact Hids. }
    rewrite Elen. reflexivity.
  - unfold dispatch, handle, settle.
    cbn [Component.settings Component.quantities Component.currentPage].
    rewrite Hstd1. cbn [negb]. cbn [Component.settings].
    subst s1. cbn [setImages Settings.images]. unfold setImages.
    cbn [Settings.images Settings.showCutMarks Settings.paperType
         Settings.customPaperSize Settings.paperOrientation Settings.margins
         Settings.noGap Settings.rotatePhotos Settings.randomImageScale].
    rewrite handleRotateImage_involutive. destruct s; reflexivity.
Qed.

Lemma X9_rotating_a_photo_resets_quantities_witness :
  Component.quantities
    (dispatch (Component.mk threePhotoSheet {["1700000000001" := 5]} 1)
              (EvRotateImage "1700000000002"))
  = quantitiesEffect threePhotoSheet ∅.
Proof.
  refine (proj1 (proj2 (proj2 (proj2
    (X9_rotating_a_photo_resets_quantities
       (Component.mk threePhotoSheet {["1700000000001" := 5]} 1)
       "1700000000002" _))))).
  reflexivity.
Defined.

Lemma handleMarginChange_nonneg m side numValue :
  marginsNonneg m -> marginsNonneg (handleMarginChange m side numValue).
Proof.
  intros (Ht & Hr & Hb & Hl). unfold handleMarginChange.
  destruct (Qleb 0 numValue) eqn:E; [|repeat split; assumption].
  apply Qleb_true in E.
  destruct side; repeat split; assumption.
Qed.

Lemma handleFillPage_margins s quantities :
  Settings.margins (handleFillPage s quantities).1 = Settings.margins s.
Proof.
  unfold handleFillPage. destruct (passportSize s); [|reflexivity].
  destruct (_ || _); [reflexivity|].
  destruct (_ <=? 0); reflexivity.
Qed.

Lemma handle_margins c ev :
  marginsNonneg (Settings.margins (Component.settings c)) ->
  marginsNonneg (Settings.margins (Component.settings (handle c ev))).
Proof.
  intros H. destruct c as [s q p]. cbn [Component.settings] in H.
  destruct ev; cbn [handle Component.settings Component.quantities
                    Component.currentPage];
    try exact H;
    try (destruct (negb (isRandomSizeMode s)); exact H);
    try (destruct (isRandomSizeMode s); exact H);
    try (destruct (Settings.paperType s); exact H).
  - apply handleMarginChange_nonneg, H.
  - destruct (_ && _); exact H.
  - destruct (negb (isRandomSizeMode s)); [|exact H].
    pose proof (handleFillPage_margins s q) as E.
    destruct (handleFillPage s q) as [s' q']. cbn [fst] in E.
    cbn [Component.settings]. rewrite E. exact H.
  - destruct (_ && _); exact H.
  - destruct (_ && _); exact H.
Qed.

(** X10. In every state the component can reach, all four margins are
    non-negative: they start at 10 mm and the margin handler drops a
    negative input. *)
Theorem X10_margins_never_negative c :
  reachable c -> marginsNonneg (Settings.margins (Component.settings c)).
Proof.
  induction 1 as [images|c ev Hreach IH].
  - unfold marginsNonneg. cbn. repeat split; discriminate.
  - unfold dispatch, settle. cbn [Component.settings].
    apply handle_margins, IH.
Qed.

Lemma X10_margins_never_negative_witness :
  marginsNonneg
    (Settings.margins
       (Component.settings
          (dispatch (dispatch (mount [samplePhoto "1700000000001"])
                              (EvMargin SideTop (-5)))
                    (EvMargin SideLeft 0)))).
Proof.
  apply X10_margins_never_negative.
  apply reachable_dispatch, reachable_dispatch, reachable_mount.
Defined.

(** ** Quantity sliders and the single standard page *)

Lemma sliderMax_is_handler_bound s quantities id :
  0 < maxPhotos s ->
  sliderMax s quantities id = maxPhotos s - totalWithout quantities id.
Proof.
  intros Hpos. unfold sliderMax, quantityOf.
  assert (E : (maxPhotos s >? 0) = true) by lia. rewrite E.
  destruct (quantities !! id) as [v|] eqn:Ev; simpl.
  - rewrite (totalCount_split _ _ _ Ev). lia.
  - rewrite (totalWithout_absent _ _ Ev). lia.
Qed.

(** X12. In standard mode with a positive capacity the upper end of a
    quantity slider is exactly the bound the change handler computes.
    So every value the slider can send, from 0 to its maximum, is stored
    as it is; only that image's entry changes; and at the maximum the
    quantities sum to the capacity. *)
Theorem X12_slider_range_is_handler_bound s quantities id value :
  isRandomSizeMode s = false -> 0 < maxPhotos s ->
  0 <= value <= sliderMax s quantities id ->
  handleQuantityChange s quantities id value = <[id := value]> quantities
  /\ totalCount (<[id := value]> quantities)
     = totalCount quantities - quantityOf quantities id + value
  /\ (value = sliderMax s quantities id ->
      totalCount (<[id := value]> quantities) = maxPhotos s).
Proof.
  intros Hstd Hpos Hrange.
  pose proof (sliderMax_is_handler_bound s quantities id Hpos) as Hmax.
  rewrite handleQuantityChange_standard by exact Hstd.
  rewrite Z.min_l by lia.
  assert (E : (value >=? 0) = true) by lia. rewrite E.
  split; [reflexivity|]. rewrite totalCount_insert. split; [|lia].
  unfold quantityOf. destruct (quantities !! id) as [v|] eqn:Ev; simpl.
  - rewrite (totalCount_split _ _ _ Ev). lia.
  - rewrite (totalWithout_absent _ _ Ev). lia.
Qed.

Lemma X12_slider_range_is_handler_bound_witness :
  handleQuantityChange threePhotoSheet
    {["1700000000001" := 10; "1700000000002" := 9]} "1700000000002" 18
  = {["1700000000001" := 10; "1700000000002" := 18]}.
Proof.
  rewrite (proj1 (X12_slider_range_is_handler_bound threePhotoSheet
                    {["1700000000001" := 10; "1700000000002" := 9]}
                    "1700000000002" 18 eq_refl eq_refl
                    ltac:(vm_compute; split; discriminate))).
  apply (bool_decide_unpack _). vm_compute. reflexivity.
Defined.

Lemma standard_pageCount s quantities :
  isRandomSizeMode s = false -> pageCount s quantities <= 1.
Proof.
  intros Hstd. unfold pageCount.
  destruct (passportSize s) as [size|] eqn:Esize.
  - destruct (Qleb (printableWidthMm s) 0) eqn:EW;
      [|destruct (Qleb (printableHeightMm s) 0) eqn:EH].
    + apply Qleb_true in EW.
      rewrite paginatedLayout_no_printable_area by (left; exact EW). simpl. lia.
    + apply Qleb_true in EH.
      rewrite paginatedLayout_no_printable_area by (right; exact EH). simpl. lia.
    + apply Qleb_false in EW, EH.
      rewrite (paginatedLayout_standard s quantities size Hstd Esize EW EH).
      unfold nonEmptyPages.
      match goal with
      | |- Z.of_nat (length (filter ?P ?l)) <= 1 =>
          pose proof (length_filter P l) as Hlen
      end.
      cbn [length] in Hlen. lia.
  - unfold paginatedLayout.
    rewrite imagesToPrint_no_images; [simpl; lia|].
    unfold passportSize in Esize.
    destruct (Settings.images s); [reflexivity|discriminate].
Qed.

(** X11. In standard mode the layout never has more than one page,
    whatever the quantities; in every state the component can reach in
    that mode the current page is 1, the page bar is hidden, and the
    page buttons change nothing. *)
Theorem X11_standard_mode_has_one_page c :
  reachable c -> isRandomSizeMode (Component.settings c) = false ->
  pageCount (Component.settings c) (Component.quantities c) <= 1
  /\ Component.currentPage c = 1
  /\ pageBarShown c = false
  /\ dispatch c EvPrev = c /\ dispatch c EvNext = c.
Proof.
  intros Hreach Hstd.
  destruct (reachable_invariants c Hreach) as [_ [Hlo Hhi]].
  pose proof (standard_pageCount _ (Component.quantities c) Hstd) as Hcount.
  pose proof (pageCount_nonneg (Component.settings c) (Component.quantities c)) as Hnn.
  assert (Hp : Component.currentPage c = 1) by lia.
  assert (Hbar : pageBarShown c = false)
    by (unfold pageBarShown; rewrite Hstd; reflexivity).
  split; [exact Hcount|]. split; [exact Hp|]. split; [exact Hbar|].
  assert (Hsettle : settle c false c = c).
  { unfold settle. rewrite Z.eqb_refl, eqb_reflx. cbn [negb orb].
    destruct c as [s q p]. cbn [Component.settings Component.quantities
      Component.currentPage] in *. subst p. f_equal.
    unfold currentPageEffect.
    destruct (1 >? pageCount s q) eqn:E1, (pageCount s q >? 0) eqn:E2,
             (pageCount s q =? 0) eqn:E3; simpl; lia. }
  unfold dispatch, handle, replacesImages. rewrite Hbar. cbn [andb].
  split; exact Hsettle.
Qed.

Lemma X11_standard_mode_has_one_page_witness :
  Component.currentPage
    (dispatch (mount (Settings.images threePhotoSheet)) EvFillPage) = 1.
Proof.
  refine (proj1 (proj2 (X11_standard_mode_has_one_page _ _ _))).
  - apply reachable_dispatch, reachable_mount.
  - reflexivity.
Defined.

(** ** Export and print *)

Lemma renderPageToCanvas_error
    (decodes : string -> bool) (has2dContext : bool)
    (renderSheetWithHtml2Canvas : SheetProps.t -> Completion Canvas.t) props e :
  renderPageToCanvas decodes has2dContext renderSheetWithHtml2Canvas props = Throw e ->
  e = memoryError.
Proof.
  unfold renderPageToCanvas, tryCatch.
  destruct (renderSheetDirectlyToCanvas _ _ _); [discriminate|].
  destruct (renderSheetWithHtml2Canvas _); [discriminate|].
  intros E. injection E as <-. reflexivity.
Qed.

Lemma addPages_spec
    (decodes : string -> bool) (has2dContext : bool)
    (renderSheetWithHtml2Canvas : SheetProps.t -> Completion Canvas.t)
    (call : Library.Call -> Completion unit) s pages :
  let render :=
    renderPageToCanvas decodes has2dContext renderSheetWithHtml2Canvas in
  forall i,
  match Library.addPages decodes has2dContext renderSheetWithHtml2Canvas call
          s i pages with
  | Normal sheets =>
      Forall2 (fun page canvas =>
                 render (sheetPropsOf s page) = Normal canvas
                 /\ call (Library.ToDataURL canvas) = Normal tt)
              pages sheets
  | Throw e =>
      exists before page after,
        pages = before ++ page :: after
        /\ Forall (fun done => exists canvas,
                     render (sheetPropsOf s done) = Normal canvas) before
        /\ ((render (sheetPropsOf s page) = Throw memoryError /\ e = memoryError)
            \/ exists c, call c = Throw e)
  end.
Proof.
  intros render. induction pages as [|page rest IH]; intros i; [constructor|].
  cbn [Library.addPages]. fold render.
  destruct (if (0 <? i)%nat then call (Library.AddPage i) else Normal tt)
    as [[]|e] eqn:Eadd.
  2:{ cbn [mbind Completion_bind bindC].
      exists [], page, rest. split; [reflexivity|]. split; [constructor|].
      right. exists (Library.AddPage i).
      destruct (0 <? i)%nat; [exact Eadd|discriminate]. }
  cbn [mbind Completion_bind bindC].
  destruct (render (sheetPropsOf s page)) as [canvas|e] eqn:Epage.
  2:{ pose proof (renderPageToCanvas_error _ _ _ _ _ Epage) as ->.
      cbn [mbind Completion_bind bindC].
      exists [], page, rest. split; [reflexivity|]. split; [constructor|].
      left. split; [exact Epage|reflexivity]. }
  cbn [mbind Completion_bind bindC].
  destruct (call (Library.ToDataURL canvas)) as [[]|e] eqn:Eurl.
  2:{ cbn [mbind Completion_bind bindC].
      exists [], page, rest. split; [reflexivity|]. split; [constructor|].
      right. eauto. }
  cbn [mbind Completion_bind bindC].
  destruct (call (Library.AddImage i canvas _ _)) as [[]|e] eqn:Eimage.
  2:{ cbn [mbind Completion_bind bindC].
      exists [], page, rest. split; [reflexivity|]. split; [constructor|].
      right. eauto. }
  cbn [bindC]. specialize (IH (S i)).
  destruct (Library.addPages _ _ _ _ s (S i) rest) as [sheets|e].
  - constructor; [split; assumption|exact IH].
  - destruct IH as (before & bad & after & -> & Hdone & Hbad).
    exists (page :: before), bad, after. split; [reflexivity|].
    split; [|exact Hbad]. constructor; [eauto|exact Hdone].
Qed.

(** X13. [generatePdf] is all or nothing.  It returns [null] exactly for
    an empty layout.  When it returns a document, every page of the
    layout was rendered, in order, one sheet per page.  When it fails,
    either a call into jsPDF or [canvas.toDataURL] threw that error, or
    some page could be rendered by neither renderer and the error is the
    fixed memory message; the pages before the failing one were
    rendered. *)
Theorem X13_generatePdf_renders_every_page_or_fails
    (decodes : string -> bool) (has2dContext : bool)
    (renderSheetWithHtml2Canvas : SheetProps.t -> Completion Canvas.t)
    (call : Library.Call -> Completion unit)
    (s : Settings.t) (pages : list Page) :
  let render :=
    renderPageToCanvas decodes has2dContext renderSheetWithHtml2Canvas in
  match Library.generatePdf decodes has2dContext renderSheetWithHtml2Canvas call
          s pages with
  | Normal None => pages = []
  | Normal (Some sheets) =>
      pages <> []
      /\ Forall2 (fun page canvas =>
                    render (sheetPropsOf s page) = Normal canvas
                    /\ call (Library.ToDataURL canvas) = Normal tt)
                 pages sheets
  | Throw e =>
      pages <> []
      /\ ((exists c, call c = Throw e)
          \/ (e = memoryError
              /\ exists before page after,
                   pages = before ++ page :: after
                   /\ Forall (fun done => exists canvas,
                                render (sheetPropsOf s done) = Normal canvas)
                             before
                   /\ render (sheetPropsOf s page) = Throw memoryError))
  end.
Proof.
  intros render. unfold Library.generatePdf.
  destruct pages as [|page rest]; [reflexivity|].
  cbn [length Nat.eqb].
  destruct (call (Library.NewJsPDF _ _)) as [[]|e] eqn:Enew.
  2:{ cbn [mbind Completion_bind bindC]. split; [discriminate|]. left. eauto. }
  cbn [mbind Completion_bind bindC].
  pose proof (addPages_spec decodes has2dContext renderSheetWithHtml2Canvas call
                s (page :: rest) 0) as H.
  cbv zeta in H. fold render in H.
  destruct (Library.addPages _ _ _ _ s 0 (page :: rest)) as [sheets|e].
  - split; [discriminate|exact H].
  - split; [discriminate|].
    destruct H as (before & bad & after & E & Hdone & [[Hbad ->]|Hcall]).
    + right. split; [reflexivity|]. eauto 6.
    + left. exact Hcall.
Qed.




(** ** The direct renderer on standard pages *)

Lemma find_Some_elem images a img : find images a = Some img -> img ∈ images.
Proof.
  induction images as [|first rest IH]; [discriminate|]. simpl.
  destruct (String.eqb _ _); intros E.
  - injection E as ->. left.
  - right. apply IH, E.
Qed.

Lemma imagesToPrint_subset s quantities img :
  img ∈ imagesToPrint s quantities -> img ∈ Settings.images s.
Proof.
  unfold imagesToPrint. destruct (isRandomSizeMode s); [auto|].
  assert (H : forall keys flatArray,
             Forall (fun i => i ∈ Settings.images s) flatArray ->
             Forall (fun i => i ∈ Settings.images s)
               (foldl (fun flatArray a =>
                         match find (Settings.images s) a with
                         | Some image => pushTimes (quantityOf quantities a) image flatArray
                         | None => flatArray
                         end) flatArray keys)).
  { induction keys as [|a keys IH]; intros flatArray Hall; [exact Hall|].
    cbn [foldl]. apply IH.
    destruct (find (Settings.images s) a) as [image|] eqn:E; [|exact Hall].
    unfold pushTimes. apply Forall_app. split; [exact Hall|].
    apply Forall_forall. intros x Hx. apply elem_of_replicate in Hx as [-> _].
    eapply find_Some_elem, E. }
  intros Hin. specialize (H (sortedImageIds (Settings.images s) quantities) []
                            (Forall_nil_2 _)).
  rewrite Forall_forall in H. apply H, Hin.
Qed.

Lemma standard_instance s quantities pages page inst :
  isRandomSizeMode s = false ->
  paginatedLayout s quantities = Normal pages -> page ∈ pages -> inst ∈ page ->
  exists size,
    passportSize s = Some size
    /\ PositionedImage.image inst ∈ Settings.images s
    /\ PositionedImage.renderWidth inst = Grid.totalWidth (packerGrid s size)
    /\ PositionedImage.renderHeight inst = Grid.totalHeight (packerGrid s size).
Proof.
  intros Hstd Hlayout Hpage Hinst.
  destruct (standard_page_cells s quantities pages page Hstd Hlayout Hpage)
    as (size & Hsize & HW & HH & Hcap & _ & Epage).
  apply list_elem_of_lookup in Hinst as [i Hi]. rewrite Epage in Hi.
  destruct (standard_cell_at s quantities size i inst HW HH Hcap Hi)
    as (_ & _ & _ & _ & _ & _ & Ew & Eh).
  exists size. split; [exact Hsize|]. split; [|split; assumption].
  rewrite list_lookup_imap in Hi.
  destruct (take _ _ !! i) as [img|] eqn:Eimg; [|discriminate].
  cbn [fmap option_fmap option_map] in Hi. injection Hi as <-.
  cbn [gridCell PositionedImage.image].
  apply imagesToPrint_subset with quantities.
  apply lookup_take_Some in Eimg as [Eimg _].
  apply list_elem_of_lookup. eauto.
Qed.

Lemma standard_render s quantities size pages page decodes :
  isRandomSizeMode s = false -> passportSize s = Some size ->
  Forall (fun img => ProcessedImage.size img = size) (Settings.images s) ->
  paginatedLayout s quantities = Normal pages -> page ∈ pages ->
  (forall inst, inst ∈ page ->
     decodes (ProcessedImage.dataUrl (PositionedImage.image inst)) = true) ->
  renderSheetDirectlyToCanvas decodes true (sheetPropsOf s page)
  = Normal (Canvas.mk
      (mmToPx (Dimensions.width (paperDimensions s)))
      (mmToPx (Dimensions.height (paperDimensions s)))
      (FillRect 0 0 (mmToPx (Dimensions.width (paperDimensions s)))
                    (mmToPx (Dimensions.height (paperDimensions s)))
       :: concat (map (drawCell (sheetPropsOf s page) false
                         (mmToPx (Margins.left (Settings.margins s)))
                         (mmToPx (Margins.top (Settings.margins s)))
                         (mmToPx (if Settings.showCutMarks s
                                     && negb (Settings.noGap s)
                                  then MARK_PADDING_PX else 0%Q)))
                      page))).
Proof.
  intros Hstd Hsize Hsame Hlayout Hpage Hdec.
  unfold renderSheetDirectlyToCanvas. cbn [negb].
  cbn [sheetPropsOf SheetProps.page SheetProps.paperDimensions SheetProps.margins
       SheetProps.showCutMarks SheetProps.noGap].
  rewrite loadAll_success by exact Hdec.
  cbn [mbind Completion_bind bindC].
  assert (Hmode : match page with
                  | first :: _ =>
                      isRandomSizeName
                        (PassportSize.name
                           (ProcessedImage.size (PositionedImage.image first)))
                  | [] => false
                  end = false).
  { destruct page as [|first rest]; [reflexivity|].
    destruct (standard_instance s quantities pages (first :: rest) first
                Hstd Hlayout Hpage) as (size' & _ & Hin & _); [left|].
    rewrite Forall_forall in Hsame. rewrite (Hsame _ Hin).
    unfold isRandomSizeMode in Hstd. rewrite Hsize in Hstd. exact Hstd. }
  rewrite Hmode. reflexivity.
Qed.

Lemma standard_drawCell s quantities size pages page inst :
  isRandomSizeMode s = false -> passportSize s = Some size ->
  Forall (fun img => ProcessedImage.size img = size) (Settings.images s) ->
  paginatedLayout s quantities = Normal pages -> page ∈ pages -> inst ∈ page ->
  let marginX := mmToPx (Margins.left (Settings.margins s)) in
  let marginY := mmToPx (Margins.top (Settings.margins s)) in
  let pad := mmToPx (if Settings.showCutMarks s && negb (Settings.noGap s)
                     then MARK_PADDING_PX else 0%Q) in
  let w := mmToPx (PassportSize.width_mm size) in
  let h := mmToPx (PassportSize.height_mm size) in
  exists rotated marks,
    drawCell (sheetPropsOf s page) false marginX marginY pad inst
    = DrawImage (ProcessedImage.id (PositionedImage.image inst)) rotated
        (marginX + PositionedImage.x inst
         + (PositionedImage.renderWidth inst - w) / 2)%Q
        (marginY + PositionedImage.y inst
         + (PositionedImage.renderHeight inst - h) / 2)%Q
        w h
      :: marks
    /\ (Settings.showCutMarks s = false -> marks = [])
    /\ PositionedImage.renderWidth inst
       = ((if Settings.rotatePhotos s then h else w) + pad * 2)%Q
    /\ PositionedImage.renderHeight inst
       = ((if Settings.rotatePhotos s then w else h) + pad * 2)%Q.
Proof.
  intros Hstd Hsize Hsame Hlayout Hpage Hinst marginX marginY pad w h.
  destruct (standard_instance s quantities pages page inst Hstd Hlayout Hpage Hinst)
    as (size' & Hsize' & Hin & Ew & Eh).
  assert (size' = size) as -> by congruence.
  rewrite Forall_forall in Hsame. specialize (Hsame _ Hin).
  unfold drawCell. rewrite Hsame. fold w h marginX marginY.
  cbn [sheetPropsOf SheetProps.showCutMarks SheetProps.noGap negb].
  eexists _, _. split; [reflexivity|]. split.
  - intros ->. reflexivity.
  - rewrite Ew, Eh. unfold packerGrid, standardGrid.
    cbn [Grid.totalWidth Grid.totalHeight]. fold pad. subst w h.
    destruct (Settings.rotatePhotos s); split; reflexivity.
Qed.

(** X14. The direct renderer on a standard page whose photos are not
    turned ([rotatePhotos] off) and share one size: when all images
    decode, it returns a canvas of the paper's size that holds the
    background and then the cells in page order; and each photo is drawn
    centred in its cell, inset by the cut-mark padding on every side, so
    the photo box is the cell without its padding.  Without cut marks a
    cell draws nothing but the photo. *)
Theorem X14_direct_renderer_draws_photo_inside_cell
    (decodes : string -> bool)
    (s : Settings.t) (quantities : Quantities) (size : PassportSize.t)
    (pages : list Page) (page : Page) :
  isRandomSizeMode s = false -> passportSize s = Some size ->
  Forall (fun img => ProcessedImage.size img = size) (Settings.images s) ->
  Settings.rotatePhotos s = false ->
  paginatedLayout s quantities = Normal pages -> page ∈ pages ->
  (forall inst, inst ∈ page ->
     decodes (ProcessedImage.dataUrl (PositionedImage.image inst)) = true) ->
  let props := sheetPropsOf s page in
  let marginX := mmToPx (Margins.left (Settings.margins s)) in
  let marginY := mmToPx (Margins.top (Settings.margins s)) in
  let pad := mmToPx (if Settings.showCutMarks s && negb (Settings.noGap s)
                     then MARK_PADDING_PX else 0%Q) in
  exists canvas,
    renderSheetDirectlyToCanvas decodes true props = Normal canvas
    /\ Canvas.width canvas = mmToPx (Dimensions.width (paperDimensions s))
    /\ Canvas.height canvas = mmToPx (Dimensions.height (paperDimensions s))
    /\ Canvas.drawn canvas
       = FillRect 0 0 (mmToPx (Dimensions.width (paperDimensions s)))
                      (mmToPx (Dimensions.height (paperDimensions s)))
         :: concat (map (drawCell props false marginX marginY pad) page)
    /\ forall inst, inst ∈ page ->
         exists rotated destX destY w h marks,
           drawCell props false marginX marginY pad inst
           = DrawImage (ProcessedImage.id (PositionedImage.image inst)) rotated
                       destX destY w h :: marks
           /\ (destX == marginX + PositionedImage.x inst + pad)%Q
           /\ (destY == marginY + PositionedImage.y inst + pad)%Q
           /\ (w == PositionedImage.renderWidth inst - pad * 2)%Q
           /\ (h == PositionedImage.renderHeight inst - pad * 2)%Q
           /\ (Settings.showCutMarks s = false -> marks = []).
Proof.
  intros Hstd Hsize Hsame Hrot Hlayout Hpage Hdec props marginX marginY pad.
  eexists. split; [apply (standard_render s quantities size pages page decodes);
                   assumption|].
  cbn [Canvas.width Canvas.height Canvas.drawn].
  split; [reflexivity|]. split; [reflexivity|]. split; [reflexivity|].
  intros inst Hinst.
  destruct (standard_drawCell s quantities size pages page inst
              Hstd Hsize Hsame Hlayout Hpage Hinst)
    as (rotated & marks & Ecell & Hmarks & Ew & Eh).
  rewrite Hrot in Ew, Eh.
  eexists _, _, _, _, _, _. split; [exact Ecell|].
  fold pad in Ew, Eh. fold marginX marginY.
  rewrite Ew, Eh.
  split; [field|]. split; [field|]. split; [ring|]. split; [ring|exact Hmarks].
Qed.

(** X15. The same renderer when [rotatePhotos] is on, as "optimize and
    fill page" sets it: the packer's cell is the turned photo, but the
    photo is still drawn in its upright box.  The drawn box is taller
    than the padded cell by the difference of the photo's sides, half of
    it on either side; when that difference exceeds the double padding,
    the photo starts above its cell and ends below it. *)
Theorem X15_turned_cells_hold_upright_photos
    (s : Settings.t) (quantities : Quantities) (size : PassportSize.t)
    (pages : list Page) (page : Page) (inst : PositionedImage.t) :
  isRandomSizeMode s = false -> passportSize s = Some size ->
  Forall (fun img => ProcessedImage.size img = size) (Settings.images s) ->
  Settings.rotatePhotos s = true ->
  paginatedLayout s quantities = Normal pages -> page ∈ pages -> inst ∈ page ->
  let marginY := mmToPx (Margins.top (Settings.margins s)) in
  let pad := mmToPx (if Settings.showCutMarks s && negb (Settings.noGap s)
                     then MARK_PADDING_PX else 0%Q) in
  let excess :=
    mmToPx (PassportSize.height_mm size - PassportSize.width_mm size) in
  exists rotated destX destY w h marks,
    drawCell (sheetPropsOf s page) false
      (mmToPx (Margins.left (Settings.margins s))) marginY pad inst
    = DrawImage (ProcessedImage.id (PositionedImage.image inst)) rotated
                destX destY w h :: marks
    /\ (h == PositionedImage.renderHeight inst - pad * 2 + excess)%Q
    /\ (destY == marginY + PositionedImage.y inst + pad - excess / 2)%Q
    /\ (pad * 2 < excess ->
        destY < marginY + PositionedImage.y inst
        /\ marginY + PositionedImage.y inst + PositionedImage.renderHeight inst
           < destY + h)%Q.
Proof.
  intros Hstd Hsize Hsame Hrot Hlayout Hpage Hinst marginY pad excess.
  destruct (standard_drawCell s quantities size pages page inst
              Hstd Hsize Hsame Hlayout Hpage Hinst)
    as (rotated & marks & Ecell & _ & _ & Eh).
  rewrite Hrot in Eh. fold pad in Eh.
  eexists _, _, _, _, _, _. split; [exact Ecell|].
  fold marginY. rewrite Eh.
  assert (Eexcess : (excess == mmToPx (PassportSize.height_mm size)
                               - mmToPx (PassportSize.width_mm size))%Q).
  { subst excess. unfold mmToPx. field. }
  split; [rewrite Eexcess; ring|]. split; [rewrite Eexcess; field|].
  intros Hbig. rewrite Eexcess in Hbig.
  set (half := ((_ - _) / 2)%Q).
  assert (Hhalf : (2 * half == mmToPx (PassportSize.width_mm size) + pad * 2
                               - mmToPx (PassportSize.height_mm size))%Q)
    by (subst half; field).
  split; lra.
Qed.

Lemma X14_direct_renderer_draws_photo_inside_cell_witness :
  exists pages page canvas,
    paginatedLayout threePhotoSheet {["1700000000002" := 7]} = Normal pages
    /\ page ∈ pages
    /\ renderSheetDirectlyToCanvas (fun _ => true) true
         (sheetPropsOf threePhotoSheet page) = Normal canvas
    /\ Canvas.width canvas = mmToPx 210.
Proof.
  destruct (paginatedLayout threePhotoSheet {["1700000000002" := 7]})
    as [pages|] eqn:E; [|vm_compute in E; discriminate].
  destruct pages as [|page rest]; [vm_compute in E; discriminate|].
  destruct (X14_direct_renderer_draws_photo_inside_cell (fun _ => true)
              threePhotoSheet {["1700000000002" := 7]} indiaPassport
              (page :: rest) page)
    as (canvas & Erender & Ewidth & _).
  - reflexivity.
  - reflexivity.
  - repeat constructor.
  - reflexivity.
  - exact E.
  - left.
  - intros inst _. reflexivity.
  - exists (page :: rest), page, canvas.
    split; [reflexivity|]. split; [left|]. split; [exact Erender|exact Ewidth].
Defined.

Lemma X15_turned_cells_hold_upright_photos_witness :
  exists pages page inst rotated destX destY w h marks,
    paginatedLayout (Component.settings filledSheet)
                    (Component.quantities filledSheet) = Normal pages
    /\ page ∈ pages /\ inst ∈ page
    /\ drawCell (sheetPropsOf (Component.settings filledSheet) page) false
         (mmToPx 10) (mmToPx 10) (mmToPx 0) inst
       = DrawImage (ProcessedImage.id (PositionedImage.image inst)) rotated
                   destX destY w h :: marks
    /\ (destY < mmToPx 10 + PositionedImage.y inst)%Q.
Proof.
  destruct (paginatedLayout (Component.settings filledSheet)
                            (Component.quantities filledSheet))
    as [pages|] eqn:E; [|vm_compute in E; discriminate].
  destruct pages as [|page rest]; [vm_compute in E; discriminate|].
  destruct page as [|inst page]; [vm_compute in E; discriminate|].
  destruct (X15_turned_cells_hold_upright_photos (Component.settings filledSheet)
              (Component.quantities filledSheet) indiaPassport
              ((inst :: page) :: rest) (inst :: page) inst)
    as (rotated & destX & destY & w & h & marks & Ecell & _ & _ & Hout).
  - reflexivity.
  - reflexivity.
  - repeat constructor.
  - reflexivity.
  - exact E.
  - left.
  - left.
  - exists ((inst :: page) :: rest), (inst :: page), inst,
           rotated, destX, destY, w, h, marks.
    split; [reflexivity|]. split; [left|]. split; [left|].
    split; [exact Ecell|]. apply Hout. vm_compute. reflexivity.
Defined.

(** ** Symmetry and monotonicity of the layout calculator *)

Lemma calculateLayoutInfo_positive_area paperW paperH photoSize m showCutMarks noGap :
  (paperW - Margins.left m - Margins.right m <= 0)%Q
  \/ (paperH - Margins.top m - Margins.bottom m <= 0)%Q ->
  calculateLayoutInfo paperW paperH photoSize m showCutMarks noGap = noLayout.
Proof.
  intros Harea. unfold calculateLayoutInfo.
  destruct photoSize as [size|]; [|reflexivity].
  destruct (isRandomSizeName _); [reflexivity|].
  destruct Harea as [HW|HH].
  - apply Qleb_true in HW as ->. reflexivity.
  - apply Qleb_true in HH as ->. rewrite orb_true_r. reflexivity.
Qed.

(** X17. The calculator is symmetric under a quarter turn.  Swapping the
    two sides of the photo swaps the two counts and keeps the capacity;
    so does turning the paper together with its margins. *)
Theorem X17_calculator_quarter_turn_symmetry
    (paperW paperH : Q) (name : string) (w h : Q) (m : Margins.t)
    (showCutMarks noGap : bool) :
  let upright :=
    calculateLayoutInfo paperW paperH (Some (PassportSize.mk name w h)) m
                        showCutMarks noGap in
  let photoTurned :=
    calculateLayoutInfo paperW paperH (Some (PassportSize.mk name h w)) m
                        showCutMarks noGap in
  let paperTurned :=
    calculateLayoutInfo paperH paperW (Some (PassportSize.mk name w h))
      (Margins.mk (Margins.left m) (Margins.bottom m)
                  (Margins.right m) (Margins.top m))
      showCutMarks noGap in
  LayoutInfo.portrait photoTurned = LayoutInfo.landscape upright
  /\ LayoutInfo.landscape photoTurned = LayoutInfo.portrait upright
  /\ LayoutInfo.max photoTurned = LayoutInfo.max upright
  /\ LayoutInfo.portrait paperTurned = LayoutInfo.landscape upright
  /\ LayoutInfo.landscape paperTurned = LayoutInfo.portrait upright
  /\ LayoutInfo.max paperTurned = LayoutInfo.max upright.
Proof.
  unfold calculateLayoutInfo.
  cbn [PassportSize.name PassportSize.width_mm PassportSize.height_mm
       Margins.left Margins.right Margins.top Margins.bottom].
  destruct (isRandomSizeName name); [repeat split; reflexivity|].
  destruct (Qleb (paperW - Margins.left m - Margins.right m) 0),
           (Qleb (paperH - Margins.top m - Margins.bottom m) 0);
    cbn [orb LayoutInfo.portrait LayoutInfo.landscape LayoutInfo.max noLayout];
    try (repeat split; reflexivity).
  split; [reflexivity|]. split; [reflexivity|]. split; [apply Z.max_comm|].
  split; [apply Z.mul_comm|]. split; [apply Z.mul_comm|].
  rewrite Z.max_comm. f_equal; apply Z.mul_comm.
Qed.

Lemma cellsAlong_monotone W W' gapPx total :
  (0 <= gapPx)%Q -> (W <= W')%Q ->
  cellsAlong W gapPx total <= cellsAlong W' gapPx total.
Proof.
  intros Hg HW. unfold cellsAlong.
  destruct (Qgtb total 0) eqn:E; [|lia]. apply Qgtb_true in E.
  apply Qfloor_resp_le. unfold Qdiv. apply Qmult_le_compat_r; [lra|].
  apply Qinv_le_0_compat. lra.
Qed.

(** X18. A larger sheet never holds fewer photos: with the same photo,
    margins and switches, growing the paper in width or height lowers
    neither count nor the capacity. *)
Theorem X18_larger_paper_never_holds_fewer
    (paperW paperH paperW' paperH' : Q) (photoSize : option PassportSize.t)
    (m : Margins.t) (showCutMarks noGap : bool) :
  (paperW <= paperW')%Q -> (paperH <= paperH')%Q ->
  let small := calculateLayoutInfo paperW paperH photoSize m showCutMarks noGap in
  let large := calculateLayoutInfo paperW' paperH' photoSize m showCutMarks noGap in
  LayoutInfo.portrait small <= LayoutInfo.portrait large
  /\ LayoutInfo.landscape small <= LayoutInfo.landscape large
  /\ LayoutInfo.max small <= LayoutInfo.max large.
Proof.
  intros HW HH small large.
  destruct (calculateLayoutInfo_nonneg paperW' paperH' photoSize m showCutMarks noGap)
    as (Hp & Hl & Hm). fold large in Hp, Hl, Hm.
  destruct photoSize as [size|]; [|repeat split; reflexivity].
  destruct (isRandomSizeName (PassportSize.name size)) eqn:Hname.
  { subst small large. unfold calculateLayoutInfo. rewrite Hname.
    repeat split; reflexivity. }
  destruct (Qlt_le_dec 0 (paperW - Margins.left m - Margins.right m)) as [HW0|HW0].
  2:{ subst small. rewrite calculateLayoutInfo_positive_area by (left; exact HW0).
      auto. }
  destruct (Qlt_le_dec 0 (paperH - Margins.top m - Margins.bottom m)) as [HH0|HH0].
  2:{ subst small. rewrite calculateLayoutInfo_positive_area by (right; exact HH0).
      auto. }
  subst small large.
  rewrite !calculateLayoutInfo_unfold by (try assumption; lra).
  cbn [LayoutInfo.portrait LayoutInfo.landscape LayoutInfo.max].
  set (g := mmToPx (gapMm noGap)).
  assert (Hg : (0 <= g)%Q) by apply mmToPx_nonneg, gapMm_nonneg.
  set (W := mmToPx (paperW - _ - _)). set (W' := mmToPx (paperW' - _ - _)).
  set (H := mmToPx (paperH - _ - _)). set (H' := mmToPx (paperH' - _ - _)).
  assert (HW1 : (0 <= W)%Q) by (apply mmToPx_nonneg; lra).
  assert (HH1 : (0 <= H)%Q) by (apply mmToPx_nonneg; lra).
  assert (HWW : (W <= W')%Q) by (subst W W'; rewrite !mmToPx_linear; lra).
  assert (HHH : (H <= H')%Q) by (subst H H'; rewrite !mmToPx_linear; lra).
  assert (Hmul : forall a b,
             cellsAlong W g a * cellsAlong H g b
             <= cellsAlong W' g a * cellsAlong H' g b).
  { intros a b.
    pose proof (cellsAlong_nonneg W g a HW1 Hg).
    pose proof (cellsAlong_nonneg H g b HH1 Hg).
    pose proof (cellsAlong_monotone W W' g a Hg HWW).
    pose proof (cellsAlong_monotone H H' g b Hg HHH).
    nia. }
  split; [apply Hmul|]. split; [apply Hmul|].
  apply Z.max_le_compat; apply Hmul.
Qed.

Lemma X18_larger_paper_never_holds_fewer_witness :
  LayoutInfo.max (calculateLayoutInfo 100 150 (Some indiaPassport)
                    (Margins.mk 10 10 10 10) false false)
  <= LayoutInfo.max (calculateLayoutInfo 210 297 (Some indiaPassport)
                       (Margins.mk 10 10 10 10) false false).
Proof.
  refine (proj2 (proj2 (X18_larger_paper_never_holds_fewer 100 150 210 297
                          (Some indiaPassport) (Margins.mk 10 10 10 10)
                          false false _ _))).
  - vm_compute. discriminate.
  - vm_compute. discriminate.
Defined.




(** ** Page buttons *)

Lemma settle_page_only c p' :
  let s := Component.settings c in
  let q := Component.quantities c in
  1 <= p' <= pageCount s q ->
  settle c false (Component.mk s q p') = Component.mk s q p'.
Proof.
  intros s q Hp. unfold settle.
  cbn [Component.settings Component.quantities Component.currentPage].
  fold s q. rewrite Z.eqb_refl, eqb_reflx. cbn [negb orb]. f_equal.
  unfold currentPageEffect.
  destruct (p' >? pageCount s q) eqn:E1, (pageCount s q >? 0) eqn:E2,
           (pageCount s q =? 0) eqn:E3; simpl; lia.
Qed.

(** X20. While the page bar is shown and the current page is not the
    last, "Next" moves one page forward and "Prev" then leads back to
    exactly the state before; neither button touches the settings or the
    quantities. *)
Theorem X20_next_then_prev_returns c :
  reachable c -> pageBarShown c = true ->
  Component.currentPage c
  < pageCount (Component.settings c) (Component.quantities c) ->
  dispatch c EvNext
  = Component.mk (Component.settings c) (Component.quantities c)
                 (Component.currentPage c + 1)
  /\ dispatch (dispatch c EvNext) EvPrev = c.
Proof.
  intros Hreach Hbar Hp.
  destruct (reachable_invariants c Hreach) as [_ [Hlo _]].
  destruct c as [s q p].
  cbn [Component.settings Component.quantities Component.currentPage] in *.
  assert (Hnext : dispatch (Component.mk s q p) EvNext = Component.mk s q (p + 1)).
  { unfold dispatch, handle, replacesImages. rewrite Hbar.
    cbn [Component.settings Component.quantities Component.currentPage].
    assert (E : (p =? pageCount s q) = false) by lia. rewrite E. cbn [negb andb].
    unfold nextPage. rewrite Z.min_r by lia.
    apply (settle_page_only (Component.mk s q p) (p + 1)).
    cbn [Component.settings Component.quantities]. lia. }
  split; [exact Hnext|]. rewrite Hnext.
  assert (Hbar' : pageBarShown (Component.mk s q (p + 1)) = true) by exact Hbar.
  unfold dispatch, handle, replacesImages. rewrite Hbar'.
  cbn [Component.settings Component.quantities Component.currentPage].
  assert (E : (p + 1 =? 1) = false) by lia. rewrite E. cbn [negb andb].
  unfold prevPage. rewrite Z.max_r by lia.
  replace (p + 1 - 1) with p by lia.
  assert (Hsettle := settle_page_only (Component.mk s q (p + 1)) p).
  cbn [Component.settings Component.quantities] in Hsettle.
  unfold settle in *.
  cbn [Component.settings Component.quantities Component.currentPage] in *.
  apply Hsettle. lia.
Qed.

Lemma X20_next_then_prev_returns_witness :
  dispatch (dispatch (mount panoramas) EvNext) EvPrev = mount panoramas.
Proof.
  refine (proj2 (X20_next_then_prev_returns (mount panoramas) _ _ _)).
  - apply reachable_mount.
  - vm_compute. reflexivity.
  - vm_compute. reflexivity.
Defined.

(** ** Export without the fallback, and settled effects *)

Lemma addPages_direct
    (decodes : string -> bool)
    (renderSheetWithHtml2Canvas : SheetProps.t -> Completion Canvas.t)
    (call : Library.Call -> Completion unit)
    (s : Settings.t) (pages : list Page) :
  (forall c, call c = Normal tt) ->
  (forall page inst, page ∈ pages -> inst ∈ page ->
     decodes (ProcessedImage.dataUrl (PositionedImage.image inst)) = true) ->
  forall i,
  exists sheets,
    Library.addPages decodes true renderSheetWithHtml2Canvas call s i pages
    = Normal sheets
    /\ Forall2 (fun page canvas =>
                  renderSheetDirectlyToCanvas decodes true (sheetPropsOf s page)
                  = Normal canvas
                  /\ Canvas.width canvas
                     = mmToPx (Dimensions.width (paperDimensions s))
                  /\ Canvas.height canvas
                     = mmToPx (Dimensions.height (paperDimensions s)))
               pages sheets.
Proof.
  intros Hcall. induction pages as [|page rest IH]; intros Hdec i.
  - exists []. split; [reflexivity|constructor].
  - destruct (IH ltac:(intros p inst Hp; apply Hdec; right; exact Hp) (S i))
      as (sheets & Erest & Hall).
    destruct (renderSheetDirectlyToCanvas_size decodes (sheetPropsOf s page))
      as (canvas & Ecanvas & Ew & Eh).
    { intros inst Hinst. apply (Hdec page); [left|exact Hinst]. }
    exists (canvas :: sheets). split.
    + cbn [Library.addPages]. unfold renderPageToCanvas, tryCatch.
      rewrite Ecanvas.
      destruct (0 <? i)%nat;
        repeat (progress (rewrite ?Hcall, ?Erest;
                          cbn [mbind Completion_bind bindC]));
        reflexivity.
    + constructor; [|exact Hall]. split; [exact Ecanvas|]. split; assumption.
Qed.

(** X21. When every call into jsPDF and the DOM returns, the canvas
    hands out a 2D context and every image of a non-empty layout
    decodes, PDF export and print succeed whatever the DOM-snapshot
    fallback would do: both produce the same sheets, one per page in
    page order, each the direct rendering of its page at the paper's
    size. *)
Theorem X21_pdf_export_succeeds_without_fallback
    (decodes : string -> bool)
    (renderSheetWithHtml2Canvas : SheetProps.t -> Completion Canvas.t)
    (call : Library.Call -> Completion unit)
    (s : Settings.t) (pages : list Page) (currentPage : Z) :
  (forall c, call c = Normal tt) ->
  pages <> [] ->
  (forall page inst, page ∈ pages -> inst ∈ page ->
     decodes (ProcessedImage.dataUrl (PositionedImage.image inst)) = true) ->
  exists sheets,
    Forall2 (fun page canvas =>
               renderSheetDirectlyToCanvas decodes true (sheetPropsOf s page)
               = Normal canvas
               /\ Canvas.width canvas
                  = mmToPx (Dimensions.width (paperDimensions s))
               /\ Canvas.height canvas
                  = mmToPx (Dimensions.height (paperDimensions s)))
            pages sheets
    /\ Library.generatePdf decodes true renderSheetWithHtml2Canvas call s pages
       = Normal (Some sheets)
    /\ Library.handleExport decodes true renderSheetWithHtml2Canvas call
         false true s pages currentPage FormatPdf
       = SavedPdf sheets
    /\ Library.handlePrint decodes true renderSheetWithHtml2Canvas call
         false true s pages
       = OpenedForPrint sheets.
Proof.
  intros Hcall Hne Hdec.
  destruct (addPages_direct decodes renderSheetWithHtml2Canvas call s pages
              Hcall Hdec 0) as (sheets & Erender & Hall).
  exists sheets. split; [exact Hall|].
  assert (Epdf : Library.generatePdf decodes true renderSheetWithHtml2Canvas call
                   s pages = Normal (Some sheets)).
  { unfold Library.generatePdf. destruct pages as [|page rest]; [congruence|].
    cbn [length Nat.eqb]. rewrite Hcall. cbn [mbind Completion_bind bindC].
    rewrite Erender. reflexivity. }
  split; [exact Epdf|]. split.
  - unfold Library.handleExport. cbn [orb andb negb]. rewrite Epdf.
    cbn [mbind Completion_bind bindC]. rewrite Hcall. reflexivity.
  - unfold Library.handlePrint. cbn [orb negb]. rewrite Epdf.
    cbn [mbind Completion_bind bindC]. rewrite !Hcall. reflexivity.
Qed.

Lemma X21_pdf_export_succeeds_without_fallback_witness :
  exists sheets,
    Library.handleExport (fun _ => true) true failingSnapshot (fun _ => Normal tt)
      false true threePhotoSheet [SheetProps.page onePhotoProps] 1 FormatPdf
    = SavedPdf sheets
    /\ length sheets = 1%nat.
Proof.
  destruct (X21_pdf_export_succeeds_without_fallback (fun _ => true)
              failingSnapshot (fun _ => Normal tt) threePhotoSheet
              [SheetProps.page onePhotoProps] 1)
    as (sheets & Hall & _ & Eexport & _).
  - intros c. reflexivity.
  - discriminate.
  - intros page inst _ _. reflexivity.
  - exists sheets. split; [exact Eexport|].
    apply Forall2_length in Hall. symmetry. exact Hall.
Defined.

(** When every library call returns, the functions with the calls and
    the ones without them agree. *)
Lemma generatePdf_library_returns
    (decodes : string -> bool) (has2dContext : bool)
    (renderSheetWithHtml2Canvas : SheetProps.t -> Completion Canvas.t)
    (call : Library.Call -> Completion unit)
    (s : Settings.t) (pages : list Page) :
  (forall c, call c = Normal tt) ->
  Library.generatePdf decodes has2dContext renderSheetWithHtml2Canvas call s pages
  = generatePdf decodes has2dContext renderSheetWithHtml2Canvas s pages.
Proof.
  intros Hcall. unfold Library.generatePdf, generatePdf.
  destruct (length pages =? 0)%nat; [reflexivity|].
  rewrite Hcall. cbn [mbind Completion_bind bindC].
  assert (E : forall i,
             Library.addPages decodes has2dContext renderSheetWithHtml2Canvas
               call s i pages
             = renderPages decodes has2dContext renderSheetWithHtml2Canvas s pages).
  { induction pages as [|page rest IH]; intros i; [reflexivity|].
    cbn [Library.addPages renderPages]. rewrite IH.
    destruct (renderPageToCanvas _ _ _ _) as [canvas|e];
      destruct (0 <? i)%nat;
      repeat (progress (rewrite ?Hcall; cbn [mbind Completion_bind bindC]));
      reflexivity. }
  rewrite E. reflexivity.
Qed.

Lemma currentPageEffect_idempotent p len :
  0 <= len ->
  currentPageEffect (currentPageEffect p len) len = currentPageEffect p len.
Proof.
  intros Hlen. unfold currentPageEffect.
  destruct (p >? len) eqn:E1, (len >? 0) eqn:E2, (len =? 0) eqn:E3,
           (p =? 1) eqn:E4; cbn [andb negb];
    rewrite ?E1, ?E2, ?E3, ?E4; cbn [andb negb];
    try reflexivity; try lia;
    repeat match goal with
           | |- context [?a >? ?b] => destruct (a >? b) eqn:?
           | |- context [?a =? ?b] => destruct (a =? b) eqn:?
           end; cbn [andb negb]; lia.
Qed.

(** X22. The effects settle in one round.  Once the quantity effect and
    the page effect have run, running them again changes nothing: the
    page effect is idempotent, and the quantity effect does not read the
    map it replaces. *)
Theorem X22_effects_settle_in_one_round old replaced new :
  let c := settle old replaced new in
  settle c false c = c
  /\ quantitiesEffect (Component.settings c)
       (quantitiesEffect (Component.settings c) (Component.quantities c))
     = quantitiesEffect (Component.settings c) (Component.quantities c).
Proof.
  intros c. split.
  - subst c. unfold settle.
    cbn [Component.settings Component.quantities Component.currentPage].
    rewrite Z.eqb_refl, eqb_reflx. cbn [negb orb]. f_equal.
    apply currentPageEffect_idempotent, pageCount_nonneg.
  - unfold quantitiesEffect. destruct (isRandomSizeMode _); reflexivity.
Qed.

(** ** Filling the page twice *)

Lemma handleFillPage_withFill s o r quantities quantities' :
  isRandomSizeMode s = false -> Settings.images s <> [] ->
  handleFillPage (withFill s o r) quantities' = handleFillPage s quantities.
Proof.
  intros Hstd Hne. unfold handleFillPage.
  assert (Esize : passportSize (withFill s o r) = passportSize s) by reflexivity.
  assert (Emode : isRandomSizeMode (withFill s o r) = isRandomSizeMode s)
    by reflexivity.
  rewrite Esize, Emode, Hstd.
  destruct (passportSize s) as [size|] eqn:Hsize.
  2:{ unfold passportSize in Hsize. destruct (Settings.images s); congruence. }
  cbn [withFill Settings.images]. rewrite orb_false_r.
  destruct (length (Settings.images s) =? 0)%nat eqn:Elen.
  { apply Nat.eqb_eq in Elen. destruct (Settings.images s); [congruence|discriminate]. }
  reflexivity.
Qed.

Lemma handleFillPage_again s quantities quantities' :
  isRandomSizeMode s = false -> Settings.images s <> [] ->
  handleFillPage (handleFillPage s quantities).1 quantities'
  = handleFillPage s quantities.
Proof.
  intros Hstd Hne.
  assert (Hfill : exists o r, (handleFillPage s quantities).1 = withFill s o r).
  { unfold handleFillPage.
    destruct (passportSize s) as [size|] eqn:Hsize.
    2:{ unfold passportSize in Hsize. destruct (Settings.images s); congruence. }
    rewrite Hstd, orb_false_r.
    destruct (length (Settings.images s) =? 0)%nat eqn:Elen.
    { apply Nat.eqb_eq in Elen.
      destruct (Settings.images s); [congruence|discriminate]. }
    cbv zeta. destruct (_ <=? 0); cbn [fst]; eauto. }
  destruct Hfill as (o & r & ->).
  apply handleFillPage_withFill; assumption.
Qed.

(** X23. "Optimize and fill page" is idempotent: in standard mode with
    at least one image, when the optimized sheet holds at least one
    photo, pressing the button a second time leaves the state exactly as
    the first press left it. *)
Theorem X23_fill_page_twice_is_once c :
  isRandomSizeMode (Component.settings c) = false ->
  Settings.images (Component.settings c) <> [] ->
  0 < maxPhotos (Component.settings (dispatch c EvFillPage)) ->
  dispatch (dispatch c EvFillPage) EvFillPage = dispatch c EvFillPage.
Proof.
  destruct c as [s q p]. cbn [Component.settings]. intros Hstd Hne.
  assert (Hsize : exists size, passportSize s = Some size).
  { unfold passportSize. destruct (Settings.images s); [congruence|eauto]. }
  destruct Hsize as [size Hsize].
  destruct (handleFillPage_filled s q size Hstd Hsize)
    as (Himg & _ & _ & _ & _ & Hq).
  pose proof (fun q' => handleFillPage_again s q q' Hstd Hne) as Hagain.
  assert (Hd : dispatch (Component.mk s q p) EvFillPage
               = settle (Component.mk s q p) false
                   (Component.mk (handleFillPage s q).1 (handleFillPage s q).2 p)).
  { unfold dispatch, handle, replacesImages.
    cbn [Component.settings Component.quantities Component.currentPage].
    rewrite Hstd. cbn [negb]. destruct (handleFillPage s q). reflexivity. }
  rewrite Hd. clear Hd.
  destruct (handleFillPage s q) as [s1 q1]. cbn [fst snd] in *.
  unfold settle.
  cbn [Component.settings Component.quantities Component.currentPage].
  intros Hpos.
  assert (Hstd1 : isRandomSizeMode s1 = false)
    by (rewrite (isRandomSizeMode_images s s1 Himg); exact Hstd).
  assert (E : (maxPhotos s1 <=? 0) = false) by lia. rewrite E in Hq.
  assert (Heffect : quantitiesEffect s1 q1 = q1).
  { rewrite quantitiesEffect_standard by exact Hstd1.
    assert (Egt : (maxPhotos s1 >? 0) = true) by lia.
    assert (Elen : (0 <? length (Settings.images s1))%nat = true).
    { rewrite Himg. destruct (Settings.images s); [congruence|reflexivity]. }
    rewrite Egt, Elen, Himg. symmetry. exact Hq. }
  rewrite Heffect.
  assert (Eq : (if (false || negb (maxPhotos s1 =? maxPhotos s)
                    || negb (eqb (isRandomSizeMode s1) (isRandomSizeMode s)))%bool
                then q1 else q1) = q1) by (destruct (_ || _); reflexivity).
  rewrite Eq.
  unfold dispatch, handle, replacesImages.
  cbn [Component.settings Component.quantities Component.currentPage].
  rewrite Hstd1. cbn [negb]. rewrite Hagain.
  unfold settle.
  cbn [Component.settings Component.quantities Component.currentPage].
  rewrite Z.eqb_refl, eqb_reflx. cbn [negb orb]. f_equal.
  apply currentPageEffect_idempotent, pageCount_nonneg.
Qed.

Lemma X23_fill_page_twice_is_once_witness :
  dispatch filledSheet EvFillPage = filledSheet.
Proof.
  apply (X23_fill_page_twice_is_once (Component.mk threePhotoSheet ∅ 1)).
  - reflexivity.
  - discriminate.
  - vm_compute. reflexivity.
Defined.
